(** * minimal_demo.py: a serial <-> TCP relay with an activity LED

    A shallow embedding of [src/minimal_demo.py] (QuecPython).  The script is
    glue around vendor objects ([machine.UART], [usocket], [_thread],
    [machine.Pin], [log]), so every call into such an object is an event of an
    interaction tree and the environment decides what the call returns or
    raises.  The methods of class [Demo] are programs over these events that
    thread the instance attributes explicitly; [while True] is [ITree.iter].

    What the model fixes:
    - exceptions are instances of [Exception] (what [except Exception]
      catches); the classes other than the ones named are not subclasses of
      [OSError], as in MicroPython;
    - the calls of [logger] return; every other call may raise;
    - an environment answers deterministically from its own state; the
      theorems about the methods hold for every environment;
    - a program is observed by running it for a number of nodes ([execute]),
      so a statement about a loop is a statement about all its finite
      observations. *)

From Stdlib Require Import ZArith List String Ascii Bool Lia.
From ITree Require Import ITree ITreeFacts.
Import ListNotations.
Local Open Scope string_scope.
Local Open Scope Z_scope.
Local Open Scope list_scope.

#[local] Set Warnings "-register-all".

(** ** Python values *)

Definition bytes := list Byte.byte.

Variant exn_class :=
| OSError | ValueError | AttributeError | KeyError | TypeError | IndexError
| OtherException (name : string).

(** The values the script handles.  [VFormat t args] is the [str] built by
    [t.format( *args )]; it is kept as template and arguments.  A template
    is literal text with [{}] fields, one argument each, as the templates
    of the script are.  [VExc] is an exception instance with its [args]
    tuple. *)
Inductive pyval :=
| VNone
| VBool (b : bool)
| VInt (z : Z)
| VStr (s : string)
| VBytes (b : bytes)
| VDict (items : list (string * pyval))
| VExc (cls : exn_class) (args : list pyval)
| VFormat (template : string) (args : list pyval).

(** Instances of [Exception]: what [except Exception as e] can bind. *)
Record exn := Exn { exn_cls : exn_class; exn_args : list pyval }.

Definition VExn (e : exn) : pyval := VExc (exn_cls e) (exn_args e).

(** A call into the environment either returns or raises. *)
Variant outcome (T : Type) :=
| Returned (v : T)
| Raised (e : exn).
Arguments Returned {T} v.
Arguments Raised {T} e.

(** [d[k]] on a dict literal: first binding of [k], [KeyError] without one,
    [TypeError] when [d] is not subscriptable by a string. *)
Fixpoint assoc (k : string) (items : list (string * pyval)) : option pyval :=
  match items with
  | [] => None
  | (k', v) :: rest => if String.eqb k k' then Some v else assoc k rest
  end.

Definition getitem (d : pyval) (k : string) : outcome pyval :=
  match d with
  | VDict items =>
      match assoc k items with
      | Some v => Returned v
      | None => Raised (Exn KeyError [VStr k])
      end
  | _ => Raised (Exn TypeError [])
  end.

(** Whether [str(v)] is the empty string: a [str] that is empty, an
    exception without arguments or whose one argument prints as nothing,
    and a formatted string with no literal text whose fields all print as
    nothing ([''.format()], ['{}'.format('')]).  Everything else prints at
    least one character. *)
Fixpoint str_is_empty (v : pyval) : bool :=
  match v with
  | VStr s => String.eqb s ""
  | VExc _ args =>
      match args with
      | [] => true
      | [a] => str_is_empty a
      | _ :: _ :: _ => false
      end
  | VFormat template args =>
      (fix fields (args : list pyval) (template : string) : bool :=
         match template with
         | EmptyString => true
         | String "{" (String "}" rest) =>
             match args with
             | a :: args' => str_is_empty a && fields args' rest
             | [] => false
             end
         | String _ _ => false
         end) args template
  | VNone | VBool _ | VInt _ | VBytes _ | VDict _ => false
  end.

(** Truth value of an object, as [or], [and], [if] and [not] test it: a
    [str], formatted or not, is false exactly when it is empty. *)
Definition truthy (v : pyval) : bool :=
  match v with
  | VNone => false
  | VBool b => b
  | VInt z => negb (z =? 0)
  | VStr s => negb (String.eqb s "")
  | VBytes b => match b with [] => false | _ => true end
  | VDict items => match items with [] => false | _ => true end
  | VExc _ _ => true
  | VFormat template args => negb (str_is_empty (VFormat template args))
  end.

(** ** Demo configuration (lines 34-54) *)

Definition DEMO_CONFIG : pyval :=
  VDict [
    ("PROJECT_NAME", VStr "QuecPython_DEMO");
    ("PROJECT_VERSION", VStr "1.0.0");
    ("SERVER", VDict [
        ("host", VStr "220.180.239.212");
        ("port", VStr "8305");
        ("timeout", VInt 5);
        ("keep_alive", VInt 5)
    ]);
    ("UART", VDict [
        ("port", VInt 2);
        ("baudrate", VInt 115200);
        ("bytesize", VInt 8);
        ("parity", VInt 0);
        ("stopbits", VInt 1);
        ("flowctl", VInt 0)
    ]);
    ("LED", VDict [
        ("GPIOn", VInt 16)
    ])
  ].

(** ** The environment: vendor objects and their calls *)

(** Objects created by the environment (a UART, a socket, a Pin) are named
    by handles; thread identifiers are the integers [_thread] hands out. *)
Definition handle := nat.
Definition thread_id := Z.

Variant log_level := DEBUG | INFO | ERROR | CRITICAL.

(** The two functions the script starts as threads. *)
Variant thread_entry :=
| sock_recv_thread_entry
| led_blink_thread_entry (on_remaining off_remaining count : Z).

(** One [getaddrinfo] result: [(family, type, proto, canonname, sockaddr)];
    the script reads only index 4, the [(ip, port)] pair. *)
Record addrinfo := AddrInfo {
  ai_family : Z;
  ai_type : Z;
  ai_proto : Z;
  ai_canonname : string;
  ai_sockaddr : string * Z
}.

Variant ioE : Type -> Type :=
(* getattr(UART, name), getattr(Pin, name): a constant of a vendor class *)
| GetAttr (cls : string) (attr : pyval) : ioE (outcome pyval)
(* machine.Pin *)
| PinNew (gpio : pyval) : ioE (outcome handle)
| PinWrite (p : handle) (level : Z) : ioE (outcome Z)
(* machine.UART *)
| UartNew (port baudrate bytesize parity stopbits flowctl : pyval)
    : ioE (outcome handle)
| UartSetCallback (u : handle) : ioE (outcome unit)
| UartAny (u : handle) : ioE (outcome Z)
| UartRead (u : handle) (nbytes : Z) : ioE (outcome bytes)
| UartWrite (u : handle) (data : bytes) : ioE (outcome Z)
(* usocket *)
| GetAddrInfo (host port : pyval) : ioE (outcome (list addrinfo))
| SocketNew : ioE (outcome handle)
| SockConnect (s : handle) (addr : string * Z) : ioE (outcome unit)
| SockSetTimeout (s : handle) (timeout : pyval) : ioE (outcome unit)
| SockSetKeepAlive (s : handle) (keep_alive : pyval) : ioE (outcome unit)
| SockSend (s : handle) (data : bytes) : ioE (outcome Z)
| SockRecv (s : handle) (bufsize : Z) : ioE (outcome bytes)
(* _thread, utime *)
| StartNewThread (f : thread_entry) : ioE (outcome thread_id)
| ThreadIsRunning (tid : thread_id) : ioE (outcome bool)
| SleepMs (ms : Z) : ioE (outcome unit)
(* log: logger.debug / info / error / critical never raise *)
| Log (level : log_level) (msg : pyval) : ioE unit.

(** ** Instance attributes of [Demo] (lines 63-73) *)

Record Demo := mkDemo {
  name : pyval;
  config : pyval;
  __uart : option handle;
  __sock : option handle;
  __led : handle;
  __led_blink_thread_id : option thread_id
}.

(** ** Programs: state of [self], exceptions, environment calls *)

Definition M (R : Type) : Type := Demo -> itree ioE (Demo * outcome R).

Definition ret {R} (r : R) : M R := fun self => Ret (self, Returned r).

Definition raise {R} (e : exn) : M R := fun self => Ret (self, Raised e).

Definition bind {A B} (m : M A) (k : A -> M B) : M B :=
  fun self =>
    ITree.bind (m self) (fun '(self', o) =>
      match o with
      | Returned a => k a self'
      | Raised e => Ret (self', Raised e)
      end).

(** [try: body / except Exception as e: handler e / else: orelse r].  An
    exception raised by [handler] or by [orelse] is not caught here. *)
Definition try_except_else {A B} (body : M A) (handler : exn -> M B)
    (orelse : A -> M B) : M B :=
  fun self =>
    ITree.bind (body self) (fun '(self', o) =>
      match o with
      | Returned a => orelse a self'
      | Raised e => handler e self'
      end).

Definition call {T} (e : ioE (outcome T)) : M T :=
  fun self => ITree.bind (ITree.trigger e) (fun o => Ret (self, o)).

Definition log (level : log_level) (msg : pyval) : M unit :=
  fun self => ITree.bind (ITree.trigger (Log level msg)) (fun _ => Ret (self, Returned tt)).

Definition lift {T} (o : outcome T) : M T := fun self => Ret (self, o).

Definition get {T} (f : Demo -> T) : M T := fun self => Ret (self, Returned (f self)).

Definition put (f : Demo -> Demo) : M unit := fun self => Ret (f self, Returned tt).

(** Loading a method of the object stored in an attribute: [None] has none
    of the methods the script asks for. *)
Definition method_of (attr : Demo -> option handle) (meth : string) : M handle :=
  fun self =>
    match attr self with
    | Some h => Ret (self, Returned h)
    | None => Ret (self, Raised (Exn AttributeError [VStr meth]))
    end.

Declare Scope py_scope.
Delimit Scope py_scope with py.
Notation "x <- m ;; k" := (bind m (fun x => k))
  (at level 61, m at next level, right associativity) : py_scope.
Notation "m ;; k" := (bind m (fun _ => k))
  (at level 61, right associativity) : py_scope.
Local Open Scope py_scope.

(** Control leaving the body of a [while True] loop. *)
Variant loop_ctl := Continue | Break.

(** One pass of [while True: body], and whether to go round again. *)
Definition loop_ctl_result (x : Demo * outcome loop_ctl) : Demo + Demo * outcome unit :=
  match x with
  | (self', Returned Continue) => inl self'
  | (self', Returned Break) => inr (self', Returned tt)
  | (self', Raised e) => inr (self', Raised e)
  end.

Definition loop_step (body : M loop_ctl) (self : Demo)
  : itree ioE (Demo + Demo * outcome unit) :=
  ITree.bind (body self) (fun x => Ret (loop_ctl_result x)).

Definition while_true (body : M loop_ctl) : M unit :=
  ITree.iter (loop_step body).

(** [while cond(s): s = body(s)] over the local variables [s]; the body has
    no [break] or [continue]. *)
Definition while_cond {S} (cond : S -> bool) (body : S -> M S) (s0 : S) : M S :=
  fun self =>
    ITree.iter (fun '(self, s) =>
      if cond s then
        ITree.bind (body s self) (fun '(self', o) =>
          match o with
          | Returned s' => Ret (inl (self', s'))
          | Raised e => Ret (inr (self', Raised e))
          end)
      else Ret (inr (self, Returned s))) (self, s0).

(** ** class Demo *)

(** [self.config[group][key]] *)
Definition config_get (group key : string) : M pyval :=
  c <- get config ;;
  g <- lift (getitem c group) ;;
  lift (getitem g key).

(** ['Demo(name="{}")'.format(self.name)] (line 76) *)
Definition Demo_str (self : Demo) : pyval :=
  let quote := String (ascii_of_nat 34) EmptyString in
  VFormat ("Demo(name=" ++ quote ++ "{}" ++ quote ++ ")")%string [name self].

(** [Demo.__init__] (lines 63-73): [config or DEMO_CONFIG], then
    [Pin(getattr(Pin, 'GPIO{}'.format(config['LED']['GPIOn'])), Pin.OUT,
    Pin.PULL_PD, 0)]. *)
Definition Demo_init (name : pyval) (config : option pyval)
  : itree ioE (outcome Demo) :=
  let config :=
    match config with
    | Some c => if truthy c then c else DEMO_CONFIG
    | None => DEMO_CONFIG
    end in
  match getitem config "LED" with
  | Raised e => Ret (Raised e)
  | Returned led =>
      match getitem led "GPIOn" with
      | Raised e => Ret (Raised e)
      | Returned gpio_n =>
          ITree.bind (ITree.trigger (GetAttr "Pin" (VFormat "GPIO{}" [gpio_n]))) (fun o =>
            match o with
            | Raised e => Ret (Raised e)
            | Returned gpio =>
                ITree.bind (ITree.trigger (PinNew gpio)) (fun o =>
                  match o with
                  | Raised e => Ret (Raised e)
                  | Returned p => Ret (Returned (mkDemo name config None None p None))
                  end)
            end)
      end
  end.

(** [Demo.blink] (lines 171-190): the worker is started unless a thread
    identifier is stored, is truthy, and names a running thread. *)
Definition blink (on_remaining off_remaining count : Z) : M unit :=
  tid <- get __led_blink_thread_id ;;
  running <- match tid with
             | None => ret false
             | Some t => if t =? 0 then ret false else call (ThreadIsRunning t)
             end ;;
  if running : bool then
    (* avoid repeating *)
    ret tt
  else
    t <- call (StartNewThread (led_blink_thread_entry on_remaining off_remaining count)) ;;
    put (fun self => mkDemo (name self) (config self) (__uart self) (__sock self)
                            (__led self) (Some t)).

(** The function [blink] starts (lines 177-184). *)
Definition led_blink_thread_worker (on_remaining off_remaining count : Z) : M Z :=
  while_cond (fun count => count >? 0)
    (fun count =>
       led <- get __led ;;
       call (PinWrite led 1) ;;  (* on led *)
       call (SleepMs on_remaining) ;;
       led <- get __led ;;
       call (PinWrite led 0) ;;  (* off led *)
       call (SleepMs off_remaining) ;;
       ret (count - 1))
    count.

(** [Demo.__uart_cb] (lines 78-100); [args] is not used. *)
Definition __uart_cb (args : pyval) : M unit :=
  (* get unread data size *)
  uart <- method_of __uart "any" ;;
  unread_data_size <- call (UartAny uart) ;;
  (* read all data as possible *)
  uart <- method_of __uart "read" ;;
  data <- call (UartRead uart unread_data_size) ;;
  log DEBUG (VFormat "read data from serial: {}" [VBytes data]) ;;
  try_except_else
    (sock <- method_of __sock "send" ;;
     call (SockSend sock data))
    (fun e =>
       log ERROR (VFormat "send data to cloud failed! pls check your connection. error: {}"
                          [VExn e]))
    (fun length =>
       blink 50 50 20 ;;
       log DEBUG (VFormat "send data to cloud successfully, actual sent bytes size: {}"
                          [VInt length])).

(** [Demo.open_serial] (lines 102-118) *)
Definition open_serial : M unit :=
  try_except_else
    (port <- config_get "UART" "port" ;;
     port <- call (GetAttr "UART" (VFormat "UART{}" [port])) ;;
     baudrate <- config_get "UART" "baudrate" ;;
     bytesize <- config_get "UART" "bytesize" ;;
     parity <- config_get "UART" "parity" ;;
     stopbits <- config_get "UART" "stopbits" ;;
     flowctl <- config_get "UART" "flowctl" ;;
     uart <- call (UartNew port baudrate bytesize parity stopbits flowctl) ;;
     put (fun self => mkDemo (name self) (config self) (Some uart) (__sock self)
                             (__led self) (__led_blink_thread_id self)) ;;
     uart <- method_of __uart "set_callback" ;;
     call (UartSetCallback uart))  (* register UART callback *)
    (fun e => log ERROR (VFormat "open serial failed: {}" [VExn e]))
    (fun _ => log INFO (VStr "open serial successfully.")).

(** [e.args[0]] *)
Definition args_0 (e : exn) : outcome pyval :=
  match exn_args e with
  | a :: _ => Returned a
  | [] => Raised (Exn IndexError [])
  end.

Definition isinstance_OSError (e : exn) : bool :=
  match exn_cls e with
  | OSError => true
  | _ => false
  end.

(** [v == 110] *)
Definition eq_110 (v : pyval) : bool :=
  match v with
  | VInt z => z =? 110
  | VBool _ | VNone | VStr _ | VBytes _ | VDict _ | VExc _ _ | VFormat _ _ => false
  end.

(** One pass through the body of [while True] in
    [Demo.__sock_recv_thread_worker] (lines 122-142). *)
Definition sock_recv_iteration : M loop_ctl :=
  try_except_else
    (sock <- method_of __sock "recv" ;;
     data <- call (SockRecv sock 1024) ;;
     log DEBUG (VFormat "read data from socket: {}" [VBytes data]) ;;
     try_except_else
       (uart <- method_of __uart "write" ;;
        call (UartWrite uart data))
       (fun e =>
          log ERROR (VFormat "send data to serial failed! pls check serial port status. error: {}"
                             [VExn e]))
       (fun length =>
          log DEBUG (VFormat "send data to serial successfully, actual sent bytes size: {}"
                             [VInt length])))
    (fun e =>
       is_timeout <- (if isinstance_OSError e
                      then a <- lift (args_0 e) ;; ret (eq_110 a)
                      else ret false) ;;
       if is_timeout : bool then
         (* read timeout. *)
         ret Continue
       else
         log CRITICAL (VFormat "socket read failed! error: {}; recv thread has broken!"
                               [VExn e]) ;;
         ret Break)
    (fun _ => ret Continue).

(** [Demo.__sock_recv_thread_worker] (lines 120-142) *)
Definition __sock_recv_thread_worker : M unit :=
  while_true sock_recv_iteration.

(** [Demo.connect_cloud] (lines 144-169) *)
Definition connect_cloud : M unit :=
  try_except_else
    ((* read server configure *)
     host <- config_get "SERVER" "host" ;;
     port <- config_get "SERVER" "port" ;;
     timeout <- config_get "SERVER" "timeout" ;;
     keep_alive <- config_get "SERVER" "keep_alive" ;;
     (* we parse the domain name of DNS. *)
     rv <- call (GetAddrInfo host port) ;;
     match rv with
     | [] => raise (Exn ValueError [VFormat "DNS detect error for addr: {},{}" [host; port]])
     | rv_0 :: _ =>
         let '(ip, port) := ai_sockaddr rv_0 in
         (* tcp socket creating flow *)
         sock <- call SocketNew ;;
         put (fun self => mkDemo (name self) (config self) (__uart self) (Some sock)
                                 (__led self) (__led_blink_thread_id self)) ;;
         sock <- method_of __sock "connect" ;;
         call (SockConnect sock (ip, port)) ;;
         sock <- method_of __sock "settimeout" ;;
         call (SockSetTimeout sock timeout) ;;
         sock <- method_of __sock "setsockopt" ;;
         call (SockSetKeepAlive sock keep_alive)
     end)
    (fun e => log ERROR (VFormat "connect cloud failed: {}" [VExn e]))
    (fun _ =>
       call (StartNewThread sock_recv_thread_entry) ;;
       log INFO (VStr "connect cloud successfully.")).

(** [Demo.run] (lines 192-195) *)
Definition run : M unit :=
  self <- get (fun self => self) ;;
  log INFO (VFormat "{} run..." [Demo_str self]) ;;
  open_serial ;;
  connect_cloud.

(** ** Running a program against an environment *)

(** One call observed in a run: the event and what the environment answered. *)
Record io_step := Step {
  step_ty : Type;
  step_ev : ioE step_ty;
  step_ans : step_ty
}.

Arguments Step {step_ty} step_ev step_ans.

Definition trace := list io_step.

(** An environment is any state [W] with a total, deterministic answer to
    every call. *)
Definition handler (W : Type) : Type := forall T, ioE T -> W -> T * W.

(** What has been observed of a run: the calls so far, the environment state
    reached, and the result once the program has returned. *)
Record observation (W R : Type) := Obs {
  obs_trace : trace;
  obs_world : W;
  obs_result : option R
}.
Arguments Obs {W R} obs_trace obs_world obs_result.
Arguments obs_trace {W R} o.
Arguments obs_world {W R} o.
Arguments obs_result {W R} o.

Definition obs_cons {W R} (st : io_step) (o : observation W R) : observation W R :=
  Obs (st :: obs_trace o) (obs_world o) (obs_result o).

(** The calls [tr], then the run [o]. *)
Definition obs_app {W R} (tr : trace) (o : observation W R) : observation W R :=
  Obs (tr ++ obs_trace o) (obs_world o) (obs_result o).

(** [execute h fuel t w] follows [t] for at most [fuel] nodes. *)
Fixpoint execute {W R} (h : handler W) (fuel : nat) (t : itree ioE R) (w : W)
  : observation W R :=
  match fuel with
  | O => Obs [] w None
  | S fuel' =>
      match observe t with
      | RetF r => Obs [] w (Some r)
      | TauF t' => execute h fuel' t' w
      | VisF e k =>
          let '(a, w') := h _ e w in
          obs_cons (Step e a) (execute h fuel' (k a) w')
      end
  end.

Arguments execute : simpl never.

(** A run that has returned. *)
Definition finished {W R} (o : observation W R) : bool :=
  match obs_result o with
  | Some _ => true
  | None => false
  end.

(** What can be observed of [ITree.iter body i]: whole passes through [body]
    that ask for another pass, then a pass that is cut short or stops. *)
Inductive iter_obs {W I R} (h : handler W) (body : I -> itree ioE (I + R))
  : I -> W -> trace -> W -> option R -> Prop :=
| iter_cut i w f tr w' :
    execute h f (body i) w = Obs tr w' None ->
    iter_obs h body i w tr w' None
| iter_stop i w f tr w' r :
    execute h f (body i) w = Obs tr w' (Some (inr r)) ->
    iter_obs h body i w tr w' (Some r)
| iter_next i w f tr1 w1 i' tr2 w' r :
    execute h f (body i) w = Obs tr1 w1 (Some (inl i')) ->
    iter_obs h body i' w1 tr2 w' r ->
    iter_obs h body i w (tr1 ++ tr2) w' r.

(** ** Reading traces *)

(** The arguments of the calls of one kind, in the order they were made. *)
Definition sock_sends (tr : trace) : list (handle * bytes) :=
  flat_map (fun st =>
    match step_ev st with
    | SockSend s data => [(s, data)]
    | _ => []
    end) tr.

Definition uart_writes (tr : trace) : list (handle * bytes) :=
  flat_map (fun st =>
    match step_ev st with
    | UartWrite u data => [(u, data)]
    | _ => []
    end) tr.

Definition sock_recvs (tr : trace) : list (handle * Z) :=
  flat_map (fun st =>
    match step_ev st with
    | SockRecv s bufsize => [(s, bufsize)]
    | _ => []
    end) tr.

Definition start_new_thread_calls (tr : trace) : list thread_entry :=
  flat_map (fun st =>
    match step_ev st with
    | StartNewThread f => [f]
    | _ => []
    end) tr.

Definition uart_reads (tr : trace) : list (handle * Z) :=
  flat_map (fun st =>
    match step_ev st with
    | UartRead u nbytes => [(u, nbytes)]
    | _ => []
    end) tr.

(** The calls into [_thread]. *)
Definition thread_calls (tr : trace) : trace :=
  filter (fun st =>
    match step_ev st with
    | StartNewThread _ | ThreadIsRunning _ => true
    | _ => false
    end) tr.

Definition logged (tr : trace) : list (log_level * pyval) :=
  flat_map (fun st =>
    match step_ev st with
    | Log level msg => [(level, msg)]
    | _ => []
    end) tr.

(** What the environment answered to the calls of one kind. *)
Definition uart_read_answer (st : io_step) : list (outcome bytes) :=
  match st with
  | Step e a =>
      match e in ioE T return T -> list (outcome bytes) with
      | UartRead _ _ => fun a => [a]
      | _ => fun _ => []
      end a
  end.

Definition uart_any_answer (st : io_step) : list (outcome Z) :=
  match st with
  | Step e a =>
      match e in ioE T return T -> list (outcome Z) with
      | UartAny _ => fun a => [a]
      | _ => fun _ => []
      end a
  end.

Definition sock_send_answer (st : io_step) : list (outcome Z) :=
  match st with
  | Step e a =>
      match e in ioE T return T -> list (outcome Z) with
      | SockSend _ _ => fun a => [a]
      | _ => fun _ => []
      end a
  end.

Definition sock_recv_answer (st : io_step) : list (outcome bytes) :=
  match st with
  | Step e a =>
      match e in ioE T return T -> list (outcome bytes) with
      | SockRecv _ _ => fun a => [a]
      | _ => fun _ => []
      end a
  end.

Definition getaddrinfo_answer (st : io_step) : list (outcome (list addrinfo)) :=
  match st with
  | Step e a =>
      match e in ioE T return T -> list (outcome (list addrinfo)) with
      | GetAddrInfo _ _ => fun a => [a]
      | _ => fun _ => []
      end a
  end.

Definition socket_new_answer (st : io_step) : list (outcome handle) :=
  match st with
  | Step e a =>
      match e in ioE T return T -> list (outcome handle) with
      | SocketNew => fun a => [a]
      | _ => fun _ => []
      end a
  end.

Definition sock_connect_answer (st : io_step) : list (outcome unit) :=
  match st with
  | Step e a =>
      match e in ioE T return T -> list (outcome unit) with
      | SockConnect _ _ => fun a => [a]
      | _ => fun _ => []
      end a
  end.

Definition sock_settimeout_answer (st : io_step) : list (outcome unit) :=
  match st with
  | Step e a =>
      match e in ioE T return T -> list (outcome unit) with
      | SockSetTimeout _ _ => fun a => [a]
      | _ => fun _ => []
      end a
  end.

Definition sock_setkeepalive_answer (st : io_step) : list (outcome unit) :=
  match st with
  | Step e a =>
      match e in ioE T return T -> list (outcome unit) with
      | SockSetKeepAlive _ _ => fun a => [a]
      | _ => fun _ => []
      end a
  end.

Definition uart_read_answers (tr : trace) := flat_map uart_read_answer tr.
Definition uart_any_answers (tr : trace) := flat_map uart_any_answer tr.
Definition sock_send_answers (tr : trace) := flat_map sock_send_answer tr.
Definition sock_recv_answers (tr : trace) := flat_map sock_recv_answer tr.
Definition getaddrinfo_answers (tr : trace) := flat_map getaddrinfo_answer tr.
Definition socket_new_answers (tr : trace) := flat_map socket_new_answer tr.
Definition sock_connect_answers (tr : trace) := flat_map sock_connect_answer tr.
Definition sock_settimeout_answers (tr : trace) := flat_map sock_settimeout_answer tr.
Definition sock_setkeepalive_answers (tr : trace) := flat_map sock_setkeepalive_answer tr.

(** ** Receive outcomes of the reader *)

(** The errors the reader treats as a read timeout:
    [isinstance(e, OSError) and e.args[0] == 110].  An [OSError] with empty
    [args] is not one: evaluating [e.args[0]] raises [IndexError]. *)
Definition timeout_class (e : exn) : bool :=
  isinstance_OSError e &&
  match exn_args e with
  | a :: _ => eq_110 a
  | [] => false
  end.

(** A receive outcome after which the reader does not go round again. *)
Definition fatal (a : outcome bytes) : bool :=
  match a with
  | Returned _ => false
  | Raised e => negb (timeout_class e)
  end.

(** Only the last of [answers] may be fatal. *)
Fixpoint only_last_fatal (answers : list (outcome bytes)) : Prop :=
  match answers with
  | [] => True
  | a :: rest =>
      match rest with
      | [] => True
      | _ :: _ => fatal a = false /\ only_last_fatal rest
      end
  end.

(** The data of the receives that returned. *)
Definition returned_data (answers : list (outcome bytes)) : list bytes :=
  flat_map (fun a => match a with Returned b => [b] | Raised _ => [] end) answers.

(** ** A simulated module

    One concrete environment: a UART with a receive buffer, a name resolver
    with a fixed answer, a TCP peer that is reachable or not and whose
    replies are scripted, and a thread table. *)

Record board := mkBoard {
  uart_rx : bytes;                              (* unread bytes in the UART *)
  uart_tx : list bytes;                         (* writes to the UART, latest first *)
  dns : list addrinfo;                          (* what getaddrinfo returns *)
  link_up : bool;                               (* connect and send succeed *)
  sock_rx : list (outcome bytes);               (* what the next recv calls give *)
  sock_tx : list bytes;                         (* sends, latest first *)
  threads : list (thread_id * thread_entry);    (* running threads *)
  next_tid : thread_id                          (* next identifier handed out *)
}.

Definition ETIMEDOUT : Z := 110.
Definition ECONNRESET : Z := 104.
Definition EHOSTUNREACH : Z := 113.

Definition thread_is_running (tid : thread_id) (b : board) : bool :=
  existsb (fun t => fst t =? tid) (threads b).

Definition board_handler : handler board :=
  fun T e =>
    match e in ioE T return board -> T * board with
    | GetAttr _ attr => fun b => (Returned attr, b)
    | PinNew _ => fun b => (Returned 2%nat, b)
    | PinWrite _ _ => fun b => (Returned 0, b)
    | UartNew _ _ _ _ _ _ => fun b => (Returned 0%nat, b)
    | UartSetCallback _ => fun b => (Returned tt, b)
    | UartAny _ => fun b => (Returned (Z.of_nat (List.length (uart_rx b))), b)
    | UartRead _ nbytes => fun b =>
        (Returned (firstn (Z.to_nat nbytes) (uart_rx b)),
         mkBoard (skipn (Z.to_nat nbytes) (uart_rx b)) (uart_tx b) (dns b)
                 (link_up b) (sock_rx b) (sock_tx b) (threads b) (next_tid b))
    | UartWrite _ data => fun b =>
        (Returned (Z.of_nat (List.length data)),
         mkBoard (uart_rx b) (data :: uart_tx b) (dns b)
                 (link_up b) (sock_rx b) (sock_tx b) (threads b) (next_tid b))
    | GetAddrInfo _ _ => fun b => (Returned (dns b), b)
    | SocketNew => fun b => (Returned 1%nat, b)
    | SockConnect _ _ => fun b =>
        (if link_up b then Returned tt else Raised (Exn OSError [VInt EHOSTUNREACH]), b)
    | SockSetTimeout _ _ => fun b => (Returned tt, b)
    | SockSetKeepAlive _ _ => fun b => (Returned tt, b)
    | SockSend _ data => fun b =>
        if link_up b
        then (Returned (Z.of_nat (List.length data)),
              mkBoard (uart_rx b) (uart_tx b) (dns b)
                      (link_up b) (sock_rx b) (data :: sock_tx b) (threads b) (next_tid b))
        else (Raised (Exn OSError [VInt ECONNRESET]), b)
    | SockRecv _ _ => fun b =>
        match sock_rx b with
        | [] => (Raised (Exn OSError [VInt ETIMEDOUT]), b)
        | a :: rest =>
            (a, mkBoard (uart_rx b) (uart_tx b) (dns b)
                        (link_up b) rest (sock_tx b) (threads b) (next_tid b))
        end
    | StartNewThread f => fun b =>
        (Returned (next_tid b),
         mkBoard (uart_rx b) (uart_tx b) (dns b)
                 (link_up b) (sock_rx b) (sock_tx b)
                 ((next_tid b, f) :: threads b) (next_tid b + 1))
    | ThreadIsRunning tid => fun b => (Returned (thread_is_running tid b), b)
    | SleepMs _ => fun b => (Returned tt, b)
    | Log _ _ => fun b => (tt, b)
    end.

(** A module just powered on, with [rx] waiting in the UART, [replies]
    scripted for the peer and the server resolving to one address. *)
Definition board_on (rx : bytes) (up : bool) (replies : list (outcome bytes)) : board :=
  mkBoard rx [] [AddrInfo 2 1 0 "" ("220.180.239.212", 8305)] up replies [] [] 1.

(** The object [Demo('Quectel')] builds on the simulated module, and the
    same object once a UART and a socket are stored in it. *)
Definition demo_fresh : Demo :=
  mkDemo (VStr "Quectel") DEMO_CONFIG None None 2%nat None.

Definition demo_wired : Demo :=
  mkDemo (VStr "Quectel") DEMO_CONFIG (Some 0%nat) (Some 1%nat) 2%nat None.

(** The message [__uart_cb] logs after a successful send (line 100). *)
Definition sent (length : Z) : pyval :=
  VFormat "send data to cloud successfully, actual sent bytes size: {}" [VInt length].

(** [b"hello"] *)
Definition hello : bytes := [Byte.x68; Byte.x65; Byte.x6c; Byte.x6c; Byte.x6f].

(** No method makes more than this many calls. *)
Definition budget : nat := 16.

(** ** The module as a whole

    The object, the simulated module around it, and what can happen next.
    Each event runs to its end before the next one starts: [blink] is only
    called from [__uart_cb], and the notifications of one UART are taken to
    be delivered one at a time. *)

Record system := mkSystem {
  sys_demo : Demo;
  sys_board : board
}.

Variant sys_event :=
| Run                                   (* [demo.run()] *)
| UartData (data : bytes)               (* bytes arrive; the driver calls [__uart_cb] *)
| BlinkRequest (on_remaining off_remaining count : Z)   (* [blink] is called *)
| ReaderPass                            (* the reader thread, if any, goes round once *)
| ThreadExit (tid : thread_id)          (* a thread reaches the end of its function *)
| PeerData (reply : outcome bytes)      (* the peer's next reply, or a socket error *)
| LinkChange (up : bool).               (* the peer becomes reachable or not *)

(** Run one method of the object to its end on the simulated module. *)
Definition run_method {R} (m : M R) (s : system) : system * option (outcome R) :=
  let o := execute board_handler budget (m (sys_demo s)) (sys_board s) in
  match obs_result o with
  | Some (self', r) => (mkSystem self' (obs_world o), Some r)
  | None => (s, None)
  end.

Definition is_reader (t : thread_id * thread_entry) : bool :=
  match snd t with
  | sock_recv_thread_entry => true
  | led_blink_thread_entry _ _ _ => false
  end.

Definition is_blink (t : thread_id * thread_entry) : bool :=
  match snd t with
  | sock_recv_thread_entry => false
  | led_blink_thread_entry _ _ _ => true
  end.

Definition set_threads (ts : list (thread_id * thread_entry)) (b : board) : board :=
  mkBoard (uart_rx b) (uart_tx b) (dns b) (link_up b) (sock_rx b) (sock_tx b)
          ts (next_tid b).

Definition sys_step (ev : sys_event) (s : system) : system :=
  let b := sys_board s in
  match ev with
  | Run => fst (run_method run s)
  | UartData data =>
      fst (run_method (__uart_cb VNone)
             (mkSystem (sys_demo s)
                (mkBoard (uart_rx b ++ data) (uart_tx b) (dns b) (link_up b)
                         (sock_rx b) (sock_tx b) (threads b) (next_tid b))))
  | BlinkRequest on_remaining off_remaining count =>
      fst (run_method (blink on_remaining off_remaining count) s)
  | ReaderPass =>
      if existsb is_reader (threads b) then
        match run_method sock_recv_iteration s with
        | (s', Some (Returned Continue)) => s'
        | (s', _) =>
            (* the worker function ends: its thread is gone *)
            mkSystem (sys_demo s')
              (set_threads (filter (fun t => negb (is_reader t)) (threads (sys_board s')))
                           (sys_board s'))
        end
      else s
  | ThreadExit tid =>
      mkSystem (sys_demo s)
        (set_threads (filter (fun t => negb (fst t =? tid)) (threads b)) b)
  | PeerData reply =>
      mkSystem (sys_demo s)
        (mkBoard (uart_rx b) (uart_tx b) (dns b) (link_up b)
                 (sock_rx b ++ [reply]) (sock_tx b) (threads b) (next_tid b))
  | LinkChange up =>
      mkSystem (sys_demo s)
        (mkBoard (uart_rx b) (uart_tx b) (dns b) up
                 (sock_rx b) (sock_tx b) (threads b) (next_tid b))
  end.

Definition sys_run (evs : list sys_event) (s : system) : system :=
  fold_left (fun s ev => sys_step ev s) evs s.

(** The LED blink tasks that are running. *)
Definition blink_tasks (s : system) : list (thread_id * thread_entry) :=
  filter is_blink (threads (sys_board s)).

(** A state in which nothing has been started yet. *)
Definition powered_on (s : system) : Prop :=
  __led_blink_thread_id (sys_demo s) = None /\
  threads (sys_board s) = [] /\
  0 < next_tid (sys_board s).

(** What is true of the stored identifier [tid], the thread table [ts] and
    the next identifier [next] in every state reached from there. *)
Definition table_ok (tid : option thread_id) (ts : list (thread_id * thread_entry))
    (next : thread_id) : Prop :=
  0 < next /\
  (forall t f, In (t, f) ts -> 0 < t < next) /\
  NoDup (List.map fst ts) /\
  (forall t f, In (t, f) ts -> is_blink (t, f) = true -> tid = Some t).

Definition threads_ok (s : system) : Prop :=
  table_ok (__led_blink_thread_id (sys_demo s)) (threads (sys_board s))
           (next_tid (sys_board s)).

(** The calls of [count] on/off cycles of the LED. *)
Definition blink_cycles (led : handle) (on_remaining off_remaining : Z) (count : nat) : trace :=
  List.concat (repeat [Step (PinWrite led 1) (Returned 0);
                  Step (SleepMs on_remaining) (Returned tt);
                  Step (PinWrite led 0) (Returned 0);
                  Step (SleepMs off_remaining) (Returned tt)] count).

(** ** The shape of the configuration *)

Definition is_int (v : pyval) : bool :=
  match v with
  | VInt _ => true
  | _ => false
  end.

Definition is_str (v : pyval) : bool :=
  match v with
  | VStr _ => true
  | _ => false
  end.

(** [UART] parity: 0 none, 1 even, 2 odd; flow control: 0 none, 1 hardware. *)
Definition is_parity (v : pyval) : bool :=
  match v with
  | VInt z => (0 <=? z) && (z <=? 2)
  | _ => false
  end.

Definition is_flowctl (v : pyval) : bool :=
  match v with
  | VInt z => (0 <=? z) && (z <=? 1)
  | _ => false
  end.

Definition field_is (p : pyval -> bool) (d : pyval) (k : string) : bool :=
  match getitem d k with
  | Returned v => p v
  | Raised _ => false
  end.

Definition uart_shape (u : pyval) : bool :=
  field_is is_int u "port" && field_is is_int u "baudrate" &&
  field_is is_int u "bytesize" && field_is is_parity u "parity" &&
  field_is is_int u "stopbits" && field_is is_flowctl u "flowctl".

Definition led_shape (l : pyval) : bool :=
  field_is is_int l "GPIOn".

(** The shape the specification declares, on the keys the script uses: the
    server group is [{host: string, port: int, timeout: int,
    keep_alive: int}]. *)
Definition declared_shape (c : pyval) : bool :=
  field_is (fun s => field_is is_str s "host" && field_is is_int s "port" &&
                     field_is is_int s "timeout" && field_is is_int s "keep_alive")
           c "SERVER" &&
  field_is uart_shape c "UART" &&
  field_is led_shape c "LED".

(** The shape the script's configuration has: the server port is a string. *)
Definition script_shape (c : pyval) : bool :=
  field_is (fun s => field_is is_str s "host" && field_is is_str s "port" &&
                     field_is is_int s "timeout" && field_is is_int s "keep_alive")
           c "SERVER" &&
  field_is uart_shape c "UART" &&
  field_is led_shape c "LED".

(** A run that leaves [self.config] as it was. *)
Definition keeps_config {W R} (self : Demo) (o : observation W (Demo * R)) : Prop :=
  forall self' r, obs_result o = Some (self', r) -> config self' = config self.

(** ** Further readers of traces, messages and states *)

Definition uart_new_answer (st : io_step) : list (outcome handle) :=
  match st with
  | Step e a =>
      match e in ioE T return T -> list (outcome handle) with
      | UartNew _ _ _ _ _ _ => fun a => [a]
      | _ => fun _ => []
      end a
  end.

Definition uart_set_callback_answer (st : io_step) : list (outcome unit) :=
  match st with
  | Step e a =>
      match e in ioE T return T -> list (outcome unit) with
      | UartSetCallback _ => fun a => [a]
      | _ => fun _ => []
      end a
  end.

Definition uart_new_answers (tr : trace) := flat_map uart_new_answer tr.
Definition uart_set_callback_answers (tr : trace) := flat_map uart_set_callback_answer tr.

(** The constants asked from the vendor classes, what was answered, and
    the arguments of the calls of [UART(...)]. *)
Definition getattrs (tr : trace) : list (string * pyval) :=
  flat_map (fun st =>
    match step_ev st with
    | GetAttr cls attr => [(cls, attr)]
    | _ => []
    end) tr.

Definition getattr_answer (st : io_step) : list (outcome pyval) :=
  match st with
  | Step e a =>
      match e in ioE T return T -> list (outcome pyval) with
      | GetAttr _ _ => fun a => [a]
      | _ => fun _ => []
      end a
  end.

Definition getattr_answers (tr : trace) := flat_map getattr_answer tr.

Definition uart_news (tr : trace)
  : list (pyval * pyval * pyval * pyval * pyval * pyval) :=
  flat_map (fun st =>
    match step_ev st with
    | UartNew port baudrate bytesize parity stopbits flowctl =>
        [(port, baudrate, bytesize, parity, stopbits, flowctl)]
    | _ => []
    end) tr.

(** The UARTs a callback was registered on. *)
Definition uart_set_callbacks (tr : trace) : list handle :=
  flat_map (fun st =>
    match step_ev st with
    | UartSetCallback u => [u]
    | _ => []
    end) tr.

(** [self] with another object in [__uart]. *)
Definition with_uart (self : Demo) (u : option handle) : Demo :=
  mkDemo (name self) (config self) u (__sock self) (__led self)
         (__led_blink_thread_id self).

(** The text [open_serial] logs for an exception (line 116). *)
Definition open_serial_failed (e : exn) : pyval :=
  VFormat "open serial failed: {}" [VExn e].

(** Whether [d[k]] can be read. *)
Definition has_key (d : pyval) (k : string) : bool :=
  match getitem d k with
  | Returned _ => true
  | Raised _ => false
  end.

(** Whether [c[group]] is a dict with all of [keys]. *)
Definition config_has (group : string) (keys : list string) (c : pyval) : bool :=
  match getitem c group with
  | Returned g => forallb (has_key g) keys
  | Raised _ => false
  end.

(** The keys [open_serial] and [connect_cloud] read. *)
Definition uart_keys : list string :=
  ["port"; "baudrate"; "bytesize"; "parity"; "stopbits"; "flowctl"].

Definition server_keys : list string :=
  ["host"; "port"; "timeout"; "keep_alive"].

(** What [start_new_thread] answered, and the arguments of the calls into
    [usocket]. *)
Definition start_new_thread_answer (st : io_step) : list (outcome thread_id) :=
  match st with
  | Step e a =>
      match e in ioE T return T -> list (outcome thread_id) with
      | StartNewThread _ => fun a => [a]
      | _ => fun _ => []
      end a
  end.

Definition start_new_thread_answers (tr : trace) := flat_map start_new_thread_answer tr.

Definition getaddrinfos (tr : trace) : list (pyval * pyval) :=
  flat_map (fun st =>
    match step_ev st with
    | GetAddrInfo host port => [(host, port)]
    | _ => []
    end) tr.

Definition sock_connects (tr : trace) : list (handle * (string * Z)) :=
  flat_map (fun st =>
    match step_ev st with
    | SockConnect s addr => [(s, addr)]
    | _ => []
    end) tr.

Definition sock_settimeouts (tr : trace) : list (handle * pyval) :=
  flat_map (fun st =>
    match step_ev st with
    | SockSetTimeout s timeout => [(s, timeout)]
    | _ => []
    end) tr.

Definition sock_setkeepalives (tr : trace) : list (handle * pyval) :=
  flat_map (fun st =>
    match step_ev st with
    | SockSetKeepAlive s keep_alive => [(s, keep_alive)]
    | _ => []
    end) tr.

(** The text [connect_cloud] logs for an exception (line 166). *)
Definition connect_cloud_failed (e : exn) : pyval :=
  VFormat "connect cloud failed: {}" [VExn e].

(** The text [run] logs first (line 193). *)
Definition run_message (self : Demo) : pyval :=
  VFormat "{} run..." [Demo_str self].

(** [self] with another identifier in [__led_blink_thread_id]. *)
Definition with_blink_thread (self : Demo) (t : option thread_id) : Demo :=
  mkDemo (name self) (config self) (__uart self) (__sock self) (__led self) t.

(** What [blink] leaves once [start_new_thread] has answered [a]. *)
Definition blink_started (self : Demo) (a : outcome thread_id) : Demo * outcome unit :=
  match a with
  | Returned t => (with_blink_thread self (Some t), Returned tt)
  | Raised e => (self, Raised e)
  end.

(** The writes to pins and the sleeps, in order. *)
Definition pin_writes (tr : trace) : list (handle * Z) :=
  flat_map (fun st =>
    match step_ev st with
    | PinWrite p level => [(p, level)]
    | _ => []
    end) tr.

Definition sleeps (tr : trace) : list Z :=
  flat_map (fun st =>
    match step_ev st with
    | SleepMs ms => [ms]
    | _ => []
    end) tr.

(** The pin writes and the sleeps of [n] on/off cycles. *)
Definition led_levels (led : handle) (n : nat) : list (handle * Z) :=
  List.concat (repeat [(led, 1); (led, 0)] n).

Definition sleep_times (on_remaining off_remaining : Z) (n : nat) : list Z :=
  List.concat (repeat [on_remaining; off_remaining] n).

(** What [write] answered. *)
Definition uart_write_answer (st : io_step) : list (outcome Z) :=
  match st with
  | Step e a =>
      match e in ioE T return T -> list (outcome Z) with
      | UartWrite _ _ => fun a => [a]
      | _ => fun _ => []
      end a
  end.

Definition uart_write_answers (tr : trace) := flat_map uart_write_answer tr.

(** The calls the reader makes: [recv], [write] and the logger. *)
Definition reader_call (st : io_step) : bool :=
  match step_ev st with
  | SockRecv _ _ | UartWrite _ _ | Log _ _ => true
  | _ => false
  end.

(** The texts the reader logs (lines 126, 133, 141). *)
Definition read_from_socket (data : bytes) : pyval :=
  VFormat "read data from socket: {}" [VBytes data].

Definition send_to_serial_failed (e : exn) : pyval :=
  VFormat "send data to serial failed! pls check serial port status. error: {}" [VExn e].

Definition recv_thread_broken (e : exn) : pyval :=
  VFormat "socket read failed! error: {}; recv thread has broken!" [VExn e].

(** The text [__uart_cb] logs for what it read (line 91). *)
Definition read_from_serial (data : bytes) : pyval :=
  VFormat "read data from serial: {}" [VBytes data].

(** A state in which [__uart_cb] relays: a UART and a socket are stored, the
    peer is reachable and nothing is waiting in the UART. *)
Definition relay_ready (s : system) : Prop :=
  (exists u, __uart (sys_demo s) = Some u) /\
  (exists k, __sock (sys_demo s) = Some k) /\
  link_up (sys_board s) = true /\
  uart_rx (sys_board s) = [].

(** The reader threads that are running. *)
Definition readers (s : system) : list (thread_id * thread_entry) :=
  filter is_reader (threads (sys_board s)).

(** The stored identifier was handed out, and if its thread is still in the
    table it is a blink task. *)
Definition stored_ok (tid : option thread_id) (ts : list (thread_id * thread_entry))
    (next : thread_id) : Prop :=
  forall t, tid = Some t ->
    t < next /\ forall f, In (t, f) ts -> is_blink (t, f) = true.

Definition blink_id_ok (s : system) : Prop :=
  threads_ok s /\
  stored_ok (__led_blink_thread_id (sys_demo s)) (threads (sys_board s))
            (next_tid (sys_board s)).

(** The simulated module with a [_thread] that cannot start threads. *)
Definition board_without_threads : handler board :=
  fun T e =>
    match e in ioE T return board -> T * board with
    | StartNewThread _ => fun b => (Raised (Exn OSError [VInt 12]), b)
    | e' => board_handler _ e'
    end.

(** ** The script's top level (lines 198-219)

    Besides the calls of [Demo], the top level calls [checkNet] and [print].
    [checkNet.waitNetworkReady()] answers with a pair of integers
    [(stage, state)]; [(3, 1)] means the network is ready. *)

Variant netE : Type -> Type :=
| CheckNetworkNew (project_name project_version : pyval) : netE (outcome handle)
| PoweronPrintOnce (checknet : handle) : netE (outcome unit)
| WaitNetworkReady : netE (outcome (Z * Z))
(* print(template.format(codes)) *)
| Print (template : string) (codes : Z * Z) : netE unit.

Definition mainE : Type -> Type := ioE +' netE.

(** [codes == (3, 1)] *)
Definition network_ready (codes : Z * Z) : bool :=
  (fst codes =? 3) && (snd codes =? 1).

(** One pass of [while True] at lines 210-216. *)
Definition wait_network_step (_ : unit) : itree mainE (unit + outcome unit) :=
  ITree.bind (ITree.trigger (inr1 WaitNetworkReady)) (fun o =>
    match o with
    | Raised e => Ret (inr (Raised e))
    | Returned codes =>
        if network_ready codes then
          ITree.bind (ITree.trigger (inl1 (Log INFO (VStr "network has been ready."))))
                     (fun _ => Ret (inr (Returned tt)))  (* break *)
        else
          ITree.bind (ITree.trigger
                        (inr1 (Print "network not ready, error code is {}." codes)))
                     (fun _ => Ret (inl tt))
    end).

(** What follows the loop: [demo.run()] (line 219). *)
Definition main_run (demo : Demo) (o : outcome unit) : itree mainE (outcome unit) :=
  match o with
  | Raised e => Ret (Raised e)
  | Returned _ =>
      ITree.bind (translate (@inl1 ioE netE) (run demo)) (fun x => Ret (snd x))
  end.

(** What follows [demo = Demo('Quectel')] (lines 202-219). *)
Definition main_after_init (o : outcome Demo) : itree mainE (outcome unit) :=
  match o with
  | Raised e => Ret (Raised e)
  | Returned demo =>
      (* poweron print once *)
      match getitem (config demo) "PROJECT_NAME" with
      | Raised e => Ret (Raised e)
      | Returned project_name =>
          match getitem (config demo) "PROJECT_VERSION" with
          | Raised e => Ret (Raised e)
          | Returned project_version =>
              ITree.bind (ITree.trigger
                            (inr1 (CheckNetworkNew project_name project_version)))
                (fun o =>
                   match o with
                   | Raised e => Ret (Raised e)
                   | Returned checknet =>
                       ITree.bind (ITree.trigger (inr1 (PoweronPrintOnce checknet)))
                         (fun o =>
                            match o with
                            | Raised e => Ret (Raised e)
                            | Returned _ =>
                                (* check network until ready *)
                                ITree.bind (ITree.iter wait_network_step tt)
                                           (* Demo application run forever *)
                                           (main_run demo)
                            end)
                   end)
          end
      end
  end.

(** The [__main__] block: an exception that nothing catches ends it. *)
Definition main : itree mainE (outcome unit) :=
  (* initialize Demo Object *)
  ITree.bind (translate (@inl1 ioE netE) (Demo_init (VStr "Quectel") None))
             main_after_init.

(** Running the top level: as [execute], over both kinds of calls. *)
Record main_step := MStep {
  mstep_ty : Type;
  mstep_ev : mainE mstep_ty;
  mstep_ans : mstep_ty
}.
Arguments MStep {mstep_ty} mstep_ev mstep_ans.

Definition main_handler (W : Type) : Type := forall T, mainE T -> W -> T * W.

Record main_observation (W R : Type) := MObs {
  mobs_trace : list main_step;
  mobs_world : W;
  mobs_result : option R
}.
Arguments MObs {W R} mobs_trace mobs_world mobs_result.
Arguments mobs_trace {W R} m.
Arguments mobs_world {W R} m.
Arguments mobs_result {W R} m.

Definition mobs_cons {W R} (st : main_step) (o : main_observation W R)
  : main_observation W R :=
  MObs (st :: mobs_trace o) (mobs_world o) (mobs_result o).

Fixpoint execute_main {W R} (h : main_handler W) (fuel : nat) (t : itree mainE R) (w : W)
  : main_observation W R :=
  match fuel with
  | O => MObs [] w None
  | S fuel' =>
      match observe t with
      | RetF r => MObs [] w (Some r)
      | TauF t' => execute_main h fuel' t' w
      | VisF e k =>
          let '(a, w') := h _ e w in
          mobs_cons (MStep e a) (execute_main h fuel' (k a) w')
      end
  end.

Arguments execute_main : simpl never.

(** What [waitNetworkReady] answered, call by call. *)
Definition wait_answer (st : main_step) : list (outcome (Z * Z)) :=
  match st with
  | MStep e a =>
      match e with
      | inr1 e' =>
          match e' in netE T return T -> list (outcome (Z * Z)) with
          | WaitNetworkReady => fun a => [a]
          | _ => fun _ => []
          end a
      | inl1 _ => []
      end
  end.

Definition wait_answers (tr : list main_step) := flat_map wait_answer tr.

Definition ready_answer (a : outcome (Z * Z)) : bool :=
  match a with
  | Returned codes => network_ready codes
  | Raised _ => false
  end.

(** The codes printed as not ready. *)
Definition printed_codes (tr : list main_step) : list (Z * Z) :=
  flat_map (fun st =>
    match mstep_ev st with
    | inr1 (Print _ codes) => [codes]
    | _ => []
    end) tr.

(** The calls made before [demo.run()]: those of the constructor
    ([getattr(Pin, ...)] and [Pin(...)]), of [checkNet] and of [print]. *)
Definition before_run_call (st : main_step) : bool :=
  match mstep_ev st with
  | inl1 (GetAttr cls _) => String.eqb cls "Pin"
  | inl1 (PinNew _) => true
  | inl1 _ => false
  | inr1 _ => true
  end.

(** The calls [tr], then the run [o]. *)
Definition mobs_app {W R} (tr : list main_step) (o : main_observation W R)
  : main_observation W R :=
  MObs (tr ++ mobs_trace o) (mobs_world o) (mobs_result o).

(** The environment of the top level, as the methods of [Demo] see it, and
    a call of a method as a call of the top level. *)
Definition io_part {W} (h : main_handler W) : handler W :=
  fun T e => h T (inl1 e).

Definition lift_step (st : io_step) : main_step :=
  MStep (inl1 (step_ev st)) (step_ans st).

(** An answer of [waitNetworkReady] after which the loop goes round again. *)
Definition keeps_waiting (a : outcome (Z * Z)) : bool :=
  match a with
  | Returned codes => negb (network_ready codes)
  | Raised _ => false
  end.

(** Only the last of [answers] may end the wait. *)
Fixpoint only_last_ends_wait (answers : list (outcome (Z * Z))) : Prop :=
  match answers with
  | [] => True
  | a :: rest =>
      match rest with
      | [] => True
      | _ :: _ => keeps_waiting a = true /\ only_last_ends_wait rest
      end
  end.

(** The codes among [answers] that are not [(3, 1)]. *)
Definition not_ready_codes (answers : list (outcome (Z * Z))) : list (Z * Z) :=
  flat_map (fun a =>
    match a with
    | Returned codes => if network_ready codes then [] else [codes]
    | Raised _ => []
    end) answers.

(** The calls of the wait loop: [waitNetworkReady], [print] and the logger. *)
Definition wait_call (st : main_step) : bool :=
  match mstep_ev st with
  | inr1 WaitNetworkReady | inr1 (Print _ _) | inl1 (Log _ _) => true
  | _ => false
  end.

(** What the top level observes of a method that ran to [o]. *)
Definition lift_obs {W A B} (g : A -> B) (o : observation W A) : main_observation W B :=
  MObs (List.map lift_step (obs_trace o)) (obs_world o) (option_map g (obs_result o)).

(** The object [Demo('Quectel')] builds when [Pin(...)] returns [led]. *)
Definition demo_with_led (led : handle) : Demo :=
  mkDemo (VStr "Quectel") DEMO_CONFIG None None led None.

(** The calls of the top level before [demo.run()]. *)
Definition top_level_call (st : main_step) : bool :=
  before_run_call st || wait_call st.

(** The simulated module with a network that reports the scripted codes
    and then [(3, 1)]. *)
Definition station : Type := board * list (Z * Z).

Definition station_handler : main_handler station :=
  fun T e =>
    match e with
    | inl1 e' => fun s =>
        let '(a, b) := board_handler _ e' (fst s) in (a, (b, snd s))
    | inr1 e' =>
        match e' in netE T return station -> T * station with
        | CheckNetworkNew _ _ => fun s => (Returned 3%nat, s)
        | PoweronPrintOnce _ => fun s => (Returned tt, s)
        | WaitNetworkReady => fun s =>
            match snd s with
            | [] => (Returned (3, 1), s)
            | codes :: rest => (Returned codes, (fst s, rest))
            end
        | Print _ _ => fun s => (tt, s)
        end
    end.

(** ** Facts about [execute] *)

Section Execute.
Context {W : Type} (h : handler W).

Lemma execute_S {R} f (t : itree ioE R) w :
  execute h (S f) t w =
  match observe t with
  | RetF r => Obs [] w (Some r)
  | TauF t' => execute h f t' w
  | VisF e k =>
      let '(a, w') := h _ e w in
      obs_cons (Step e a) (execute h f (k a) w')
  end.
Proof. reflexivity. Qed.

Lemma execute_0 {R} (t : itree ioE R) w : execute h 0 t w = Obs [] w None.
Proof. reflexivity. Qed.

Lemma obs_cons_app {R} st tr (o : observation W R) :
  obs_cons st (obs_app tr o) = obs_app (st :: tr) o.
Proof. reflexivity. Qed.

Lemma obs_app_nil {R} (o : observation W R) : obs_app [] o = o.
Proof. destruct o; reflexivity. Qed.

(** Once a run has returned, more fuel changes nothing. *)
Lemma execute_mono {R} f f' (t : itree ioE R) w tr w' r :
  execute h f t w = Obs tr w' (Some r) ->
  (f <= f')%nat ->
  execute h f' t w = Obs tr w' (Some r).
Proof.
  revert f' t w tr w'.
  induction f as [|f IH]; intros f' t w tr w' E Hle.
  - discriminate E.
  - destruct f' as [|f']; [lia|].
    rewrite execute_S in *.
    destruct (observe t) as [r0|t'|T e k].
    + exact E.
    + apply IH; [exact E | lia].
    + destruct (h T e w) as [a w1].
      destruct (execute h f (k a) w1) as [tr1 w2 [r1|]] eqn:E1;
        unfold obs_cons in E; cbn in E; inversion E; subst.
      rewrite (IH f' (k a) w1 tr1 w' E1); [reflexivity | lia].
Qed.

(** More fuel only extends what has been observed. *)
Lemma execute_prefix {R} f f' (t : itree ioE R) w :
  (f <= f')%nat ->
  exists post,
    obs_trace (execute h f' t w) = obs_trace (execute h f t w) ++ post.
Proof.
  revert f' t w.
  induction f as [|f IH]; intros f' t w Hle.
  - eexists. reflexivity.
  - destruct f' as [|f']; [lia|].
    rewrite !execute_S.
    destruct (observe t) as [r0|t'|T e k].
    + exists []. reflexivity.
    + apply IH. lia.
    + destruct (h T e w) as [a w1].
      destruct (IH f' (k a) w1) as [post E]; [lia|].
      exists post. cbn. rewrite E. reflexivity.
Qed.

(** A run of [ITree.bind m k] is a run of [m], cut short or followed by a
    run of [k]. *)
Lemma execute_bind_inv {A B} f (m : itree ioE A) (k : A -> itree ioE B) w :
  (exists tr w',
      execute h f m w = Obs tr w' None /\
      execute h f (ITree.bind m k) w = Obs tr w' None) \/
  (exists f2 tr1 w1 a,
      (1 <= f2 <= f)%nat /\
      execute h f m w = Obs tr1 w1 (Some a) /\
      execute h f (ITree.bind m k) w = obs_app tr1 (execute h f2 (k a) w1)).
Proof.
  revert m w.
  induction f as [|f IH]; intros m w.
  - left. exists [], w. split; reflexivity.
  - rewrite !execute_S, observe_bind.
    destruct (observe m) as [a|m'|T e k'] eqn:Em; cbn.
    + right. exists (S f), [], w, a.
      split; [lia|]. split; [reflexivity|].
      rewrite obs_app_nil, execute_S. reflexivity.
    + destruct (IH m' w) as [(tr & w' & E1 & E2) | (f2 & tr1 & w1 & a & Hle & E1 & E2)].
      * left. exists tr, w'. split; assumption.
      * right. exists f2, tr1, w1, a. split; [lia|]. split; assumption.
    + destruct (h T e w) as [a' w1].
      destruct (IH (k' a') w1) as [(tr & w' & E1 & E2) | (f2 & tr1 & w1' & a & Hle & E1 & E2)].
      * left. exists (Step e a' :: tr), w'. rewrite E1, E2. split; reflexivity.
      * right. exists f2, (Step e a' :: tr1), w1', a.
        split; [lia|]. rewrite E1, E2. split; reflexivity.
Qed.

(** Two runs that return compose into a run of the [ITree.bind]. *)
Lemma execute_bind {A B} f1 f2 (m : itree ioE A) (k : A -> itree ioE B)
      w tr1 w1 a tr2 w2 b :
  execute h f1 m w = Obs tr1 w1 (Some a) ->
  execute h f2 (k a) w1 = Obs tr2 w2 (Some b) ->
  execute h (f1 + f2) (ITree.bind m k) w = Obs (tr1 ++ tr2) w2 (Some b).
Proof.
  revert m w tr1.
  induction f1 as [|f1 IH]; intros m w tr1 E1 E2.
  - discriminate E1.
  - cbn [Nat.add]. rewrite execute_S in E1. rewrite execute_S, observe_bind.
    destruct (observe m) as [a0|m'|T e k'] eqn:Em; cbn.
    + inversion E1; subst. cbn.
      rewrite <- execute_S.
      apply execute_mono with (f := f2); [exact E2 | ].
      destruct f2; [discriminate E2 | lia].
    + apply IH; assumption.
    + destruct (h T e w) as [a' w'].
      destruct (execute h f1 (k' a') w') as [tr w'' r] eqn:E.
      unfold obs_cons in E1; cbn in E1. inversion E1; subst.
      rewrite (IH (k' a') w' tr E E2). reflexivity.
Qed.

(** Rewriting a run at the head of its program. *)
Lemma execute_Ret {R} f (r : R) w :
  execute h (S f) (Ret r) w = Obs [] w (Some r).
Proof. reflexivity. Qed.

Lemma execute_bind_Ret {A B} f (a : A) (k : A -> itree ioE B) w :
  execute h f (ITree.bind (Ret a) k) w = execute h f (k a) w.
Proof. destruct f; reflexivity. Qed.

Lemma execute_bind_trigger {T B} f (e : ioE T) (k : T -> itree ioE B) w :
  execute h (S f) (ITree.bind (ITree.trigger e) k) w =
  obs_cons (Step e (fst (h _ e w))) (execute h f (k (fst (h _ e w))) (snd (h _ e w))).
Proof.
  rewrite execute_S. cbn. destruct (h T e w) as [a w']. cbn.
  destruct f; reflexivity.
Qed.

Lemma execute_bind_bind {A B C} f (m : itree ioE A) (k1 : A -> itree ioE B)
      (k2 : B -> itree ioE C) w :
  execute h f (ITree.bind (ITree.bind m k1) k2) w =
  execute h f (ITree.bind m (fun a => ITree.bind (k1 a) k2)) w.
Proof.
  revert m w. induction f as [|f IH]; intros m w; [reflexivity|].
  rewrite !execute_S, !observe_bind.
  destruct (observe m) as [a|m'|T e k]; cbn.
  - rewrite observe_bind. reflexivity.
  - apply IH.
  - destruct (h T e w) as [a w']. rewrite IH. reflexivity.
Qed.

Section Iter.
Context {I R : Type} (body : I -> itree ioE (I + R)).

Lemma execute_iter f i w :
  execute h f (ITree.iter body i) w =
  execute h f (ITree.bind (body i) (fun lr =>
                 match lr with
                 | inl l => Tau (ITree.iter body l)
                 | inr r => Ret r
                 end)) w.
Proof. destruct f; reflexivity. Qed.

(** Every observation of a loop splits into passes through its body. *)
Lemma execute_iter_obs f : forall i w,
  let o := execute h f (ITree.iter body i) w in
  iter_obs h body i w (obs_trace o) (obs_world o) (obs_result o).
Proof.
  induction f as [f IH] using lt_wf_ind. intros i w. cbn zeta.
  rewrite execute_iter.
  destruct (execute_bind_inv f (body i)
              (fun lr => match lr with
                         | inl l => Tau (ITree.iter body l)
                         | inr r => Ret r
                         end) w)
    as [(tr & w' & E1 & E2) | (f2 & tr1 & w1 & a & Hle & E1 & E2)];
    rewrite E2; cbn.
  - eapply iter_cut; eassumption.
  - destruct f2 as [|f2]; [lia|]. rewrite execute_S.
    destruct a as [i'|r]; cbn.
    + eapply iter_next; [eassumption|]. apply IH. lia.
    + rewrite app_nil_r. eapply iter_stop; eassumption.
Qed.

(** A loop whose last pass stops has returned, given enough fuel. *)
Lemma iter_obs_execute i w tr w' r :
  iter_obs h body i w tr w' (Some r) ->
  exists f, execute h f (ITree.iter body i) w = Obs tr w' (Some r).
Proof.
  intros Hobs. remember (Some r) as res eqn:Er.
  induction Hobs as [i w f tr w' E | i w f tr w' r0 E
                    | i w f tr1 w1 i' tr2 w' r0 E Hrest IH].
  - discriminate Er.
  - inversion Er; subst. exists (f + 1)%nat.
    rewrite execute_iter.
    rewrite <- (app_nil_r tr).
    eapply execute_bind; [eassumption | reflexivity].
  - destruct (IH Er) as [f' E']. subst. exists (f + S f')%nat.
    rewrite execute_iter.
    eapply execute_bind; [eassumption | ].
    rewrite execute_S. exact E'.
Qed.
End Iter.
End Execute.

Section Execute2.
Context {W : Type} (h : handler W).

(** A run of [ITree.bind m k], once [m] has returned, extends the calls of
    [m] by those of [k]. *)
Lemma execute_bind_prefix {A B} f1 f2 (m : itree ioE A) (k : A -> itree ioE B)
      w tr1 w1 a :
  execute h f1 m w = Obs tr1 w1 (Some a) ->
  exists post,
    obs_trace (execute h (f1 + f2) (ITree.bind m k) w) =
    tr1 ++ obs_trace (execute h f2 (k a) w1) ++ post.
Proof.
  revert m w tr1.
  induction f1 as [|f1 IH]; intros m w tr1 E1.
  - discriminate E1.
  - cbn [Nat.add]. rewrite execute_S in E1. rewrite execute_S, observe_bind.
    destruct (observe m) as [a0|m'|T e k'] eqn:Em; cbn.
    + inversion E1; subst. cbn. rewrite <- execute_S.
      apply execute_prefix. lia.
    + apply IH; assumption.
    + destruct (h T e w) as [a' w'].
      destruct (execute h f1 (k' a') w') as [tr w'' r] eqn:E.
      unfold obs_cons in E1; cbn in E1. inversion E1; subst.
      destruct (IH (k' a') w' tr E) as [post Hp].
      exists post. cbn. rewrite Hp. reflexivity.
Qed.

(** A continuation that only returns does not change the calls. *)
Lemma execute_bind_Ret_map {A B} f (m : itree ioE A) (g : A -> B) w :
  execute h f (ITree.bind m (fun a => Ret (g a))) w =
  Obs (obs_trace (execute h f m w)) (obs_world (execute h f m w))
      (option_map g (obs_result (execute h f m w))).
Proof.
  revert m w. induction f as [|f IH]; intros m w; [reflexivity|].
  rewrite !execute_S, observe_bind.
  destruct (observe m) as [a|m'|T e k]; cbn.
  - reflexivity.
  - apply IH.
  - destruct (h T e w) as [a w']. rewrite IH. reflexivity.
Qed.

Section Iter2.
Context {I R : Type} (body : I -> itree ioE (I + R)).

(** Every split into passes is the beginning of a run. *)
Lemma iter_obs_prefix i w tr w' r :
  iter_obs h body i w tr w' r ->
  exists f post,
    obs_trace (execute h f (ITree.iter body i) w) = tr ++ post.
Proof.
  intros Hobs.
  induction Hobs as [i w f tr w' E | i w f tr w' r0 E
                    | i w f tr1 w1 i' tr2 w' r0 E Hrest IH].
  - exists f, []. rewrite execute_iter, app_nil_r.
    destruct (execute_bind_inv h f (body i)
                (fun lr => match lr with
                           | inl l => Tau (ITree.iter body l)
                           | inr r => Ret r
                           end) w)
      as [(tr0 & w0 & E1 & E2) | (f2 & tr1 & w1 & a & Hle & E1 & E2)].
    + rewrite E2. rewrite E in E1. inversion E1; subst. reflexivity.
    + rewrite E in E1. discriminate E1.
  - exists (f + 1)%nat, []. rewrite execute_iter, app_nil_r.
    erewrite execute_bind; [|eassumption|reflexivity].
    cbn. rewrite app_nil_r. reflexivity.
  - destruct IH as [f' [post Hp]].
    destruct (execute_bind_prefix f (S f') (body i)
                (fun lr => match lr with
                           | inl l => Tau (ITree.iter body l)
                           | inr r => Ret r
                           end) w tr1 w1 (inl i') E) as [post' Hp'].
    exists (f + S f')%nat, (post ++ post').
    rewrite execute_iter, Hp'. rewrite execute_S. cbn.
    rewrite Hp. rewrite <- !app_assoc. reflexivity.
Qed.
End Iter2.
End Execute2.


(** ** Symbolic execution against an arbitrary environment *)

Arguments getitem : simpl never.

Ltac unfold_M :=
  unfold bind, try_except_else, call, log, lift, get, put, method_of, ret, raise.

(** Bring the program to the form [Ret _], [ITree.bind (ITree.trigger _) _],
    or a test on data. *)
Ltac exec_norm :=
  repeat first [ rewrite execute_bind_bind | rewrite execute_bind_Ret ]; cbn.

(** Perform the call at the head and name what the environment answers. *)
Ltac exec_call :=
  match goal with
  | |- context [execute ?h (S ?f) (ITree.bind (ITree.trigger ?e) ?k) ?w] =>
      rewrite (execute_bind_trigger h f e k w);
      let a := fresh "a" in
      let w' := fresh "w" in
      destruct (h _ e w) as [a w'] eqn:?; destruct a; cbn [fst snd]
  end.

Ltac exec_case :=
  match goal with
  | H : getitem ?c ?k = _ |- context [getitem ?c ?k] =>
      rewrite H; cbn
  | |- context [match getitem ?c ?k with Returned _ => _ | Raised _ => _ end] =>
      destruct (getitem c k) eqn:?; cbn
  | |- context [isinstance_OSError ?e] =>
      is_var e;
      let cls := fresh "cls" in
      let args := fresh "args" in
      destruct e as [cls args]; destruct cls; cbn
  | |- context [args_0 ?e] =>
      unfold args_0; cbn
  | |- context [eq_110 ?a] =>
      is_var a; destruct a; cbn
  | |- context [ai_sockaddr ?a] =>
      let ip := fresh "ip" in
      let port := fresh "port" in
      destruct (ai_sockaddr a) as [ip port] eqn:?; cbn
  | |- context [match ?o with Some _ => _ | None => _ end] =>
      is_var o; destruct o; cbn
  | |- context [match ?l with [] => _ | _ :: _ => _ end] =>
      is_var l; destruct l; cbn
  | |- context [match ?o with Returned _ => _ | Raised _ => _ end] =>
      is_var o; destruct o; cbn
  | |- context [if ?b then _ else _] =>
      destruct b eqn:?; cbn
  end.

(** With the fuel unknown, the run may stop before the next node. *)
Ltac exec_fuel :=
  match goal with
  | |- context [execute _ ?f _ _] =>
      is_var f; destruct f; [rewrite execute_0; cbn | ]
  end.

Ltac exec_ret :=
  match goal with
  | |- context [execute ?h (S ?f) (Ret ?r) ?w] =>
      rewrite (execute_Ret h f r w)
  end.

Ltac exec_all :=
  cbn;
  repeat first [ rewrite execute_bind_bind | rewrite execute_bind_Ret
               | exec_call | exec_ret | progress cbn | exec_case | exec_fuel ].

(** ** The UART callback and [connect_cloud] *)

Section Methods.
Context {W : Type} (h : handler W).

(** The data [__uart_cb] read is what it passes to [send], once, on the
    socket stored in [__sock]. *)
Lemma uart_cb_sends (w : W) (args : pyval) (self : Demo) (s : handle) :
  __sock self = Some s ->
  let o := execute h budget (__uart_cb args self) w in
  finished o = true /\
  forall b : bytes,
    uart_read_answers (obs_trace o) = [Returned b] ->
    sock_sends (obs_trace o) = [(s, b)].
Proof.
  intros Hs. destruct self as [nm cfg uo so led tid]; cbn in Hs; subst so.
  remember (execute h budget _ w) as o eqn:E. symmetry in E. revert E.
  unfold budget, __uart_cb, blink. unfold_M.
  exec_all.
  all: intros <-; cbn; (split; [reflexivity | intros b0 Hb; try discriminate Hb]).
  all: inversion Hb; subst; reflexivity.
Qed.

(** Without a stored socket nothing is sent: loading [send] from [None]
    raises, and the error is logged. *)
Lemma uart_cb_without_socket (w : W) (args : pyval) (self : Demo) :
  __sock self = None ->
  let o := execute h budget (__uart_cb args self) w in
  sock_sends (obs_trace o) = [] /\
  forall b : bytes,
    uart_read_answers (obs_trace o) = [Returned b] ->
    last (logged (obs_trace o)) (DEBUG, VNone) =
      (ERROR, VFormat "send data to cloud failed! pls check your connection. error: {}"
                      [VExc AttributeError [VStr "send"]]).
Proof.
  intros Hs. destruct self as [nm cfg uo so led tid]; cbn in Hs; subst so.
  remember (execute h budget _ w) as o eqn:E. symmetry in E. revert E.
  unfold budget, __uart_cb, blink. unfold_M.
  exec_all.
  all: intros <-; cbn; (split; [reflexivity | intros b0 Hb; try discriminate Hb]).
  reflexivity.
Qed.

(** What the environment answers decides the run: when [any()] gives [n]
    and [read(n)] gives [b], the callback has read [n] bytes once and has
    called [send] once, with [b]. *)
Lemma uart_cb_relays (w : W) (args : pyval) (self : Demo) (u s : handle) (n : Z) (b : bytes) :
  __uart self = Some u ->
  __sock self = Some s ->
  fst (h _ (UartAny u) w) = Returned n ->
  fst (h _ (UartRead u n) (snd (h _ (UartAny u) w))) = Returned b ->
  let tr := obs_trace (execute h budget (__uart_cb args self) w) in
  uart_reads tr = [(u, n)] /\
  uart_read_answers tr = [Returned b] /\
  sock_sends tr = [(s, b)] /\
  exists a, sock_send_answers tr = [a].
Proof.
  intros Hu Hs. destruct self as [nm cfg uo so led tid]; cbn in Hu, Hs; subst uo so.
  destruct (h _ (UartAny u) w) as [a1 w1] eqn:E1. cbn [fst snd].
  intros ->.
  destruct (h _ (UartRead u n) w1) as [a2 w2] eqn:E2. cbn [fst snd].
  intros ->. cbn zeta.
  remember (execute h budget _ w) as o eqn:E. symmetry in E. revert E.
  unfold budget, __uart_cb, blink. unfold_M.
  repeat first [rewrite execute_bind_bind | rewrite execute_bind_Ret | progress cbn].
  rewrite execute_bind_trigger, E1. cbn [fst snd].
  repeat first [rewrite execute_bind_bind | rewrite execute_bind_Ret | progress cbn].
  rewrite execute_bind_trigger, E2. cbn [fst snd].
  exec_all.
  all: intros <-; cbn; repeat split; eexists; reflexivity.
Qed.

(** C1: whatever byte sequence the UART read hands over, [__uart_cb]
    passes it to [send] of the stored socket exactly once and unchanged;
    and the send is made: when [any()] answers [n] and [read(n)] answers
    [b], the run contains the one [read(n)] and the one [send(b)]. *)
Theorem uart_cb_sends_read_data_once (w : W) (args : pyval) (self : Demo) (s : handle) :
  __sock self = Some s ->
  let o := execute h budget (__uart_cb args self) w in
  finished o = true /\
  (forall b : bytes,
      uart_read_answers (obs_trace o) = [Returned b] ->
      sock_sends (obs_trace o) = [(s, b)]) /\
  (forall (u : handle) (n : Z) (b : bytes),
      __uart self = Some u ->
      fst (h _ (UartAny u) w) = Returned n ->
      fst (h _ (UartRead u n) (snd (h _ (UartAny u) w))) = Returned b ->
      uart_reads (obs_trace o) = [(u, n)] /\
      uart_read_answers (obs_trace o) = [Returned b] /\
      sock_sends (obs_trace o) = [(s, b)]).
Proof.
  intros Hs. cbn zeta.
  destruct (uart_cb_sends w args self s Hs) as [Hf Hb].
  split; [exact Hf|]. split; [exact Hb|].
  intros u n b Hu Ha Hr.
  destruct (uart_cb_relays w args self u s n b Hu Hs Ha Hr) as (H1 & H2 & H3 & _).
  repeat split; assumption.
Qed.

Lemma uart_cb_finishes (w : W) (args : pyval) (self : Demo) :
  finished (execute h budget (__uart_cb args self) w) = true.
Proof.
  destruct self as [nm cfg uo so led tid].
  unfold budget, __uart_cb, blink. unfold_M.
  exec_all; reflexivity.
Qed.

(** Every call of [blink] makes a call into [_thread]. *)
Lemma blink_calls_thread (w : W) (on off count : Z) (self : Demo) :
  thread_calls (obs_trace (execute h budget (blink on off count self) w)) <> [].
Proof.
  destruct self as [nm cfg uo so led tid].
  remember (execute h budget _ w) as o eqn:E. symmetry in E. revert E.
  unfold budget, blink. unfold_M.
  exec_all.
  all: intros <-; cbn; discriminate.
Qed.

(** What follows the [send] in [__uart_cb], by its answer. *)
Lemma uart_cb_after_send (w : W) (args : pyval) (self : Demo) :
  let o := execute h budget (__uart_cb args self) w in
  (forall length : Z,
      sock_send_answers (obs_trace o) = [Returned length] ->
      exists pre w1,
        thread_calls pre = [] /\
        o = obs_app pre (execute h 12 ((blink 50 50 20 ;; log DEBUG (sent length)) self) w1)) /\
  (forall e : exn,
      sock_send_answers (obs_trace o) = [Raised e] ->
      thread_calls (obs_trace o) = [] /\
      last (logged (obs_trace o)) (DEBUG, VNone) =
        (ERROR, VFormat "send data to cloud failed! pls check your connection. error: {}"
                        [VExn e]) /\
      obs_result o = Some (self, Returned tt)) /\
  (sock_send_answers (obs_trace o) = [] ->
      thread_calls (obs_trace o) = []).
Proof.
  cbn zeta.
  destruct self as [nm cfg uo so led tid].
  remember (execute h budget _ w) as o eqn:E. symmetry in E. revert E.
  unfold budget, __uart_cb. unfold_M.
  exec_all.
  all: intros <-.
  all: split; [intros length Hl | split; [intros e0 Hl | intros Hl]].
  all: cbn in Hl; try discriminate Hl.
  all: try (inversion Hl; subst; clear Hl).
  all: try (cbn; repeat split; fail).
  exists [Step (UartAny h0) (Returned v); Step (UartRead h0 v) (Returned v0);
          Step (Log DEBUG (VFormat "read data from serial: {}" [VBytes v0])) tt;
          Step (SockSend h1 v0) (Returned length)], w3.
  split; reflexivity.
Qed.

(** A call into [_thread] is made exactly when [send] returned, and then
    the size sent is the last thing logged unless [blink] raised. *)
Lemma uart_cb_blink_iff (w : W) (args : pyval) (self : Demo) :
  let o := execute h budget (__uart_cb args self) w in
  (thread_calls (obs_trace o) <> [] <->
   exists length, sock_send_answers (obs_trace o) = [Returned length]) /\
  (forall length self',
      sock_send_answers (obs_trace o) = [Returned length] ->
      obs_result o = Some (self', Returned tt) ->
      last (logged (obs_trace o)) (DEBUG, VNone) = (DEBUG, sent length)).
Proof.
  cbn zeta.
  destruct self as [nm cfg uo so led tid].
  remember (execute h budget _ w) as o eqn:E. symmetry in E. revert E.
  unfold budget, __uart_cb, blink. unfold_M.
  exec_all.
  all: intros <-; cbn.
  all: split;
    [ split;
      [ intros Hn; first [exfalso; apply Hn; reflexivity | eexists; reflexivity]
      | intros [length Hl]; try discriminate Hl; discriminate ]
    | intros length self' Hl Hr; try discriminate Hl; try discriminate Hr;
      inversion Hl; subst; reflexivity ].
Qed.

(** C5: [blink(50, 50, 20)] is called exactly when [send] returned: the
    rest of the run is then that call followed by the debug message with the
    size sent (on the 12 nodes left of the budget after the four calls
    before it); when [send] raised, the error is logged, [self] is unchanged
    and no call into [_thread] is made, while every [blink] makes one.  So
    the run calls into [_thread] exactly when [send] returned, and then
    ends, unless [blink] raised, with the message about the size sent.  The
    [send] is made whenever the two UART calls return: one of the two
    branches is taken. *)
Theorem uart_cb_blinks_iff_send_returns (w : W) (args : pyval) (self : Demo) :
  let o := execute h budget (__uart_cb args self) w in
  finished o = true /\
  (forall length : Z,
      sock_send_answers (obs_trace o) = [Returned length] ->
      exists pre w1,
        thread_calls pre = [] /\
        o = obs_app pre (execute h 12 ((blink 50 50 20 ;; log DEBUG (sent length)) self) w1)) /\
  (forall e : exn,
      sock_send_answers (obs_trace o) = [Raised e] ->
      thread_calls (obs_trace o) = [] /\
      last (logged (obs_trace o)) (DEBUG, VNone) =
        (ERROR, VFormat "send data to cloud failed! pls check your connection. error: {}"
                        [VExn e]) /\
      obs_result o = Some (self, Returned tt)) /\
  (sock_send_answers (obs_trace o) = [] ->
      thread_calls (obs_trace o) = []) /\
  (thread_calls (obs_trace o) <> [] <->
   exists length, sock_send_answers (obs_trace o) = [Returned length]) /\
  (forall length self',
      sock_send_answers (obs_trace o) = [Returned length] ->
      obs_result o = Some (self', Returned tt) ->
      last (logged (obs_trace o)) (DEBUG, VNone) = (DEBUG, sent length)) /\
  (forall (u s : handle) (n : Z) (b : bytes),
      __uart self = Some u ->
      __sock self = Some s ->
      fst (h _ (UartAny u) w) = Returned n ->
      fst (h _ (UartRead u n) (snd (h _ (UartAny u) w))) = Returned b ->
      sock_sends (obs_trace o) = [(s, b)] /\
      exists a, sock_send_answers (obs_trace o) = [a]).
Proof.
  cbn zeta. split; [apply uart_cb_finishes|].
  destruct (uart_cb_after_send w args self) as (H1 & H2 & H3).
  destruct (uart_cb_blink_iff w args self) as (H4 & H5).
  do 5 (split; [assumption|]).
  intros u s n b Hu Hs Ha Hr.
  destruct (uart_cb_relays w args self u s n b Hu Hs Ha Hr) as (_ & _ & H6 & H7).
  split; assumption.
Qed.

(** C6: when the resolver returns no address, [connect_cloud] raises its
    [ValueError] ("DNS detect error"), catches and logs it, stores no
    socket and starts no thread. *)
Theorem connect_cloud_dns_failure (w : W) (self : Demo) :
  let o := execute h budget (connect_cloud self) w in
  getaddrinfo_answers (obs_trace o) = [Returned []] ->
  exists server host port,
    getitem (config self) "SERVER" = Returned server /\
    getitem server "host" = Returned host /\
    getitem server "port" = Returned port /\
    obs_trace o =
      [Step (GetAddrInfo host port) (Returned []);
       Step (Log ERROR
               (VFormat "connect cloud failed: {}"
                  [VExc ValueError
                     [VFormat "DNS detect error for addr: {},{}" [host; port]]])) tt] /\
    start_new_thread_calls (obs_trace o) = [] /\
    obs_result o = Some (self, Returned tt).
Proof.
  destruct self as [nm cfg uo so led tid].
  remember (execute h budget _ w) as o eqn:E. symmetry in E. revert E.
  unfold budget, connect_cloud, config_get. unfold_M.
  exec_all.
  all: intros <-; intros Ha; cbn in Ha; try discriminate Ha.
  eexists _, _, _. repeat split; eassumption.
Qed.

Lemma connect_cloud_finishes (w : W) (self : Demo) :
  finished (execute h budget (connect_cloud self) w) = true.
Proof.
  destruct self as [nm cfg uo so led tid].
  remember (execute h budget _ w) as o eqn:E. symmetry in E. revert E.
  unfold budget, connect_cloud, config_get. unfold_M.
  exec_all.
  all: intros <-; reflexivity.
Qed.

(** What [__sock] holds after [connect_cloud]. *)
Lemma connect_cloud_socket (w : W) (self self' : Demo) (r : outcome unit) :
  let o := execute h budget (connect_cloud self) w in
  obs_result o = Some (self', r) ->
  match socket_new_answers (obs_trace o) with
  | [Returned s] => __sock self' = Some s
  | _ => __sock self' = __sock self
  end.
Proof.
  destruct self as [nm cfg uo so led tid].
  remember (execute h budget _ w) as o eqn:E. symmetry in E. revert E.
  unfold budget, connect_cloud, config_get. unfold_M.
  exec_all.
  all: intros <-; cbn.
  all: intros Hr; inversion Hr; subst; reflexivity.
Qed.

(** When [connect_cloud] asks for the reader thread. *)
Lemma connect_cloud_spawn_iff (w : W) (self : Demo) :
  let tr := obs_trace (execute h budget (connect_cloud self) w) in
  In sock_recv_thread_entry (start_new_thread_calls tr) <->
  (exists rv_0 rest, getaddrinfo_answers tr = [Returned (rv_0 :: rest)]) /\
  (exists s, socket_new_answers tr = [Returned s]) /\
  sock_connect_answers tr = [Returned tt] /\
  sock_settimeout_answers tr = [Returned tt] /\
  sock_setkeepalive_answers tr = [Returned tt].
Proof.
  destruct self as [nm cfg uo so led tid].
  remember (execute h budget _ w) as o eqn:E. symmetry in E. revert E.
  unfold budget, connect_cloud, config_get. unfold_M.
  exec_all.
  all: intros <-; cbn.
  all: split;
    [ intros Hin; repeat destruct Hin as [Hin|Hin]; try discriminate Hin; try contradiction
    | intros [[ai [rest Ha]] [[s Hs] [Hc [Ht Hk]]]];
      try discriminate Ha; try discriminate Hs; try discriminate Hc;
      try discriminate Ht; try discriminate Hk ].
  all: try (left; reflexivity).
  all: repeat match goal with u : unit |- _ => destruct u end.
  all: repeat split; eauto.
Qed.

(** The steps of [connect_cloud], each made once the one before it has
    returned: the resolver is asked first, for the configured host and
    port; a resolved address leads to [usocket.socket()], a socket to
    [connect] with the first address, and so on. *)
Lemma connect_cloud_steps (w : W) (self : Demo)
    (server host port timeout keep_alive : pyval) :
  getitem (config self) "SERVER" = Returned server ->
  getitem server "host" = Returned host ->
  getitem server "port" = Returned port ->
  getitem server "timeout" = Returned timeout ->
  getitem server "keep_alive" = Returned keep_alive ->
  let tr := obs_trace (execute h budget (connect_cloud self) w) in
  getaddrinfos tr = [(host, port)] /\
  (exists a, getaddrinfo_answers tr = [a]) /\
  (forall rv_0 rest,
      getaddrinfo_answers tr = [Returned (rv_0 :: rest)] ->
      exists a, socket_new_answers tr = [a]) /\
  (forall rv_0 rest s,
      getaddrinfo_answers tr = [Returned (rv_0 :: rest)] ->
      socket_new_answers tr = [Returned s] ->
      sock_connects tr = [(s, ai_sockaddr rv_0)] /\
      (sock_connect_answers tr = [Returned tt] ->
       sock_settimeouts tr = [(s, timeout)]) /\
      (sock_settimeout_answers tr = [Returned tt] ->
       sock_setkeepalives tr = [(s, keep_alive)]) /\
      (sock_setkeepalive_answers tr = [Returned tt] ->
       start_new_thread_calls tr = [sock_recv_thread_entry])).
Proof.
  destruct self as [nm cfg uo so led tid]. cbn [config].
  intros Hg Hh Hp Ht Hk.
  remember (execute h budget _ w) as o eqn:E. symmetry in E. revert E.
  unfold budget, connect_cloud, config_get. unfold_M.
  exec_all.
  all: intros <-; cbn.
  all: split; [reflexivity|].
  all: split; [eexists; reflexivity|].
  all: split; [intros rv_0 rest Ha; try discriminate Ha; eexists; reflexivity|].
  all: intros rv_0 rest s Ha Hs; try discriminate Ha; try discriminate Hs.
  all: inversion Ha; inversion Hs; subst.
  all: repeat match goal with H : ai_sockaddr _ = _ |- _ => rewrite H end.
  all: split; [reflexivity|].
  all: repeat split; intros Hx; try discriminate Hx; reflexivity.
Qed.

(** C9: the reader thread is asked for exactly when the five steps
    returned (with an address); and whenever [usocket.socket] returned,
    its result stays in [__sock], also when a later step raised, so that
    the next [__uart_cb] sends on it.  The steps are made: with the server
    group configured the resolver is asked, and each step that returns is
    followed by the next, up to the start of the reader. *)
Theorem connect_cloud_spawn_and_socket (w : W) (self : Demo) :
  let o := execute h budget (connect_cloud self) w in
  let tr := obs_trace o in
  finished o = true /\
  (In sock_recv_thread_entry (start_new_thread_calls tr) <->
     (exists rv_0 rest, getaddrinfo_answers tr = [Returned (rv_0 :: rest)]) /\
     (exists s, socket_new_answers tr = [Returned s]) /\
     sock_connect_answers tr = [Returned tt] /\
     sock_settimeout_answers tr = [Returned tt] /\
     sock_setkeepalive_answers tr = [Returned tt]) /\
  (forall self' r,
      obs_result o = Some (self', r) ->
      match socket_new_answers tr with
      | [Returned s] => __sock self' = Some s
      | _ => __sock self' = __sock self
      end) /\
  (forall s self' r,
      socket_new_answers tr = [Returned s] ->
      obs_result o = Some (self', r) ->
      forall (w2 : W) (args : pyval) (b : bytes),
        let o2 := execute h budget (__uart_cb args self') w2 in
        uart_read_answers (obs_trace o2) = [Returned b] ->
        sock_sends (obs_trace o2) = [(s, b)]) /\
  (forall server host port timeout keep_alive : pyval,
      getitem (config self) "SERVER" = Returned server ->
      getitem server "host" = Returned host ->
      getitem server "port" = Returned port ->
      getitem server "timeout" = Returned timeout ->
      getitem server "keep_alive" = Returned keep_alive ->
      getaddrinfos tr = [(host, port)] /\
      (exists a, getaddrinfo_answers tr = [a]) /\
      (forall rv_0 rest,
          getaddrinfo_answers tr = [Returned (rv_0 :: rest)] ->
          exists a, socket_new_answers tr = [a]) /\
      (forall rv_0 rest s,
          getaddrinfo_answers tr = [Returned (rv_0 :: rest)] ->
          socket_new_answers tr = [Returned s] ->
          sock_connects tr = [(s, ai_sockaddr rv_0)] /\
          (sock_connect_answers tr = [Returned tt] ->
           sock_settimeouts tr = [(s, timeout)]) /\
          (sock_settimeout_answers tr = [Returned tt] ->
           sock_setkeepalives tr = [(s, keep_alive)]) /\
          (sock_setkeepalive_answers tr = [Returned tt] ->
           start_new_thread_calls tr = [sock_recv_thread_entry]))).
Proof.
  cbn zeta. split; [apply connect_cloud_finishes|].
  split; [apply connect_cloud_spawn_iff|].
  split; [intros self' r; apply connect_cloud_socket|].
  split.
  - intros s self' r Hs Hr w2 args b.
    pose proof (connect_cloud_socket w self self' r Hr) as Hsock.
    cbn zeta in Hsock. rewrite Hs in Hsock.
    apply (uart_cb_sends w2 args self' s Hsock).
  - intros server host port timeout keep_alive. apply connect_cloud_steps.
Qed.

(** C10: a notification with nothing to read ([any()] gives 0 and
    [read(0)] gives empty bytes) still calls [send], with the empty data,
    and [blink(50, 50, 20)] still follows when that [send] returned. *)
Theorem uart_cb_forwards_empty_read (w : W) (args : pyval) (self : Demo) (u s : handle) :
  __uart self = Some u ->
  __sock self = Some s ->
  let o := execute h budget (__uart_cb args self) w in
  uart_any_answers (obs_trace o) = [Returned 0] ->
  uart_read_answers (obs_trace o) = [Returned []] ->
  uart_reads (obs_trace o) = [(u, 0)] /\
  sock_sends (obs_trace o) = [(s, [])] /\
  (forall length : Z,
      sock_send_answers (obs_trace o) = [Returned length] ->
      exists pre w1,
        thread_calls pre = [] /\
        o = obs_app pre (execute h 12 ((blink 50 50 20 ;; log DEBUG (sent length)) self) w1)).
Proof.
  intros Hu Hs. cbn zeta. intros Ha Hr.
  split; [|split; [|apply uart_cb_after_send]].
  all: revert Ha Hr.
  all: destruct self as [nm cfg uo so led tid]; cbn in Hu, Hs; subst uo so.
  all: remember (execute h budget _ w) as o eqn:E; symmetry in E; revert E.
  all: unfold budget, __uart_cb, blink; unfold_M.
  all: exec_all.
  all: intros <-; cbn; intros Ha Hr.
  all: try discriminate Ha; try discriminate Hr.
  all: inversion Ha; inversion Hr; subst; reflexivity.
Qed.
End Methods.

Lemma uart_cb_sends_read_data_once_witness :
  let o := execute board_handler budget (__uart_cb VNone demo_wired)
                   (board_on hello true []) in
  finished o = true /\
  uart_reads (obs_trace o) = [(0%nat, 5)] /\
  uart_read_answers (obs_trace o) = [Returned hello] /\
  sock_sends (obs_trace o) = [(1%nat, hello)].
Proof.
  destruct (uart_cb_sends_read_data_once board_handler (board_on hello true []) VNone
              demo_wired 1%nat eq_refl) as (Hf & _ & H).
  split; [exact Hf|].
  apply (H 0%nat 5 hello); reflexivity.
Defined.

(** The callback on the simulated module with the peer reachable: the
    five bytes waiting are sent, and the blink task is asked for. *)
Lemma uart_cb_blinks_iff_send_returns_witness :
  let o := execute board_handler budget (__uart_cb VNone demo_wired)
                   (board_on hello true []) in
  sock_sends (obs_trace o) = [(1%nat, hello)] /\
  thread_calls (obs_trace o) <> [] /\
  last (logged (obs_trace o)) (DEBUG, VNone) = (DEBUG, sent 5) /\
  exists pre w1,
    thread_calls pre = [] /\
    o = obs_app pre (execute board_handler 12
                       ((blink 50 50 20 ;; log DEBUG (sent 5)) demo_wired) w1).
Proof.
  destruct (uart_cb_blinks_iff_send_returns board_handler (board_on hello true []) VNone
              demo_wired) as (_ & H2 & _ & _ & H5 & H6 & H7).
  split; [apply (H7 0%nat 1%nat 5 hello); reflexivity|].
  split; [apply H5; exists 5; reflexivity|].
  split; [apply (H6 5 (with_blink_thread demo_wired (Some 1))); reflexivity|].
  apply H2. reflexivity.
Defined.

(** [connect_cloud] on the simulated module with the peer reachable: the
    five steps are made on the resolved address, the socket is stored and
    the reader is started. *)
Lemma connect_cloud_spawn_and_socket_witness :
  let o := execute board_handler budget (connect_cloud demo_fresh) (board_on [] true []) in
  let tr := obs_trace o in
  getaddrinfos tr = [(VStr "220.180.239.212", VStr "8305")] /\
  sock_connects tr = [(1%nat, ("220.180.239.212", 8305))] /\
  start_new_thread_calls tr = [sock_recv_thread_entry] /\
  In sock_recv_thread_entry (start_new_thread_calls tr) /\
  forall self' r, obs_result o = Some (self', r) -> __sock self' = Some 1%nat.
Proof.
  destruct (connect_cloud_spawn_and_socket board_handler (board_on [] true []) demo_fresh)
    as (_ & H2 & H3 & _ & H5).
  destruct (H5 (VDict [("host", VStr "220.180.239.212"); ("port", VStr "8305");
                       ("timeout", VInt 5); ("keep_alive", VInt 5)])
               (VStr "220.180.239.212") (VStr "8305") (VInt 5) (VInt 5)
               eq_refl eq_refl eq_refl eq_refl eq_refl) as (Ha & _ & _ & Hsteps).
  destruct (Hsteps (AddrInfo 2 1 0 "" ("220.180.239.212", 8305)) [] 1%nat eq_refl eq_refl)
    as (Hc & _ & _ & Ht).
  split; [exact Ha|]. split; [exact Hc|]. split; [apply Ht; reflexivity|].
  split.
  - apply H2. split; [do 2 eexists; reflexivity|]. split; [eexists; reflexivity|].
    repeat split.
  - intros self' r Hr. exact (H3 self' r Hr).
Defined.

(** ** The socket reader *)

Section Reader.
Context {W : Type} (h : handler W).

(** One pass of the reader, observed for any amount of fuel. *)
Lemma sock_recv_pass f (w : W) (self : Demo) (s : handle) :
  __sock self = Some s ->
  let o := execute h f (sock_recv_iteration self) w in
  let ans := sock_recv_answers (obs_trace o) in
  (obs_trace o = [] /\ obs_result o = None \/
   exists a, ans = [a] /\ sock_recvs (obs_trace o) = [(s, 1024)]) /\
  (forall self' r,
      obs_result o = Some (self', r) ->
      self' = self /\
      exists a, ans = [a] /\
        match a with
        | Returned _ => r = Returned Continue
        | Raised e => if timeout_class e then r = Returned Continue
                      else r <> Returned Continue
        end) /\
  (forall e, ans = [Raised e] -> timeout_class e = true ->
             obs_trace o = [Step (SockRecv s 1024) (Raised e)]) /\
  (forall e, ans = [Raised e] -> uart_writes (obs_trace o) = []) /\
  (forall b, ans = [Returned b] ->
             match __uart self with
             | Some u => uart_writes (obs_trace o) = [(u, b)] \/
                         uart_writes (obs_trace o) = [] /\ obs_result o = None
             | None => uart_writes (obs_trace o) = []
             end) /\
  ((6 <= f)%nat -> finished o = true).
Proof.
  intros Hs. destruct self as [nm cfg uo so led tid]; cbn in Hs; subst so.
  remember (execute h f _ w) as o eqn:E. symmetry in E. revert E.
  unfold sock_recv_iteration. unfold_M.
  exec_all.
  all: intros <-; cbn.
  all: repeat match goal with H : (_ =? _) = _ |- _ => rewrite H end.
  all: (split; [first [left; split; reflexivity | right; eexists; split; reflexivity]|]).
  all: (split; [intros self' r Hr; try discriminate Hr; inversion Hr; subst;
                (split; [reflexivity|]); eexists; (split; [reflexivity|]); cbn;
                repeat match goal with H : (_ =? _) = _ |- _ => rewrite H end;
                try reflexivity; try discriminate|]).
  all: (split; [intros e0 He Ht; try discriminate He; inversion He; subst; cbn in Ht;
                try congruence; try reflexivity |]).
  all: (split; [intros e0 He; try discriminate He; reflexivity|]).
  all: (split; [intros b0 Hb; try discriminate Hb; inversion Hb; subst;
                first [reflexivity | left; reflexivity | right; split; reflexivity] |]).
  all: try (intros _; reflexivity).
  all: intros Hf; exfalso; lia.
Qed.
End Reader.

Section ReaderLoop.
Context {W : Type} (h : handler W).

Lemma reader_step f (w : W) (self : Demo) (s : handle) :
  __sock self = Some s ->
  let o := execute h f (loop_step sock_recv_iteration self) w in
  let ans := sock_recv_answers (obs_trace o) in
  match obs_result o with
  | None =>
      obs_trace o = [] \/
      exists a, ans = [a] /\ sock_recvs (obs_trace o) = [(s, 1024)]
  | Some (inl self') =>
      self' = self /\
      exists a, ans = [a] /\ fatal a = false /\
                sock_recvs (obs_trace o) = [(s, 1024)]
  | Some (inr (self', r)) =>
      self' = self /\
      exists e, ans = [Raised e] /\ timeout_class e = false /\
                sock_recvs (obs_trace o) = [(s, 1024)]
  end.
Proof.
  intros Hs. cbn zeta. unfold loop_step.
  rewrite execute_bind_Ret_map. cbn.
  destruct (sock_recv_pass h f w self s Hs) as (P1 & P2 & _).
  destruct (obs_result (execute h f (sock_recv_iteration self) w))
    as [[self' r]|] eqn:Er; cbn.
  - destruct (P2 self' r eq_refl) as [-> [a [Ha Hm]]].
    destruct P1 as [[_ Hn] | [a' [Ha' Hc]]]; [discriminate Hn|].
    rewrite Ha in Ha'. inversion Ha'; subst a'.
    destruct a as [b|e].
    + subst r. cbn. split; [reflexivity|]. exists (Returned b). repeat split; assumption.
    + destruct (timeout_class e) eqn:Ht.
      * subst r. cbn. split; [reflexivity|]. exists (Raised e).
        repeat split; try assumption. cbn. rewrite Ht. reflexivity.
      * destruct r as [[|]|e']; cbn; try (exfalso; apply Hm; reflexivity).
        -- split; [reflexivity|]. exists e. repeat split; assumption.
        -- split; [reflexivity|]. exists e. repeat split; assumption.
  - destruct P1 as [[Hn _] | [a' [Ha' Hc]]].
    + left. assumption.
    + right. exists a'. split; assumption.
Qed.

Lemma loop_step_finishes f (w : W) (self : Demo) (s : handle) :
  __sock self = Some s ->
  (6 <= f)%nat ->
  obs_result (execute h f (loop_step sock_recv_iteration self) w) <> None.
Proof.
  intros Hs Hf. unfold loop_step. rewrite execute_bind_Ret_map. cbn.
  destruct (sock_recv_pass h f w self s Hs) as (_ & _ & _ & _ & _ & P6).
  specialize (P6 Hf). unfold finished in P6.
  destruct (obs_result (execute h f (sock_recv_iteration self) w)); [discriminate | discriminate P6].
Qed.

(** The first thing the loop does is to receive. *)
Lemma reader_first_call (w : W) (self : Demo) (s : handle) :
  __sock self = Some s ->
  sock_recvs (obs_trace (execute h 1 (ITree.iter (loop_step sock_recv_iteration) self) w)) =
  [(s, 1024)].
Proof.
  intros Hs. rewrite execute_iter.
  destruct self as [nm cfg uo so led tid]; cbn in Hs; subst so.
  remember (execute h 1 _ w) as o eqn:E. symmetry in E. revert E.
  unfold loop_step, sock_recv_iteration. unfold_M.
  exec_all. all: intros <-; reflexivity.
Qed.

Lemma only_last_fatal_cons a l :
  fatal a = false -> only_last_fatal l -> only_last_fatal (a :: l).
Proof. intros Ha Hl. destruct l; cbn; auto. Qed.

Lemma only_last_fatal_split l :
  only_last_fatal l ->
  forall pre e post,
    l = pre ++ Raised e :: post -> timeout_class e = false -> post = [].
Proof.
  induction l as [|a l IH]; intros Hl pre e post E Ht.
  - destruct pre; discriminate E.
  - destruct pre as [|p pre]; cbn in E; inversion E; subst.
    + destruct post as [|q post]; [reflexivity|].
      cbn in Hl. destruct Hl as [Hf _]. cbn in Hf. rewrite Ht in Hf. discriminate Hf.
    + apply (IH (match pre ++ Raised e :: post as l0 return only_last_fatal (p :: l0) -> only_last_fatal l0 with
                 | [] => fun _ => I
                 | _ :: _ => fun H => proj2 H
                 end Hl) pre e post eq_refl Ht).
Qed.

Lemma sock_recv_answers_app tr1 tr2 :
  sock_recv_answers (tr1 ++ tr2) = sock_recv_answers tr1 ++ sock_recv_answers tr2.
Proof. apply flat_map_app. Qed.

Lemma sock_recvs_app tr1 tr2 :
  sock_recvs (tr1 ++ tr2) = sock_recvs tr1 ++ sock_recvs tr2.
Proof. apply flat_map_app. Qed.

(** What holds of every observation of the reader. *)
Lemma reader_safety (self : Demo) (s : handle) w tr w' r :
  iter_obs h (loop_step sock_recv_iteration) self w tr w' r ->
  __sock self = Some s ->
  only_last_fatal (sock_recv_answers tr) /\
  sock_recvs tr = repeat (s, 1024) (List.length (sock_recv_answers tr)) /\
  (forall x, r = Some x ->
     exists pre e, sock_recv_answers tr = pre ++ [Raised e] /\ timeout_class e = false).
Proof.
  intros Hobs.
  induction Hobs as [i w f tr w' E | i w f tr w' r0 E
                    | i w f tr1 w1 i' tr2 w' r0 E Hrest IH]; intros Hs.
  - pose proof (reader_step f w i s Hs) as H. cbn zeta in H. rewrite E in H. cbn [obs_trace obs_result obs_world] in H.
    destruct H as [-> | [a [Ha Hc]]].
    + repeat split; try reflexivity. intros x Hx; discriminate Hx.
    + rewrite Ha, Hc. repeat split; try reflexivity. intros x Hx; discriminate Hx.
  - pose proof (reader_step f w i s Hs) as H. cbn zeta in H. rewrite E in H. cbn [obs_trace obs_result obs_world] in H.
    destruct r0 as [self' r0]. destruct H as [_ [e [Ha [Ht Hc]]]].
    rewrite Ha, Hc. repeat split; try reflexivity.
    intros x _. exists [], e. split; [reflexivity | assumption].
  - pose proof (reader_step f w i s Hs) as H. cbn zeta in H. rewrite E in H. cbn [obs_trace obs_result obs_world] in H.
    destruct H as [-> [a [Ha [Hf Hc]]]].
    destruct (IH Hs) as (I1 & I2 & I3).
    rewrite sock_recv_answers_app, sock_recvs_app, Ha, Hc, I2. cbn.
    repeat split.
    + apply only_last_fatal_cons; assumption.
    + intros x Hx. destruct (I3 x Hx) as [pre [e [Hp Ht]]].
      exists (a :: pre), e. rewrite Hp. split; [reflexivity | assumption].
Qed.

(** A pass that has received can be followed to its end. *)
Lemma reader_pass_complete f (w : W) (self : Demo) (s : handle) tr w' a :
  __sock self = Some s ->
  execute h f (loop_step sock_recv_iteration self) w = Obs tr w' None ->
  sock_recv_answers tr = [a] ->
  exists tr6 w6 x,
    execute h 6 (loop_step sock_recv_iteration self) w = Obs tr6 w6 (Some x) /\
    sock_recv_answers tr6 = [a] /\
    sock_recvs tr6 = [(s, 1024)] /\
    match x with
    | inl self' => self' = self /\ fatal a = false
    | inr _ => fatal a = true
    end.
Proof.
  intros Hs E Ha.
  assert (Hf : (f <= 6)%nat).
  { destruct (le_lt_dec f 6) as [Hle|Hlt]; [assumption|].
    exfalso. apply (loop_step_finishes f w self s Hs); [lia|].
    rewrite E. reflexivity. }
  destruct (execute_prefix h f 6 (loop_step sock_recv_iteration self) w Hf) as [post Hp].
  rewrite E in Hp. cbn [obs_trace] in Hp.
  pose proof (reader_step 6 w self s Hs) as H. cbn zeta in H.
  pose proof (loop_step_finishes 6 w self s Hs (le_n 6)) as Hfin.
  destruct (execute h 6 (loop_step sock_recv_iteration self) w) as [tr6 w6 [x|]] eqn:E6;
    [|exfalso; apply Hfin; reflexivity].
  cbn [obs_trace obs_result obs_world] in H, Hp. subst tr6.
  rewrite sock_recv_answers_app, Ha in H.
  exists (tr ++ post), w6, x. split; [reflexivity|].
  rewrite sock_recv_answers_app, Ha.
  destruct x as [self'|[self' r]].
  - destruct H as [-> [a' [Ha' [Hfa Hc]]]]. inversion Ha'; subst.
    repeat split; try assumption. rewrite H1. reflexivity.
  - destruct H as [-> [e [Ha' [Ht Hc]]]]. inversion Ha'; subst.
    repeat split; try assumption.
    + rewrite H1. reflexivity.
    + cbn. rewrite Ht. reflexivity.
Qed.

Lemma app_singleton_inv {A} (pre : list A) x y :
  [y] = pre ++ [x] -> pre = [] /\ y = x.
Proof.
  destruct pre as [|p pre]; cbn; intros E; inversion E; subst.
  - split; reflexivity.
  - destruct pre; discriminate.
Qed.

Lemma cons_app_last_inv {A} (a : A) l pre x :
  a :: l = pre ++ [x] -> l <> [] -> exists pre', pre = a :: pre' /\ l = pre' ++ [x].
Proof.
  destruct pre as [|p pre]; cbn; intros E Hl; inversion E; subst.
  - exfalso. apply Hl. reflexivity.
  - exists pre. split; reflexivity.
Qed.

(** After a fatal answer the loop returns, with no further receive. *)
Lemma reader_fatal_completes (self : Demo) (s : handle) w tr w' r :
  iter_obs h (loop_step sock_recv_iteration) self w tr w' r ->
  __sock self = Some s ->
  forall pre e,
    sock_recv_answers tr = pre ++ [Raised e] ->
    timeout_class e = false ->
    exists tr' w'' r',
      iter_obs h (loop_step sock_recv_iteration) self w tr' w'' (Some r') /\
      sock_recv_answers tr' = sock_recv_answers tr.
Proof.
  intros Hobs.
  induction Hobs as [i w f tr w' E | i w f tr w' r0 E
                    | i w f tr1 w1 i' tr2 w' r0 E Hrest IH]; intros Hs pre e Hans Ht.
  - pose proof (reader_step f w i s Hs) as H. cbn zeta in H. rewrite E in H.
    cbn [obs_trace obs_result obs_world] in H.
    destruct H as [-> | [a [Ha Hc]]].
    + destruct pre; discriminate Hans.
    + rewrite Ha in Hans. apply app_singleton_inv in Hans. destruct Hans as [-> ->].
      destruct (reader_pass_complete f w i s tr w' (Raised e) Hs E Ha)
        as (tr6 & w6 & x & E6 & Ha6 & _ & Hx).
      destruct x as [self'|r'].
      * destruct Hx as [_ Hf]. cbn in Hf. rewrite Ht in Hf. discriminate Hf.
      * exists tr6, w6, r'. split; [eapply iter_stop; eassumption|].
        rewrite Ha6, Ha. reflexivity.
  - exists tr, w', r0. split; [eapply iter_stop; eassumption | reflexivity].
  - pose proof (reader_step f w i s Hs) as H. cbn zeta in H. rewrite E in H.
    cbn [obs_trace obs_result obs_world] in H.
    destruct H as [-> [a [Ha [Hf Hc]]]].
    rewrite sock_recv_answers_app, Ha in Hans. cbn in Hans.
    destruct (sock_recv_answers tr2) as [|a2 ans2] eqn:E2.
    + apply app_singleton_inv in Hans. destruct Hans as [_ ->].
      cbn in Hf. rewrite Ht in Hf. discriminate Hf.
    + apply cons_app_last_inv in Hans; [|discriminate].
      destruct Hans as [pre' [-> Hans]].
      destruct (IH Hs pre' e Hans Ht) as (tr' & w'' & r' & Hobs' & Ha').
      exists (tr1 ++ tr'), w'', r'. split; [eapply iter_next; eassumption|].
      rewrite !sock_recv_answers_app, Ha', E2. reflexivity.
Qed.

(** After a timeout the loop receives again. *)
Lemma reader_timeout_retries (self : Demo) (s : handle) w tr w' r :
  iter_obs h (loop_step sock_recv_iteration) self w tr w' r ->
  __sock self = Some s ->
  forall pre e,
    sock_recv_answers tr = pre ++ [Raised e] ->
    timeout_class e = true ->
    exists tr' w'' r',
      iter_obs h (loop_step sock_recv_iteration) self w tr' w'' r' /\
      List.length (sock_recvs tr') = S (List.length (sock_recv_answers tr)).
Proof.
  intros Hobs.
  induction Hobs as [i w f tr w' E | i w f tr w' r0 E
                    | i w f tr1 w1 i' tr2 w' r0 E Hrest IH]; intros Hs pre e Hans Ht.
  - pose proof (reader_step f w i s Hs) as H. cbn zeta in H. rewrite E in H.
    cbn [obs_trace obs_result obs_world] in H.
    destruct H as [-> | [a [Ha Hc]]].
    + destruct pre; discriminate Hans.
    + rewrite Ha in Hans. apply app_singleton_inv in Hans. destruct Hans as [-> ->].
      destruct (reader_pass_complete f w i s tr w' (Raised e) Hs E Ha)
        as (tr6 & w6 & x & E6 & Ha6 & Hc6 & Hx).
      destruct x as [self'|r'].
      * destruct Hx as [-> _].
        pose proof (execute_iter_obs h (loop_step sock_recv_iteration) 1 i w6) as Hnext.
        cbn zeta in Hnext.
        eexists _, _, _. split; [eapply iter_next; [exact E6 | exact Hnext]|].
        rewrite sock_recvs_app, Hc6, (reader_first_call w6 i s Hs), Ha. reflexivity.
      * cbn in Hx. rewrite Ht in Hx. discriminate Hx.
  - pose proof (reader_step f w i s Hs) as H. cbn zeta in H. rewrite E in H.
    cbn [obs_trace obs_result obs_world] in H.
    destruct r0 as [self' r0]. destruct H as [_ [e' [Ha [Ht' Hc]]]].
    rewrite Ha in Hans. apply app_singleton_inv in Hans. destruct Hans as [_ Heq].
    inversion Heq; subst. rewrite Ht in Ht'. discriminate Ht'.
  - pose proof (reader_step f w i s Hs) as H. cbn zeta in H. rewrite E in H.
    cbn [obs_trace obs_result obs_world] in H.
    destruct H as [-> [a [Ha [Hf Hc]]]].
    rewrite sock_recv_answers_app, Ha in Hans. cbn in Hans.
    destruct (sock_recv_answers tr2) as [|a2 ans2] eqn:E2.
    + pose proof (execute_iter_obs h (loop_step sock_recv_iteration) 1 i w1) as Hnext.
      cbn zeta in Hnext.
      eexists _, _, _. split; [eapply iter_next; [exact E | exact Hnext]|].
      rewrite sock_recvs_app, Hc, (reader_first_call w1 i s Hs).
      rewrite sock_recv_answers_app, Ha, E2. reflexivity.
    + apply cons_app_last_inv in Hans; [|discriminate].
      destruct Hans as [pre' [-> Hans]].
      destruct (IH Hs pre' e Hans Ht) as (tr' & w'' & r' & Hobs' & Hl').
      exists (tr1 ++ tr'), w'', r'. split; [eapply iter_next; eassumption|].
      rewrite sock_recvs_app, Hc, sock_recv_answers_app, Ha, E2. cbn.
      rewrite Hl'. reflexivity.
Qed.

(** C3: in every observation of the reader loop, a fatal receive error is
    the last receive made; the loop has returned only after one; once one
    is observed the loop returns and no later observation shows another
    receive; and after a timeout the loop has not returned and receives
    again. *)
Theorem reader_loop_timeout_and_fatal (w : W) (self : Demo) (s : handle) (fuel : nat) :
  __sock self = Some s ->
  let o := execute h fuel (__sock_recv_thread_worker self) w in
  let ans := sock_recv_answers (obs_trace o) in
  sock_recvs (obs_trace o) = repeat (s, 1024) (List.length ans) /\
  (forall pre e post,
      ans = pre ++ Raised e :: post -> timeout_class e = false -> post = []) /\
  (finished o = true ->
      exists pre e, ans = pre ++ [Raised e] /\ timeout_class e = false) /\
  (forall pre e,
      ans = pre ++ [Raised e] -> timeout_class e = false ->
      exists fuel', forall fuel'',
        (fuel' <= fuel'')%nat ->
        let o'' := execute h fuel'' (__sock_recv_thread_worker self) w in
        finished o'' = true /\ sock_recv_answers (obs_trace o'') = ans) /\
  (forall pre e,
      ans = pre ++ [Raised e] -> timeout_class e = true ->
      finished o = false /\
      exists fuel',
        (List.length ans <
         List.length (sock_recvs (obs_trace (execute h fuel' (__sock_recv_thread_worker self) w))))%nat).
Proof.
  intros Hs. cbn zeta. unfold __sock_recv_thread_worker, while_true.
  pose proof (execute_iter_obs h (loop_step sock_recv_iteration) fuel self w) as Hobs.
  cbn zeta in Hobs.
  destruct (reader_safety self s _ _ _ _ Hobs Hs) as (I1 & I2 & I3).
  split; [exact I2|].
  split; [exact (only_last_fatal_split _ I1)|].
  assert (Hb : finished (execute h fuel (ITree.iter (loop_step sock_recv_iteration) self) w) = true ->
               exists pre e,
                 sock_recv_answers (obs_trace (execute h fuel (ITree.iter (loop_step sock_recv_iteration) self) w))
                 = pre ++ [Raised e] /\ timeout_class e = false).
  { unfold finished. intros Hfin.
    destruct (obs_result (execute h fuel (ITree.iter (loop_step sock_recv_iteration) self) w))
      as [x|] eqn:Er; [|discriminate Hfin].
    apply (I3 x eq_refl). }
  split; [exact Hb|].
  split.
  - intros pre e Hans Ht.
    destruct (reader_fatal_completes self s _ _ _ _ Hobs Hs pre e Hans Ht)
      as (tr' & w'' & r' & Hobs' & Ha').
    destruct (iter_obs_execute h _ _ _ _ _ _ Hobs') as [f' E'].
    exists f'. intros f'' Hle. cbn zeta.
    rewrite (execute_mono h f' f'' _ _ _ _ _ E' Hle). cbn.
    split; [reflexivity | exact Ha'].
  - intros pre e Hans Ht. split.
    + destruct (finished (execute h fuel (ITree.iter (loop_step sock_recv_iteration) self) w))
        eqn:Hfin; [|reflexivity].
      destruct (Hb eq_refl) as [pre' [e' [Hans' Ht']]].
      rewrite Hans in Hans'. apply app_inj_tail in Hans'. destruct Hans' as [_ Heq].
      inversion Heq; subst. rewrite Ht in Ht'. discriminate Ht'.
    + destruct (reader_timeout_retries self s _ _ _ _ Hobs Hs pre e Hans Ht)
        as (tr' & w'' & r' & Hobs' & Hl').
      destruct (iter_obs_prefix h _ _ _ _ _ _ Hobs') as [f' [post Hp]].
      exists f'. rewrite Hp, sock_recvs_app, length_app, Hl'. lia.
Qed.
End ReaderLoop.

Section ReaderData.
Context {W : Type} (h : handler W).

Lemma uart_writes_app tr1 tr2 :
  uart_writes (tr1 ++ tr2) = uart_writes tr1 ++ uart_writes tr2.
Proof. apply flat_map_app. Qed.

Lemma returned_data_app l1 l2 :
  returned_data (l1 ++ l2) = returned_data l1 ++ returned_data l2.
Proof. apply flat_map_app. Qed.

(** In one pass, what was received is written, unless the run stops
    between the two calls. *)
Lemma reader_step_writes f (w : W) (self : Demo) (s u : handle) :
  __sock self = Some s ->
  __uart self = Some u ->
  let o := execute h f (loop_step sock_recv_iteration self) w in
  exists pending,
    uart_writes (obs_trace o) ++ pending =
      List.map (pair u) (returned_data (sock_recv_answers (obs_trace o))) /\
    (pending = [] \/ obs_result o = None /\ exists b, pending = [(u, b)]).
Proof.
  intros Hs Hu. cbn zeta. unfold loop_step.
  rewrite execute_bind_Ret_map. cbn [obs_trace obs_result].
  destruct (sock_recv_pass h f w self s Hs) as (P1 & _ & _ & P4 & P5 & _).
  rewrite Hu in P5.
  destruct P1 as [[Hn _] | [a [Ha _]]].
  - rewrite Hn. exists []. split; [reflexivity | left; reflexivity].
  - rewrite Ha. destruct a as [b|e].
    + destruct (P5 b Ha) as [Hw | [Hw Hr]]; rewrite Hw.
      * exists []. split; [reflexivity | left; reflexivity].
      * exists [(u, b)]. split; [reflexivity|]. right. rewrite Hr.
        split; [reflexivity | exists b; reflexivity].
    + rewrite (P4 e Ha). exists []. split; [reflexivity | left; reflexivity].
Qed.

Lemma reader_writes (self : Demo) (s u : handle) w tr w' r :
  iter_obs h (loop_step sock_recv_iteration) self w tr w' r ->
  __sock self = Some s ->
  __uart self = Some u ->
  exists pending,
    uart_writes tr ++ pending = List.map (pair u) (returned_data (sock_recv_answers tr)) /\
    (pending = [] \/ r = None /\ exists b, pending = [(u, b)]).
Proof.
  intros Hobs.
  induction Hobs as [i w f tr w' E | i w f tr w' r0 E
                    | i w f tr1 w1 i' tr2 w' r0 E Hrest IH]; intros Hs Hu.
  - pose proof (reader_step_writes f w i s u Hs Hu) as H. cbn zeta in H.
    rewrite E in H. cbn [obs_trace obs_result] in H.
    destruct H as [pending [Hw Hp]]. exists pending. split; [exact Hw|].
    destruct Hp as [-> | [_ Hb]]; [left; reflexivity | right; split; [reflexivity | exact Hb]].
  - pose proof (reader_step_writes f w i s u Hs Hu) as H. cbn zeta in H.
    rewrite E in H. cbn [obs_trace obs_result] in H.
    destruct H as [pending [Hw [-> | [Hn _]]]]; [|discriminate Hn].
    exists []. split; [exact Hw | left; reflexivity].
  - pose proof (reader_step_writes f w i s u Hs Hu) as H. cbn zeta in H.
    rewrite E in H. cbn [obs_trace obs_result] in H.
    destruct H as [pending [Hw [-> | [Hn _]]]]; [|discriminate Hn].
    rewrite app_nil_r in Hw.
    pose proof (reader_step h f w i s Hs) as H. cbn zeta in H. rewrite E in H.
    cbn [obs_trace obs_result obs_world] in H. destruct H as [-> _].
    destruct (IH Hs Hu) as [pending [Hw2 Hp]].
    exists pending. split; [|exact Hp].
    rewrite uart_writes_app, sock_recv_answers_app, returned_data_app, map_app.
    rewrite <- app_assoc, Hw2, Hw. reflexivity.
Qed.

(** C2: what one pass of the reader receives it writes to the UART once
    and unchanged; over the whole loop the writes are the received data,
    in order, the last one possibly still to come. *)
Theorem reader_writes_received_data_once (w : W) (self : Demo) (s u : handle) :
  __sock self = Some s ->
  __uart self = Some u ->
  (let o := execute h budget (sock_recv_iteration self) w in
   finished o = true /\
   forall b : bytes,
     sock_recv_answers (obs_trace o) = [Returned b] ->
     uart_writes (obs_trace o) = [(u, b)]) /\
  (forall fuel,
     let o := execute h fuel (__sock_recv_thread_worker self) w in
     exists pending,
       uart_writes (obs_trace o) ++ pending =
         List.map (pair u) (returned_data (sock_recv_answers (obs_trace o))) /\
       (pending = [] \/ finished o = false /\ exists b, pending = [(u, b)])).
Proof.
  intros Hs Hu. split.
  - cbn zeta.
    destruct (sock_recv_pass h budget w self s Hs) as (_ & _ & _ & _ & P5 & P6).
    assert (Hfin : finished (execute h budget (sock_recv_iteration self) w) = true)
      by (apply P6; unfold budget; lia).
    split; [exact Hfin|].
    intros b Hb. rewrite Hu in P5.
    destruct (P5 b Hb) as [Hw | [_ Hr]]; [exact Hw|].
    unfold finished in Hfin. rewrite Hr in Hfin. discriminate Hfin.
  - intros fuel. cbn zeta. unfold __sock_recv_thread_worker, while_true.
    pose proof (execute_iter_obs h (loop_step sock_recv_iteration) fuel self w) as Hobs.
    cbn zeta in Hobs.
    destruct (reader_writes self s u _ _ _ _ Hobs Hs Hu) as [pending [Hw Hp]].
    exists pending. split; [exact Hw|].
    destruct Hp as [-> | [Hr Hb]]; [left; reflexivity|].
    right. split; [|exact Hb]. unfold finished. rewrite Hr. reflexivity.
Qed.

(** C8: a receive that returns empty bytes is written to the UART like
    any other and the pass asks for the next one; the loop returns only
    after a receive has raised an error that is not a timeout. *)
Theorem reader_empty_read_continues (w : W) (self : Demo) (s u : handle) :
  __sock self = Some s ->
  __uart self = Some u ->
  (let o := execute h budget (sock_recv_iteration self) w in
   sock_recv_answers (obs_trace o) = [Returned []] ->
   uart_writes (obs_trace o) = [(u, [])] /\
   obs_result o = Some (self, Returned Continue)) /\
  (forall fuel,
     let o := execute h fuel (__sock_recv_thread_worker self) w in
     finished o = true ->
     exists pre e,
       sock_recv_answers (obs_trace o) = pre ++ [Raised e] /\
       timeout_class e = false).
Proof.
  intros Hs Hu. split.
  - cbn zeta. intros Ha.
    destruct (sock_recv_pass h budget w self s Hs) as (_ & P2 & _ & _ & P5 & P6).
    assert (Hfin : finished (execute h budget (sock_recv_iteration self) w) = true)
      by (apply P6; unfold budget; lia).
    unfold finished in Hfin.
    destruct (obs_result (execute h budget (sock_recv_iteration self) w))
      as [[self' r]|] eqn:Er; [|discriminate Hfin].
    rewrite Hu in P5. split.
    + destruct (P5 [] Ha) as [Hw | [_ Hr]]; [exact Hw | discriminate Hr].
    + destruct (P2 self' r eq_refl) as [-> [a [Ha' Hm]]].
      rewrite Ha in Ha'. inversion Ha'; subst a. rewrite Hm. reflexivity.
  - intros fuel. cbn zeta. unfold __sock_recv_thread_worker, while_true.
    pose proof (execute_iter_obs h (loop_step sock_recv_iteration) fuel self w) as Hobs.
    cbn zeta in Hobs.
    destruct (reader_safety h self s _ _ _ _ Hobs Hs) as (_ & _ & I3).
    unfold finished. intros Hfin.
    destruct (obs_result (execute h fuel (ITree.iter (loop_step sock_recv_iteration) self) w))
      as [x|] eqn:Er; [|discriminate Hfin].
    apply (I3 x eq_refl).
Qed.
End ReaderData.

(** ** The LED blink task *)

Ltac board_call :=
  match goal with
  | |- context [execute board_handler (S ?f) (ITree.bind (ITree.trigger ?e) ?k) ?w] =>
      rewrite (execute_bind_trigger board_handler f e k w); cbn
  end.

Ltac board_case :=
  match goal with
  | H : getitem ?c ?k = _ |- context [getitem ?c ?k] =>
      rewrite H; cbn
  | |- context [match getitem ?c ?k with Returned _ => _ | Raised _ => _ end] =>
      destruct (getitem c k) eqn:?; cbn
  | |- context [ai_sockaddr ?a] =>
      let ip := fresh "ip" in
      let port := fresh "port" in
      destruct (ai_sockaddr a) as [ip port] eqn:?; cbn
  | |- context [isinstance_OSError ?e] =>
      is_var e;
      let cls := fresh "cls" in
      let args := fresh "args" in
      destruct e as [cls args]; destruct cls; cbn
  | |- context [args_0 ?e] =>
      unfold args_0; cbn
  | |- context [eq_110 ?a] =>
      is_var a; destruct a; cbn
  | |- context [if ?b then _ else _] => destruct b eqn:?; cbn
  | |- context [match ?o with Some _ => _ | None => _ end] => is_var o; destruct o; cbn
  | |- context [match ?o with Returned _ => _ | Raised _ => _ end] => is_var o; destruct o; cbn
  | |- context [match ?l with [] => _ | _ :: _ => _ end] => destruct l eqn:?; cbn
  end.

Ltac board_all :=
  cbn;
  repeat first [ rewrite execute_bind_bind | rewrite execute_bind_Ret
               | board_call | exec_ret | progress cbn | board_case ].

Lemma NoDup_map_filter {A B} (g : A -> B) (p : A -> bool) (l : list A) :
  NoDup (List.map g l) -> NoDup (List.map g (filter p l)).
Proof.
  induction l as [|x l IH]; cbn; intros H; [constructor|].
  inversion H; subst. destruct (p x); cbn.
  - constructor; [|apply IH; assumption].
    intros Hin. apply H2. apply in_map_iff in Hin. destruct Hin as [y [E Hy]].
    apply filter_In in Hy. apply in_map_iff. exists y. split; [exact E | apply Hy].
  - apply IH; assumption.
Qed.

Section Table.
Variables (tid : option thread_id) (ts : list (thread_id * thread_entry)) (next : thread_id).
Hypothesis Hok : table_ok tid ts next.

Lemma table_ok_running_pos t f : In (t, f) ts -> 0 < t < next.
Proof. destruct Hok as (_ & H & _). apply H. Qed.

Lemma table_ok_start_reader :
  table_ok tid ((next, sock_recv_thread_entry) :: ts) (next + 1).
Proof.
  destruct Hok as (H0 & H1 & H2 & H3). repeat split.
  - lia.
  - destruct H as [E|Hin]; [inversion E; subst; lia | apply H1 in Hin; lia].
  - destruct H as [E|Hin]; [inversion E; subst; lia | apply H1 in Hin; lia].
  - cbn. constructor; [|exact H2].
    intros Hin. apply in_map_iff in Hin. destruct Hin as [[t f] [E Hin]].
    cbn in E. subst t. apply H1 in Hin. lia.
  - intros t f [E|Hin] Hb; [inversion E; subst; discriminate Hb | eapply H3; eassumption].
Qed.

Lemma table_ok_filter p : table_ok tid (filter p ts) next.
Proof.
  destruct Hok as (H0 & H1 & H2 & H3). repeat split.
  - exact H0.
  - apply filter_In in H. destruct H as [Hin _]. apply H1 in Hin. lia.
  - apply filter_In in H. destruct H as [Hin _]. apply H1 in Hin. lia.
  - apply NoDup_map_filter. exact H2.
  - intros t f Hin Hb. apply filter_In in Hin. eapply H3; [apply Hin | exact Hb].
Qed.

(** No blink task runs when the stored identifier does not name one. *)
Lemma table_ok_start_blink on off count :
  match tid with
  | None => True
  | Some t => (t =? 0) = true \/ existsb (fun x => fst x =? t) ts = false
  end ->
  table_ok (Some next) ((next, led_blink_thread_entry on off count) :: ts) (next + 1).
Proof.
  intros Hidle.
  destruct Hok as (H0 & H1 & H2 & H3).
  assert (Hnone : forall t f, In (t, f) ts -> is_blink (t, f) = true -> False).
  { intros t f Hin Hb. pose proof (H3 t f Hin Hb) as E. rewrite E in Hidle.
    destruct Hidle as [Hz | Hr].
    - apply Z.eqb_eq in Hz. apply H1 in Hin. lia.
    - assert (existsb (fun x => fst x =? t) ts = true).
      { apply existsb_exists. exists (t, f). split; [exact Hin | apply Z.eqb_refl]. }
      congruence. }
  repeat split.
  - lia.
  - destruct H as [E|Hin]; [inversion E; subst; lia | apply H1 in Hin; lia].
  - destruct H as [E|Hin]; [inversion E; subst; lia | apply H1 in Hin; lia].
  - cbn. constructor; [|exact H2].
    intros Hin. apply in_map_iff in Hin. destruct Hin as [[t f] [E Hin]].
    cbn in E. subst t. apply H1 in Hin. lia.
  - intros t f [E|Hin] Hb; [inversion E; subst; reflexivity | exfalso; eapply Hnone; eassumption].
Qed.

Lemma table_ok_at_most_one : (List.length (filter is_blink ts) <= 1)%nat.
Proof.
  destruct Hok as (_ & _ & H2 & H3).
  assert (Hsame : forall x y, In x (filter is_blink ts) -> In y (filter is_blink ts) ->
                              fst x = fst y).
  { intros [t f] [t' f'] Hx Hy. apply filter_In in Hx, Hy.
    destruct Hx as [Hx Hbx], Hy as [Hy Hby].
    pose proof (H3 t f Hx Hbx) as E1. pose proof (H3 t' f' Hy Hby) as E2.
    cbn. congruence. }
  assert (Hnd : NoDup (List.map fst (filter is_blink ts))).
  { apply NoDup_map_filter. exact H2. }
  destruct (filter is_blink ts) as [|x [|y l]]; cbn; try lia.
  exfalso. cbn in Hnd. inversion Hnd; subst. apply H1. left.
  symmetry. apply Hsame; cbn; auto.
Qed.
End Table.

Ltac table_solve Hok :=
  first
    [ exact Hok
    | apply table_ok_start_reader; exact Hok
    | eapply table_ok_start_blink; [exact Hok | cbn; first [exact I | left; assumption | right; assumption]] ].

Ltac method_ok m_unfold :=
  let Hok := fresh "Hok" in
  intros [[nm cfg uo so led tid] b] Hok;
  unfold threads_ok, run_method in *; cbn [sys_demo sys_board] in *;
  remember (execute board_handler budget _ b) as o eqn:E; symmetry in E; revert E;
  unfold budget; m_unfold; unfold_M;
  board_all;
  intros <-; cbn;
  unfold thread_is_running in *;
  table_solve Hok.

Lemma blink_threads_ok on off count s :
  threads_ok s -> threads_ok (fst (run_method (blink on off count) s)).
Proof. revert s. method_ok ltac:(unfold blink). Qed.

Lemma uart_cb_threads_ok args s :
  threads_ok s -> threads_ok (fst (run_method (__uart_cb args) s)).
Proof. revert s. method_ok ltac:(unfold __uart_cb, blink). Qed.

Lemma reader_pass_threads_ok s :
  threads_ok s -> threads_ok (fst (run_method sock_recv_iteration s)).
Proof. revert s. method_ok ltac:(unfold sock_recv_iteration). Qed.

Lemma run_threads_ok s :
  threads_ok s -> threads_ok (fst (run_method run s)).
Proof. revert s. method_ok ltac:(unfold run, open_serial, connect_cloud, config_get). Qed.

Lemma sys_step_threads_ok ev s :
  threads_ok s -> threads_ok (sys_step ev s).
Proof.
  intros Hok. destruct ev; cbn [sys_step].
  - apply run_threads_ok. exact Hok.
  - apply uart_cb_threads_ok. exact Hok.
  - apply blink_threads_ok. exact Hok.
  - destruct (existsb is_reader (threads (sys_board s))); [|exact Hok].
    pose proof (reader_pass_threads_ok s Hok) as H.
    destruct (run_method sock_recv_iteration s) as [s' r]. cbn [fst] in H.
    assert (Hf : threads_ok
                   (mkSystem (sys_demo s')
                      (set_threads (filter (fun t => negb (is_reader t)) (threads (sys_board s')))
                                   (sys_board s')))).
    { unfold threads_ok in *. cbn. apply table_ok_filter. exact H. }
    destruct r as [[[|]|e]|]; assumption.
  - unfold threads_ok in *. cbn. apply table_ok_filter. exact Hok.
  - exact Hok.
  - exact Hok.
Qed.

Lemma sys_run_threads_ok evs s :
  threads_ok s -> threads_ok (sys_run evs s).
Proof.
  revert s. induction evs as [|ev evs IH]; intros s Hok; cbn.
  - exact Hok.
  - apply IH. apply sys_step_threads_ok. exact Hok.
Qed.

Lemma powered_on_threads_ok s : powered_on s -> threads_ok s.
Proof.
  intros (Htid & Hts & Hnext). unfold threads_ok, table_ok. rewrite Hts.
  repeat split; try assumption; try contradiction. constructor.
Qed.

(** A running blink task is the one whose identifier is stored. *)
Lemma blink_task_stored s :
  threads_ok s ->
  blink_tasks s <> [] ->
  exists t, __led_blink_thread_id (sys_demo s) = Some t /\
            (t =? 0) = false /\
            thread_is_running t (sys_board s) = true.
Proof.
  intros (_ & H1 & _ & H3) Hne. unfold blink_tasks in Hne.
  destruct (filter is_blink (threads (sys_board s))) as [|[t f] l] eqn:E; [contradiction|].
  assert (Hin : In (t, f) (filter is_blink (threads (sys_board s)))) by (rewrite E; left; reflexivity).
  apply filter_In in Hin. destruct Hin as [Hin Hb].
  exists t. split; [eapply H3; eassumption|]. split.
  - apply H1 in Hin. apply Z.eqb_neq. lia.
  - unfold thread_is_running. apply existsb_exists. exists (t, f).
    split; [exact Hin | apply Z.eqb_refl].
Qed.

Lemma blink_request_noop on off count s :
  threads_ok s ->
  blink_tasks s <> [] ->
  sys_step (BlinkRequest on off count) s = s.
Proof.
  intros Hok Hne.
  destruct (blink_task_stored s Hok Hne) as (t & Htid & Hz & Hrun).
  destruct s as [[nm cfg uo so led tid] b]. cbn in Htid, Hrun. subst tid.
  cbn [sys_step]. unfold run_method. cbn [sys_demo sys_board].
  remember (execute board_handler budget _ b) as o eqn:E. symmetry in E. revert E.
  unfold budget, blink. unfold_M.
  board_all.
  all: intros <-; cbn; try congruence.
Qed.

Lemma uart_data_keeps_blink_task data s :
  threads_ok s ->
  blink_tasks s <> [] ->
  blink_tasks (sys_step (UartData data) s) = blink_tasks s.
Proof.
  intros Hok Hne.
  destruct (blink_task_stored s Hok Hne) as (t & Htid & Hz & Hrun).
  destruct s as [[nm cfg uo so led tid] b]. cbn in Htid, Hrun. subst tid.
  cbn [sys_step]. unfold run_method, blink_tasks. cbn [sys_demo sys_board].
  unfold thread_is_running in Hrun.
  remember (execute board_handler budget _ _) as o eqn:E. symmetry in E. revert E.
  unfold budget, __uart_cb, blink. unfold_M.
  board_all.
  all: intros <-; cbn; unfold thread_is_running in *; cbn in *; try congruence.
Qed.

Lemma execute_Tau {W R} (h : handler W) f (t : itree ioE R) w :
  execute h (S f) (Tau t) w = execute h f t w.
Proof. reflexivity. Qed.

(** Started with [count], the worker switches the LED on and off [count]
    times, sleeping in between, and returns. *)
Lemma led_blink_worker_runs on off self b n :
  forall count,
    Z.to_nat count = n ->
    execute board_handler (5 * n + 2) (led_blink_thread_worker on off count self) b =
    Obs (blink_cycles (__led self) on off n) b (Some (self, Returned (Z.min count 0))).
Proof.
  unfold led_blink_thread_worker, while_cond.
  match goal with
  | |- context [ITree.iter ?step _] => remember (ITree.iter step) as loop eqn:El
  end.
  assert (Hunf : forall f i w,
             execute board_handler f (loop i) w =
             execute board_handler f
               (ITree.bind
                  (let '(self, s) := i in
                   if s >? 0 then
                     ITree.bind
                       ((led <- get __led ;; call (PinWrite led 1) ;; call (SleepMs on) ;;
                         led <- get __led ;; call (PinWrite led 0) ;; call (SleepMs off) ;;
                         ret (s - 1))%py self)
                       (fun '(self', o) =>
                          match o with
                          | Returned s' => Ret (inl (self', s'))
                          | Raised e => Ret (inr (self', Raised e))
                          end)
                   else Ret (inr (self, Returned s)))
                  (fun lr => match lr with
                             | inl l => Tau (loop l)
                             | inr r => Ret r
                             end)) w).
  { intros f i w. rewrite El. apply execute_iter. }
  clear El.
  induction n as [|n IH]; intros count Hn.
  - assert (Hc : (count >? 0) = false) by (rewrite Z.gtb_ltb; apply Z.ltb_ge; lia).
    rewrite Hunf. cbn [Nat.mul Nat.add]. rewrite Hc.
    rewrite execute_bind_Ret. cbn.
    replace (Z.min count 0) with count by lia. reflexivity.
  - assert (Hc : (count >? 0) = true) by (rewrite Z.gtb_ltb; apply Z.ltb_lt; lia).
    replace (5 * S n + 2)%nat with (S (S (S (S (S (5 * n + 2)))))) by lia.
    rewrite Hunf. rewrite Hc. unfold_M.
    repeat first [ rewrite execute_bind_bind | rewrite execute_bind_Ret
                 | board_call | progress cbn [fst snd __led] ].
    rewrite execute_Tau, IH by lia.
    cbn. replace (Z.min (count - 1) 0) with (Z.min count 0) by lia. reflexivity.
Qed.
(** What [blink] does when the stored identifier names a running thread,
    whatever the environment. *)
Lemma blink_suppressed {W} (h : handler W) (w : W) (self : Demo) (t : thread_id)
      (on off count : Z) :
  __led_blink_thread_id self = Some t ->
  t <> 0 ->
  fst (h _ (ThreadIsRunning t) w) = Returned true ->
  execute h budget (blink on off count self) w =
  Obs [Step (ThreadIsRunning t) (Returned true)]
      (snd (h _ (ThreadIsRunning t) w))
      (Some (self, Returned tt)).
Proof.
  intros Htid Hz Hrun.
  destruct self as [nm cfg uo so led tid]; cbn in Htid; subst tid.
  apply Z.eqb_neq in Hz. revert Hrun.
  unfold budget, blink. unfold_M.
  exec_all.
  all: try congruence.
  all: intros Hrun; try discriminate Hrun; inversion Hrun; subst.
  all: try discriminate.
  reflexivity.
Qed.

(** C4: on the simulated module, in every state reached from power-on at
    most one blink task is running; while one is running, a blink request
    (direct, or through a UART notification) changes nothing, so the running
    task keeps its entry with its parameters; and a task with parameters
    [(on, off, count)] makes [count] on/off cycles and returns.  The guard
    itself, for any environment: a stored, non-zero identifier that
    [threadIsRunning] confirms makes [blink] return after that one call. *)
Theorem blink_at_most_one_task (s0 : system) (evs : list sys_event) :
  powered_on s0 ->
  let s := sys_run evs s0 in
  (List.length (blink_tasks s) <= 1)%nat /\
  (forall on off count,
      blink_tasks s <> [] ->
      sys_step (BlinkRequest on off count) s = s) /\
  (forall data,
      blink_tasks s <> [] ->
      blink_tasks (sys_step (UartData data) s) = blink_tasks s) /\
  (forall on off count self b,
      execute board_handler (5 * Z.to_nat count + 2)
              (led_blink_thread_worker on off count self) b =
      Obs (blink_cycles (__led self) on off (Z.to_nat count)) b
          (Some (self, Returned (Z.min count 0)))) /\
  (forall W (h : handler W) (w : W) (self : Demo) (t : thread_id) (on off count : Z),
      __led_blink_thread_id self = Some t ->
      t <> 0 ->
      fst (h _ (ThreadIsRunning t) w) = Returned true ->
      execute h budget (blink on off count self) w =
      Obs [Step (ThreadIsRunning t) (Returned true)]
          (snd (h _ (ThreadIsRunning t) w))
          (Some (self, Returned tt))).
Proof.
  intros Hon. cbn zeta.
  pose proof (sys_run_threads_ok evs s0 (powered_on_threads_ok s0 Hon)) as Hok.
  split; [apply (table_ok_at_most_one _ _ _ Hok)|].
  split; [intros on off count; apply blink_request_noop; exact Hok|].
  split; [intros data; apply uart_data_keeps_blink_task; exact Hok|].
  split; [intros on off count self b; apply led_blink_worker_runs; reflexivity|].
  intros W h w self t on off count. apply blink_suppressed.
Qed.

Lemma blink_at_most_one_task_witness :
  let s := sys_run [Run; UartData [Byte.x68; Byte.x69]; UartData [Byte.x68; Byte.x6f]]
                   (mkSystem demo_fresh (board_on [] true [])) in
  (List.length (blink_tasks s) <= 1)%nat /\
  (forall on off count,
      blink_tasks s <> [] ->
      sys_step (BlinkRequest on off count) s = s) /\
  (forall data,
      blink_tasks s <> [] ->
      blink_tasks (sys_step (UartData data) s) = blink_tasks s) /\
  (forall on off count self b,
      execute board_handler (5 * Z.to_nat count + 2)
              (led_blink_thread_worker on off count self) b =
      Obs (blink_cycles (__led self) on off (Z.to_nat count)) b
          (Some (self, Returned (Z.min count 0)))) /\
  (forall W (h : handler W) (w : W) (self : Demo) (t : thread_id) (on off count : Z),
      __led_blink_thread_id self = Some t ->
      t <> 0 ->
      fst (h _ (ThreadIsRunning t) w) = Returned true ->
      execute h budget (blink on off count self) w =
      Obs [Step (ThreadIsRunning t) (Returned true)]
          (snd (h _ (ThreadIsRunning t) w))
          (Some (self, Returned tt))).
Proof.
  apply (blink_at_most_one_task (mkSystem demo_fresh (board_on [] true []))).
  repeat split; reflexivity.
Defined.

(** The scenario of the specification on the simulated module: after
    [run()] with the peer reachable, the bytes "hello" arriving on the UART
    are sent once and one blink task with (50, 50, 20) is started, next to
    the reader. *)
Example hello_end_to_end :
  let s := sys_run [Run; UartData hello] (mkSystem demo_fresh (board_on [] true [])) in
  sock_tx (sys_board s) = [hello] /\
  threads (sys_board s) = [(2, led_blink_thread_entry 50 50 20); (1, sock_recv_thread_entry)] /\
  __led_blink_thread_id (sys_demo s) = Some 2.
Proof. vm_compute. repeat split. Qed.
(** ** The configuration *)

Ltac keeps_config_by m_unfold :=
  match goal with
  | |- keeps_config ?self (execute ?h ?f _ ?w) =>
      destruct self as [nm cfg uo so led tid];
      unfold keeps_config;
      remember (execute h f _ w) as o eqn:E; symmetry in E; revert E;
      unfold budget; m_unfold; unfold_M;
      exec_all;
      intros <-; cbn;
      let self' := fresh "self'" in
      let r := fresh "r" in
      let Hr := fresh "Hr" in
      intros self' r Hr; try discriminate Hr; inversion Hr; reflexivity
  end.

Section Config.
Context {W : Type} (h : handler W).

Lemma uart_cb_keeps_config w args self :
  keeps_config self (execute h budget (__uart_cb args self) w).
Proof. keeps_config_by ltac:(unfold __uart_cb, blink). Qed.

Lemma blink_keeps_config w on off count self :
  keeps_config self (execute h budget (blink on off count self) w).
Proof. keeps_config_by ltac:(unfold blink). Qed.

Lemma open_serial_keeps_config w self :
  keeps_config self (execute h budget (open_serial self) w).
Proof. keeps_config_by ltac:(unfold open_serial, config_get). Qed.

Lemma connect_cloud_keeps_config w self :
  keeps_config self (execute h budget (connect_cloud self) w).
Proof. keeps_config_by ltac:(unfold connect_cloud, config_get). Qed.

Lemma run_keeps_config w self :
  keeps_config self (execute h budget (run self) w).
Proof. keeps_config_by ltac:(unfold run, open_serial, connect_cloud, config_get). Qed.
End Config.
Section LoopsKeep.
Context {W : Type} (h : handler W).

(** What every pass preserves holds of the result of the loop. *)
Lemma iter_obs_invariant {I R} (body : I -> itree ioE (I + R))
      (P : I -> Prop) (Q : R -> Prop) :
  (forall f i w tr w' i',
      P i -> execute h f (body i) w = Obs tr w' (Some (inl i')) -> P i') ->
  (forall f i w tr w' r,
      P i -> execute h f (body i) w = Obs tr w' (Some (inr r)) -> Q r) ->
  forall i w tr w' r,
    iter_obs h body i w tr w' (Some r) -> P i -> Q r.
Proof.
  intros Hnext Hstop i w tr w' r Hobs.
  remember (Some r) as res eqn:Er.
  induction Hobs as [i w f tr w' E | i w f tr w' r0 E
                    | i w f tr1 w1 i' tr2 w' r0 E Hrest IH]; intros HP.
  - discriminate Er.
  - inversion Er; subst. eapply Hstop; eassumption.
  - apply (IH Er). eapply Hnext; eassumption.
Qed.

Lemma sock_recv_iteration_keeps_self f w self self' r :
  obs_result (execute h f (sock_recv_iteration self) w) = Some (self', r) ->
  self' = self.
Proof.
  destruct self as [nm cfg uo so led tid].
  remember (execute h f _ w) as o eqn:E. symmetry in E. revert E.
  unfold sock_recv_iteration. unfold_M.
  exec_all.
  all: intros <-; cbn; intros Hr; try discriminate Hr; inversion Hr; reflexivity.
Qed.

Lemma reader_keeps_config fuel w self :
  keeps_config self (execute h fuel (__sock_recv_thread_worker self) w).
Proof.
  unfold keeps_config, __sock_recv_thread_worker, while_true. intros self' r Hr.
  pose proof (execute_iter_obs h (loop_step sock_recv_iteration) fuel self w) as Hobs.
  cbn zeta in Hobs. rewrite Hr in Hobs.
  apply (iter_obs_invariant (loop_step sock_recv_iteration)
           (fun i => config i = config self)
           (fun x => config (fst x) = config self)
           ) with (r := (self', r)) in Hobs; [exact Hobs | | | reflexivity].
  - intros f i w0 tr w' i' HP E.
    unfold loop_step in E. rewrite execute_bind_Ret_map in E.
    inversion E as [[Ht Hw Hres]].
    destruct (obs_result (execute h f (sock_recv_iteration i) w0)) as [[s1 o1]|] eqn:Eo;
      [|discriminate Hres].
    apply sock_recv_iteration_keeps_self in Eo. subst s1.
    cbn in Hres. destruct o1 as [[|]|e]; inversion Hres; subst. exact HP.
  - intros f i w0 tr w' x HP E.
    unfold loop_step in E. rewrite execute_bind_Ret_map in E.
    inversion E as [[Ht Hw Hres]].
    destruct (obs_result (execute h f (sock_recv_iteration i) w0)) as [[s1 o1]|] eqn:Eo;
      [|discriminate Hres].
    apply sock_recv_iteration_keeps_self in Eo. subst s1.
    cbn in Hres. destruct o1 as [[|]|e]; inversion Hres; subst; exact HP.
Qed.

Lemma led_worker_keeps_config fuel w on off count self :
  keeps_config self (execute h fuel (led_blink_thread_worker on off count self) w).
Proof.
  unfold keeps_config, led_blink_thread_worker, while_cond. intros self' r Hr.
  match type of Hr with
  | context [ITree.iter ?step _] =>
      pose proof (execute_iter_obs h step fuel (self, count) w) as Hobs
  end.
  cbn zeta in Hobs. rewrite Hr in Hobs.
  match type of Hobs with
  | iter_obs _ ?step _ _ _ _ _ =>
      apply (iter_obs_invariant step
               (fun i => config (fst i) = config self)
               (fun x => config (fst x) = config self))
        with (r := (self', r)) in Hobs; [exact Hobs | | | reflexivity]
  end.
  - intros f [[nm cfg uo so led tid] c] w0 tr w' i' HP.
    remember (execute h f _ w0) as o eqn:E. symmetry in E. revert E.
    unfold_M. exec_all.
    all: intros <-; intros E; try discriminate E; inversion E; subst; exact HP.
  - intros f [[nm cfg uo so led tid] c] w0 tr w' x HP.
    remember (execute h f _ w0) as o eqn:E. symmetry in E. revert E.
    unfold_M. exec_all.
    all: intros <-; intros E; try discriminate E; inversion E; subst; exact HP.
Qed.
End LoopsKeep.
(** [Demo(name)] keeps [DEMO_CONFIG] as its configuration. *)
Lemma Demo_init_default_config {W} (h : handler W) (w : W) (nm : pyval) (d : Demo) :
  obs_result (execute h budget (Demo_init nm None) w) = Some (Returned d) ->
  config d = DEMO_CONFIG.
Proof.
  remember (execute h budget _ w) as o eqn:E. symmetry in E. revert E.
  unfold budget, Demo_init. cbn.
  exec_all.
  all: intros <-; cbn; intros Hr; try discriminate Hr; inversion Hr; reflexivity.
Qed.

(** C7, as stated, fails on the script's configuration: the server port is
    the string ["8305"], so the record does not have the declared shape. *)
Lemma demo_config_port_is_not_int :
  declared_shape DEMO_CONFIG = false /\
  exists server,
    getitem DEMO_CONFIG "SERVER" = Returned server /\
    getitem server "port" = Returned (VStr "8305") /\
    is_int (VStr "8305") = false.
Proof.
  split; [reflexivity|].
  eexists. split; [reflexivity|]. split; reflexivity.
Qed.

(** C7, amended: the configuration has the declared shape except that the
    server port is a string (["8305"]); parity and flow control are 0
    (none); the object built without a configuration has [DEMO_CONFIG]; and
    no method, whatever the environment answers, changes [self.config]. *)
Theorem demo_config_shape_and_constancy :
  script_shape DEMO_CONFIG = true /\
  (exists server uart,
      getitem DEMO_CONFIG "SERVER" = Returned server /\
      getitem server "port" = Returned (VStr "8305") /\
      getitem DEMO_CONFIG "UART" = Returned uart /\
      getitem uart "parity" = Returned (VInt 0) /\
      getitem uart "flowctl" = Returned (VInt 0)) /\
  (forall W (h : handler W) (w : W) (nm : pyval) (d : Demo),
      obs_result (execute h budget (Demo_init nm None) w) = Some (Returned d) ->
      config d = DEMO_CONFIG) /\
  (forall W (h : handler W) (w : W) (self : Demo),
      keeps_config self (execute h budget (run self) w) /\
      keeps_config self (execute h budget (open_serial self) w) /\
      keeps_config self (execute h budget (connect_cloud self) w) /\
      (forall args, keeps_config self (execute h budget (__uart_cb args self) w)) /\
      (forall on off count,
          keeps_config self (execute h budget (blink on off count self) w)) /\
      (forall fuel,
          keeps_config self (execute h fuel (__sock_recv_thread_worker self) w)) /\
      (forall fuel on off count,
          keeps_config self (execute h fuel (led_blink_thread_worker on off count self) w))).
Proof.
  split; [reflexivity|].
  split; [do 2 eexists; repeat split; reflexivity|].
  split; [intros W h w nm d; apply Demo_init_default_config|].
  intros W h w self.
  split; [apply run_keeps_config|].
  split; [apply open_serial_keeps_config|].
  split; [apply connect_cloud_keeps_config|].
  split; [intros args; apply uart_cb_keeps_config|].
  split; [intros on off count; apply blink_keeps_config|].
  split; [intros fuel; apply reader_keeps_config|].
  intros fuel on off count; apply led_worker_keeps_config.
Qed.
(** ** The theorems at work on the simulated module *)

Lemma reader_writes_received_data_once_witness :
  __sock demo_wired = Some 1%nat /\
  __uart demo_wired = Some 0%nat /\
  uart_writes (obs_trace (execute board_handler budget (sock_recv_iteration demo_wired)
                                  (board_on [] true [Returned hello]))) =
  [(0%nat, hello)].
Proof.
  split; [reflexivity|]. split; [reflexivity|].
  destruct (reader_writes_received_data_once board_handler
              (board_on [] true [Returned hello]) demo_wired 1%nat 0%nat
              eq_refl eq_refl) as [[_ H] _].
  apply H. reflexivity.
Defined.

Lemma reader_loop_timeout_and_fatal_witness :
  __sock demo_wired = Some 1%nat /\
  let b := board_on [] true [Raised (Exn OSError [VInt 110]); Returned hello;
                             Raised (Exn OSError [VInt 104])] in
  let o := execute board_handler 20 (__sock_recv_thread_worker demo_wired) b in
  finished o = true /\
  sock_recvs (obs_trace o) = [(1%nat, 1024); (1%nat, 1024); (1%nat, 1024)].
Proof.
  split; [reflexivity|]. cbn zeta.
  destruct (reader_loop_timeout_and_fatal board_handler
              (board_on [] true [Raised (Exn OSError [VInt 110]); Returned hello;
                                 Raised (Exn OSError [VInt 104])])
              demo_wired 1%nat 20 eq_refl) as [H _].
  split; [reflexivity|]. rewrite H. reflexivity.
Defined.

Lemma connect_cloud_dns_failure_witness :
  let b := mkBoard [] [] [] true [] [] [] 1 in
  let o := execute board_handler budget (connect_cloud demo_fresh) b in
  getaddrinfo_answers (obs_trace o) = [Returned []] /\
  start_new_thread_calls (obs_trace o) = [] /\
  obs_result o = Some (demo_fresh, Returned tt).
Proof.
  cbn zeta. split; [reflexivity|].
  destruct (connect_cloud_dns_failure board_handler (mkBoard [] [] [] true [] [] [] 1)
              demo_fresh eq_refl)
    as (server & host & port & _ & _ & _ & _ & Hn & Hr).
  split; assumption.
Defined.

Lemma reader_empty_read_continues_witness :
  __sock demo_wired = Some 1%nat /\
  __uart demo_wired = Some 0%nat /\
  let o := execute board_handler budget (sock_recv_iteration demo_wired)
                   (board_on [] true [Returned []]) in
  sock_recv_answers (obs_trace o) = [Returned []] /\
  uart_writes (obs_trace o) = [(0%nat, [])] /\
  obs_result o = Some (demo_wired, Returned Continue).
Proof.
  split; [reflexivity|]. split; [reflexivity|]. cbn zeta.
  split; [reflexivity|].
  destruct (reader_empty_read_continues board_handler (board_on [] true [Returned []])
              demo_wired 1%nat 0%nat eq_refl eq_refl) as [H _].
  apply H. reflexivity.
Defined.

Lemma uart_cb_forwards_empty_read_witness :
  __uart demo_wired = Some 0%nat /\
  __sock demo_wired = Some 1%nat /\
  let o := execute board_handler budget (__uart_cb VNone demo_wired) (board_on [] true []) in
  uart_any_answers (obs_trace o) = [Returned 0] /\
  uart_read_answers (obs_trace o) = [Returned []] /\
  uart_reads (obs_trace o) = [(0%nat, 0)] /\
  sock_sends (obs_trace o) = [(1%nat, [])].
Proof.
  split; [reflexivity|]. split; [reflexivity|]. cbn zeta.
  split; [reflexivity|]. split; [reflexivity|].
  destruct (uart_cb_forwards_empty_read board_handler (board_on [] true []) VNone
              demo_wired 0%nat 1%nat eq_refl eq_refl eq_refl eq_refl) as (H1 & H2 & _).
  split; assumption.
Defined.

(** A refused connection leaves the new socket in [__sock]; the next
    notification sends on it, and the send fails. *)
Example refused_connection_keeps_socket :
  let s := sys_run [Run; UartData hello] (mkSystem demo_fresh (board_on [] false [])) in
  __sock (sys_demo s) = Some 1%nat /\
  threads (sys_board s) = [] /\
  sock_tx (sys_board s) = [].
Proof. vm_compute. repeat split. Qed.

(** ** [open_serial] *)

Section OpenSerial.
Context {W : Type} (h : handler W).

(** X1: [open_serial] never raises.  It returns normally for every
    environment, and afterwards [__uart] holds the new UART exactly when
    the constructor [UART(...)] returned one (also when [set_callback] then
    raised); otherwise [__uart] is what it was.  No other attribute
    changes. *)
Theorem open_serial_returns_and_stores (w : W) (self : Demo) :
  let o := execute h budget (open_serial self) w in
  obs_result o =
    Some (with_uart self
            match uart_new_answers (obs_trace o) with
            | [Returned u] => Some u
            | _ => __uart self
            end,
          Returned tt).
Proof.
  destruct self as [nm cfg uo so led tid].
  remember (execute h budget _ w) as o eqn:E. symmetry in E. revert E.
  unfold budget, open_serial, config_get. unfold_M.
  exec_all.
  all: intros <-; reflexivity.
Qed.

(** X2: [open_serial] logs exactly once.  It registers the callback on
    the UART it has just created, logs "open serial successfully." exactly
    when [set_callback] returned, and logs the exception as an error when
    the constructor or [set_callback] raised (the constructor raising means
    no callback is registered).  With the [UART] group configured the
    steps are made: [getattr(UART, 'UART{}'.format(port))] is asked, what it
    returns goes to [UART(...)] with the five other configured values, and
    an exception of [getattr] is logged without the constructor being
    called. *)
Theorem open_serial_registers_and_logs (w : W) (self : Demo) :
  let tr := obs_trace (execute h budget (open_serial self) w) in
  (forall u, uart_new_answers tr = [Returned u] -> uart_set_callbacks tr = [u]) /\
  (uart_set_callback_answers tr = [Returned tt] <->
   logged tr = [(INFO, VStr "open serial successfully.")]) /\
  (forall e, uart_new_answers tr = [Raised e] ->
     uart_set_callbacks tr = [] /\ logged tr = [(ERROR, open_serial_failed e)]) /\
  (forall e, uart_set_callback_answers tr = [Raised e] ->
     logged tr = [(ERROR, open_serial_failed e)]) /\
  List.length (logged tr) = 1%nat /\
  (forall uart port baudrate bytesize parity stopbits flowctl : pyval,
      getitem (config self) "UART" = Returned uart ->
      getitem uart "port" = Returned port ->
      getitem uart "baudrate" = Returned baudrate ->
      getitem uart "bytesize" = Returned bytesize ->
      getitem uart "parity" = Returned parity ->
      getitem uart "stopbits" = Returned stopbits ->
      getitem uart "flowctl" = Returned flowctl ->
      getattrs tr = [("UART", VFormat "UART{}" [port])] /\
      (exists a, getattr_answers tr = [a]) /\
      (forall p, getattr_answers tr = [Returned p] ->
         uart_news tr = [(p, baudrate, bytesize, parity, stopbits, flowctl)] /\
         exists a, uart_new_answers tr = [a]) /\
      (forall e, getattr_answers tr = [Raised e] ->
         uart_news tr = [] /\ logged tr = [(ERROR, open_serial_failed e)]) /\
      (forall u, uart_new_answers tr = [Returned u] ->
         exists a, uart_set_callback_answers tr = [a])).
Proof.
  destruct self as [nm cfg uo so led tid].
  remember (execute h budget _ w) as o eqn:E. symmetry in E. revert E.
  unfold budget, open_serial, config_get. unfold_M.
  exec_all.
  all: intros <-; cbn.
  all: repeat match goal with u : unit |- _ => destruct u end.
  all: split; [intros u0 Hu; try discriminate Hu; inversion Hu; subst; reflexivity|].
  all: split; [split; intros Hx; try discriminate Hx; reflexivity|].
  all: split; [intros e0 He; try discriminate He; inversion He; subst; split; reflexivity|].
  all: split; [intros e0 He; try discriminate He; inversion He; subst; reflexivity|].
  all: split; [reflexivity|].
  all: intros uart port baudrate bytesize parity stopbits flowctl Hg H1 H2 H3 H4 H5 H6.
  all: try discriminate Hg.
  all: try (inversion Hg; subst; clear Hg).
  all: try congruence.
  all: repeat match goal with
         | Ha : getitem ?c ?k = Returned ?x, Hb : getitem ?c ?k = Returned ?y |- _ =>
             assert (x = y) by congruence; subst y; clear Hb
         end.
  all: try congruence.
  all: split; [reflexivity|].
  all: split; [eexists; reflexivity|].
  all: split; [intros p Hp;
               first [ discriminate Hp
                     | inversion Hp; subst; split; [reflexivity | eexists; reflexivity] ]|].
  all: split; [intros e0 He; try discriminate He; inversion He; subst; split; reflexivity|].
  all: intros u0 Hu; try discriminate Hu; eexists; reflexivity.
Qed.

(** X3: when the configuration has no [UART] group, or the group lacks
    one of the six keys, [open_serial] never calls the constructor
    [UART(...)]: the exception (of the failed lookup, or of [getattr] when
    that raised first) is caught and logged as an error, [self] is
    unchanged and the method returns normally. *)
Theorem open_serial_missing_key (w : W) (self : Demo) :
  config_has "UART" uart_keys (config self) = false ->
  let o := execute h budget (open_serial self) w in
  uart_new_answers (obs_trace o) = [] /\
  obs_result o = Some (self, Returned tt) /\
  exists e, logged (obs_trace o) = [(ERROR, open_serial_failed e)].
Proof.
  destruct self as [nm cfg uo so led tid]. cbn [config].
  unfold config_has, uart_keys, has_key. cbn [forallb].
  intros Hc. revert Hc.
  remember (execute h budget _ w) as o eqn:E. symmetry in E. revert E.
  unfold budget, open_serial, config_get. unfold_M.
  exec_all.
  all: intros <-; cbn.
  all: repeat match goal with H : getitem _ _ = _ |- _ => rewrite H end.
  all: cbn; intros Hc; try discriminate Hc.
  all: split; [reflexivity|split; [reflexivity|]].
  all: eexists; reflexivity.
Qed.
End OpenSerial.

Lemma open_serial_registers_and_logs_witness :
  let tr := obs_trace (execute board_handler budget (open_serial demo_fresh)
                               (board_on [] true [])) in
  List.length (logged tr) = 1%nat /\
  getattrs tr = [("UART", VFormat "UART{}" [VInt 2])] /\
  uart_news tr = [(VFormat "UART{}" [VInt 2], VInt 115200, VInt 8, VInt 0, VInt 1, VInt 0)] /\
  uart_set_callbacks tr = [0%nat] /\
  logged tr = [(INFO, VStr "open serial successfully.")].
Proof.
  destruct (open_serial_registers_and_logs board_handler (board_on [] true []) demo_fresh)
    as (H1 & H2 & _ & _ & H5 & H6).
  destruct (H6 (VDict [("port", VInt 2); ("baudrate", VInt 115200); ("bytesize", VInt 8);
                       ("parity", VInt 0); ("stopbits", VInt 1); ("flowctl", VInt 0)])
               (VInt 2) (VInt 115200) (VInt 8) (VInt 0) (VInt 1) (VInt 0)
               eq_refl eq_refl eq_refl eq_refl eq_refl eq_refl eq_refl)
    as (Hg & _ & Hn & _).
  split; [exact H5|]. split; [exact Hg|].
  split; [apply (Hn (VFormat "UART{}" [VInt 2])); reflexivity|].
  split; [apply (H1 0%nat); reflexivity|].
  apply H2. reflexivity.
Defined.

Lemma open_serial_missing_key_witness :
  let self := mkDemo (VStr "Quectel") (VDict [("UART", VDict [("port", VInt 2)])])
                     None None 2%nat None in
  let o := execute board_handler budget (open_serial self) (board_on [] true []) in
  uart_new_answers (obs_trace o) = [] /\
  obs_result o = Some (self, Returned tt) /\
  exists e, logged (obs_trace o) = [(ERROR, open_serial_failed e)].
Proof.
  apply (open_serial_missing_key board_handler). reflexivity.
Defined.

(** ** More on [connect_cloud] *)

Section ConnectCloud.
Context {W : Type} (h : handler W).

(** X4: [connect_cloud] resolves the configured host and port once; the
    socket is then connected to the address in the first resolver result
    ([rv[0][4]]), not to the configured pair, and [settimeout] and the
    keep-alive option get the configured [timeout] and [keep_alive]. *)
Theorem connect_cloud_uses_resolved_address (w : W) (self : Demo)
    (server host port timeout keep_alive : pyval) :
  getitem (config self) "SERVER" = Returned server ->
  getitem server "host" = Returned host ->
  getitem server "port" = Returned port ->
  getitem server "timeout" = Returned timeout ->
  getitem server "keep_alive" = Returned keep_alive ->
  let tr := obs_trace (execute h budget (connect_cloud self) w) in
  getaddrinfos tr = [(host, port)] /\
  (forall rv_0 rest s,
      getaddrinfo_answers tr = [Returned (rv_0 :: rest)] ->
      socket_new_answers tr = [Returned s] ->
      sock_connects tr = [(s, ai_sockaddr rv_0)] /\
      (sock_connect_answers tr = [Returned tt] ->
       sock_settimeouts tr = [(s, timeout)]) /\
      (sock_settimeout_answers tr = [Returned tt] ->
       sock_setkeepalives tr = [(s, keep_alive)])).
Proof.
  destruct self as [nm cfg uo so led tid]. cbn [config].
  intros Hg Hh Hp Ht Hk.
  remember (execute h budget _ w) as o eqn:E. symmetry in E. revert E.
  unfold budget, connect_cloud, config_get. unfold_M.
  exec_all.
  all: intros <-; cbn.
  all: split; [reflexivity|].
  all: intros rv_0 rest s Ha Hs; try discriminate Ha; try discriminate Hs.
  all: inversion Ha; inversion Hs; subst.
  all: repeat match goal with H : ai_sockaddr _ = _ |- _ => rewrite H end.
  all: split; [reflexivity|split; intros Hx; try discriminate Hx; reflexivity].
Qed.

(** X5: the only exception [connect_cloud] lets out is one raised by
    [_thread.start_new_thread] (the [else] branch is outside the [try]); in
    that case nothing is logged.  Every failure before it is logged as an
    error and the method returns normally; the success message is logged
    exactly when the thread start returned. *)
Theorem connect_cloud_raises_only_from_thread_start (w : W) (self : Demo) :
  let o := execute h budget (connect_cloud self) w in
  let tr := obs_trace o in
  exists self',
    obs_result o =
      Some (self',
            match start_new_thread_answers tr with
            | [Raised e] => Raised e
            | _ => Returned tt
            end) /\
    match start_new_thread_answers tr with
    | [Raised e] => logged tr = []
    | [Returned _] => logged tr = [(INFO, VStr "connect cloud successfully.")]
    | _ => exists e, logged tr = [(ERROR, connect_cloud_failed e)]
    end.
Proof.
  destruct self as [nm cfg uo so led tid].
  remember (execute h budget _ w) as o eqn:E. symmetry in E. revert E.
  unfold budget, connect_cloud, config_get. unfold_M.
  exec_all.
  all: intros <-; cbn.
  all: eexists; split; [reflexivity|].
  all: try reflexivity.
  all: eexists; reflexivity.
Qed.

(** X6: when the configuration has no [SERVER] group, or the group lacks
    one of its four keys, [connect_cloud] makes no call into [usocket] or
    [_thread] at all: its only call is the error log, and [self] is
    unchanged. *)
Theorem connect_cloud_missing_key (w : W) (self : Demo) :
  config_has "SERVER" server_keys (config self) = false ->
  let o := execute h budget (connect_cloud self) w in
  obs_result o = Some (self, Returned tt) /\
  exists e, obs_trace o = [Step (Log ERROR (connect_cloud_failed e)) tt].
Proof.
  destruct self as [nm cfg uo so led tid]. cbn [config].
  unfold config_has, server_keys, has_key. cbn [forallb].
  intros Hc. revert Hc.
  remember (execute h budget _ w) as o eqn:E. symmetry in E. revert E.
  unfold budget, connect_cloud, config_get. unfold_M.
  exec_all.
  all: intros <-; cbn.
  all: repeat match goal with H : getitem _ _ = _ |- _ => rewrite H end.
  all: cbn; intros Hc; try discriminate Hc.
  all: repeat match goal with u : unit |- _ => destruct u end.
  all: split; [reflexivity|].
  all: eexists; reflexivity.
Qed.
End ConnectCloud.

(** ** [run] *)

Section Run.
Context {W : Type} (h : handler W).

Lemma open_serial_within (w : W) (self : Demo) :
  exists tr w1 self1,
    execute h 5 (open_serial self) w = Obs tr w1 (Some (self1, Returned tt)).
Proof.
  destruct self as [nm cfg uo so led tid].
  unfold open_serial, config_get. unfold_M.
  exec_all.
  all: do 3 eexists; reflexivity.
Qed.

Lemma connect_cloud_within (w : W) (self : Demo) :
  exists tr w1 r,
    execute h 8 (connect_cloud self) w = Obs tr w1 (Some r).
Proof.
  destruct self as [nm cfg uo so led tid].
  unfold connect_cloud, config_get. unfold_M.
  exec_all.
  all: do 3 eexists; reflexivity.
Qed.

(** X7: [run] logs its message, calls [open_serial], and then calls
    [connect_cloud] whatever happened in [open_serial] (which always returns
    normally), on the object as [open_serial] left it; the calls and the
    result of [run] are those of the three in this order. *)
Theorem run_opens_then_connects (w : W) (self : Demo) :
  let w0 := snd (h _ (Log INFO (run_message self)) w) in
  let o1 := execute h budget (open_serial self) w0 in
  exists self1,
    obs_result o1 = Some (self1, Returned tt) /\
    execute h budget (run self) w =
      obs_app (Step (Log INFO (run_message self)) tt :: obs_trace o1)
              (execute h budget (connect_cloud self1) (obs_world o1)).
Proof.
  cbn zeta.
  destruct (open_serial_within (snd (h _ (Log INFO (run_message self)) w)) self)
    as (tr1 & w1 & self1 & E1).
  destruct (connect_cloud_within w1 self1) as (tr2 & w2 & r & E2).
  exists self1.
  rewrite (execute_mono h 5 budget _ _ _ _ _ E1) by (unfold budget; lia).
  cbn [obs_world obs_trace obs_result].
  rewrite (execute_mono h 8 budget _ _ _ _ _ E2) by (unfold budget; lia).
  split; [reflexivity|].
  unfold run, bind, get, log, budget.
  rewrite execute_bind_Ret. cbn beta iota.
  rewrite execute_bind_bind, execute_bind_trigger.
  destruct (h unit (Log INFO (VFormat "{} run..." [Demo_str self])) w) as [[] w0] eqn:E0.
  unfold run_message in E1. rewrite E0 in E1. cbn [fst snd] in *.
  rewrite execute_bind_Ret. cbn beta iota.
  rewrite (execute_mono h (5 + 8) 15 _ _ (tr1 ++ tr2) w2 r); [reflexivity| |lia].
  eapply execute_bind; [exact E1|exact E2].
Qed.
End Run.

(** ** More on [__uart_cb] *)

Section UartCb.
Context {W : Type} (h : handler W).

(** X8: [__uart_cb] does not catch errors of the UART.  Without a stored
    UART it raises [AttributeError] before any call; an exception raised by
    [any()] or by [read()] is raised to the caller, and then nothing has
    been sent and nothing logged. *)
Theorem uart_cb_uart_errors_propagate (w : W) (args : pyval) (self : Demo) :
  let o := execute h budget (__uart_cb args self) w in
  let tr := obs_trace o in
  (__uart self = None ->
   o = Obs [] w (Some (self, Raised (Exn AttributeError [VStr "any"])))) /\
  (forall e, uart_any_answers tr = [Raised e] ->
     obs_result o = Some (self, Raised e) /\
     uart_reads tr = [] /\ sock_sends tr = [] /\ logged tr = []) /\
  (forall e, uart_read_answers tr = [Raised e] ->
     obs_result o = Some (self, Raised e) /\
     sock_sends tr = [] /\ logged tr = []).
Proof.
  cbn zeta.
  destruct self as [nm cfg uo so led tid].
  remember (execute h budget _ w) as o eqn:E. symmetry in E. revert E.
  unfold budget, __uart_cb, blink. unfold_M.
  exec_all.
  all: intros <-; cbn.
  all: split; [intros Hu; try discriminate Hu; reflexivity|].
  all: split; intros e0 He; try discriminate He; inversion He; subst;
       repeat split; reflexivity.
Qed.
End UartCb.

(** X9: on the simulated module [__uart_cb] drains the UART: it reads as
    many bytes as [any()] reported, which is the whole receive buffer, and
    passes them to one [send].  With the peer reachable they are the latest
    entry of what was sent; with the peer unreachable they are lost: the
    buffer is empty afterwards and nothing was sent. *)
Theorem uart_cb_drains_buffer (b : board) (args : pyval) (self : Demo) (u s : handle) :
  __uart self = Some u ->
  __sock self = Some s ->
  let o := execute board_handler budget (__uart_cb args self) b in
  uart_reads (obs_trace o) = [(u, Z.of_nat (List.length (uart_rx b)))] /\
  sock_sends (obs_trace o) = [(s, uart_rx b)] /\
  uart_rx (obs_world o) = [] /\
  sock_tx (obs_world o) = (if link_up b then uart_rx b :: sock_tx b else sock_tx b).
Proof.
  intros Hu Hs.
  destruct self as [nm cfg uo so led tid]; cbn in Hu, Hs; subst uo so.
  destruct b as [rx tx d up srx stx ths nt].
  cbn zeta.
  remember (execute board_handler budget _ _) as o eqn:E. symmetry in E. revert E.
  unfold budget, __uart_cb, blink. unfold_M.
  board_all.
  all: rewrite ?Nat2Z.id, ?firstn_all, ?skipn_all.
  all: board_all.
  all: intros <-; cbn; repeat split; reflexivity.
Qed.

(** ** More on [blink] *)

Section Blink.
Context {W : Type} (h : handler W).

(** X10: with no stored identifier, or with the identifier 0, [blink]
    starts the worker with the given parameters without asking
    [threadIsRunning]: its only call is [start_new_thread].  The identifier
    returned is stored; if the call raises, the exception is raised to the
    caller and the stored identifier is unchanged. *)
Theorem blink_starts_without_asking (w : W) (self : Demo) (on off count : Z) :
  __led_blink_thread_id self = None \/ __led_blink_thread_id self = Some 0 ->
  let start := StartNewThread (led_blink_thread_entry on off count) in
  execute h budget (blink on off count self) w =
  Obs [Step start (fst (h _ start w))] (snd (h _ start w))
      (Some (blink_started self (fst (h _ start w)))).
Proof.
  intros Htid. cbn zeta.
  destruct self as [nm cfg uo so led tid]; cbn in Htid.
  unfold budget, blink. unfold_M.
  destruct Htid as [-> | ->].
  all: exec_all; reflexivity.
Qed.

(** X11: with a stored, non-zero identifier [blink] asks
    [threadIsRunning] once.  On [True] it returns; on [False] it starts the
    worker and stores the new identifier (or raises what [start_new_thread]
    raised, with the stored identifier unchanged); an exception of
    [threadIsRunning] is raised to the caller and nothing is started. *)
Theorem blink_asks_then_starts (w : W) (self : Demo) (t : thread_id) (on off count : Z) :
  __led_blink_thread_id self = Some t ->
  t <> 0 ->
  let ask := ThreadIsRunning t in
  let start := StartNewThread (led_blink_thread_entry on off count) in
  let w1 := snd (h _ ask w) in
  execute h budget (blink on off count self) w =
  match fst (h _ ask w) with
  | Returned true => Obs [Step ask (Returned true)] w1 (Some (self, Returned tt))
  | Returned false =>
      Obs [Step ask (Returned false); Step start (fst (h _ start w1))]
          (snd (h _ start w1))
          (Some (blink_started self (fst (h _ start w1))))
  | Raised e => Obs [Step ask (Raised e)] w1 (Some (self, Raised e))
  end.
Proof.
  intros Htid Hz. cbn zeta.
  destruct self as [nm cfg uo so led tid]; cbn in Htid; subst tid.
  apply Z.eqb_neq in Hz.
  unfold budget, blink. unfold_M.
  exec_all.
  all: try congruence.
  all: reflexivity.
Qed.
End Blink.

(** ** The blink worker in any environment *)

Section LedWorker.
Context {W : Type} (h : handler W).

Lemma led_worker_obs on off self n :
  forall count fuel w,
    Z.to_nat count = n ->
    let o := execute h fuel (led_blink_thread_worker on off count self) w in
    (exists rest, pin_writes (obs_trace o) ++ rest = led_levels (__led self) n) /\
    (exists rest, sleeps (obs_trace o) ++ rest = sleep_times on off n) /\
    (forall self' c,
        obs_result o = Some (self', Returned c) ->
        self' = self /\ c = Z.min count 0 /\
        pin_writes (obs_trace o) = led_levels (__led self) n /\
        sleeps (obs_trace o) = sleep_times on off n) /\
    (forall self' e, obs_result o = Some (self', Raised e) -> self' = self) /\
    ((5 * n + 2 <= fuel)%nat -> finished o = true) /\
    (List.length (obs_trace o) <= 4 * n)%nat.
Proof.
  unfold led_blink_thread_worker, while_cond.
  match goal with
  | |- context [ITree.iter ?step _] => remember (ITree.iter step) as loop eqn:El
  end.
  assert (Hunf : forall f i w,
             execute h f (loop i) w =
             execute h f
               (ITree.bind
                  (let '(self, s) := i in
                   if s >? 0 then
                     ITree.bind
                       ((led <- get __led ;; call (PinWrite led 1) ;; call (SleepMs on) ;;
                         led <- get __led ;; call (PinWrite led 0) ;; call (SleepMs off) ;;
                         ret (s - 1))%py self)
                       (fun '(self', o) =>
                          match o with
                          | Returned s' => Ret (inl (self', s'))
                          | Raised e => Ret (inr (self', Raised e))
                          end)
                   else Ret (inr (self, Returned s)))
                  (fun lr => match lr with
                             | inl l => Tau (loop l)
                             | inr r => Ret r
                             end)) w).
  { intros f i w. rewrite El. apply execute_iter. }
  clear El.
  induction n as [|n IH]; intros count fuel w Hn; cbn zeta.
  - assert (Hc : (count >? 0) = false) by (rewrite Z.gtb_ltb; apply Z.ltb_ge; lia).
    rewrite Hunf, Hc, execute_bind_Ret.
    destruct fuel as [|fuel]; [rewrite execute_0|rewrite execute_Ret]; cbn.
    all: split; [exists []; reflexivity|].
    all: split; [exists []; reflexivity|].
    all: split; [intros self' c Hr; try discriminate Hr; inversion Hr; subst;
                 repeat split; lia|].
    all: split; [intros self' e Hr; discriminate Hr|].
    all: split; [intros Hf; first [reflexivity | lia] | lia].
  - assert (Hc : (count >? 0) = true) by (rewrite Z.gtb_ltb; apply Z.ltb_lt; lia).
    remember (execute h fuel _ w) as o eqn:E. symmetry in E. revert E.
    rewrite Hunf, Hc. unfold_M.
    exec_all.
    all: try rewrite execute_Tau.
    all: intros <-.
    all: try match goal with
         | |- context [execute h ?f ?t ?w'] =>
             specialize (IH (count - 1) f w' ltac:(lia));
             cbn zeta in IH;
             destruct (execute h f t w') as [tr' w'' res'];
             cbn [obs_trace obs_result obs_world finished] in IH;
             destruct IH as ([r1 H1] & [r2 H2] & H3 & H4 & H5 & H6)
         end.
    all: cbn [obs_cons obs_trace obs_result obs_world finished].
    all: first
      [ match goal with
        | H1 : pin_writes _ ++ _ = _ |- _ =>
            split; [exists r1; cbn; do 2 f_equal; exact H1|];
            split; [exists r2; cbn; do 2 f_equal; exact H2|];
            split; [intros self' c Hr; destruct (H3 _ _ Hr) as (-> & -> & Hp & Hs);
                    split; [reflexivity|]; split; [lia|];
                    split; cbn; do 2 f_equal; assumption|];
            split; [exact H4|];
            split; [intros Hf; apply H5; lia | cbn [List.length]; lia]
        end
      | split; [eexists; reflexivity|];
        split; [eexists; reflexivity|];
        split; [intros self' c Hr; discriminate Hr|];
        split; [intros self' e0 Hr; try discriminate Hr; inversion Hr; reflexivity|];
        split; [intros Hf; first [reflexivity | exfalso; lia] | cbn [List.length]; lia] ].
Qed.

(** X12: the blink worker terminates in every environment: started with
    [count], it has returned (or raised what a call raised) after at most
    [4 * count] calls, and [self] is unchanged.  With [count <= 0] it makes
    no call. *)
Theorem led_worker_terminates (w : W) (on off count : Z) (self : Demo) :
  let n := Z.to_nat count in
  let o := execute h (5 * n + 2) (led_blink_thread_worker on off count self) w in
  finished o = true /\
  (List.length (obs_trace o) <= 4 * n)%nat /\
  (forall self' r, obs_result o = Some (self', r) -> self' = self).
Proof.
  cbn zeta.
  destruct (led_worker_obs on off self (Z.to_nat count) count
              (5 * Z.to_nat count + 2) w eq_refl) as (_ & _ & H3 & H4 & H5 & H6).
  split; [apply H5; lia|]. split; [exact H6|].
  intros self' [c|e] Hr; [apply (H3 _ _ Hr) | apply (H4 _ _ Hr)].
Qed.

(** X13: in every environment and however far the blink worker has run,
    its pin writes are a beginning of the sequence on, off, on, off, ... of
    [count] cycles on the LED pin, and its sleeps a beginning of
    [on_remaining], [off_remaining], ...; when it returns normally, all
    [count] cycles were made and the counter is [min count 0]. *)
Theorem led_worker_cycles (fuel : nat) (w : W) (on off count : Z) (self : Demo) :
  let n := Z.to_nat count in
  let o := execute h fuel (led_blink_thread_worker on off count self) w in
  (exists rest, pin_writes (obs_trace o) ++ rest = led_levels (__led self) n) /\
  (exists rest, sleeps (obs_trace o) ++ rest = sleep_times on off n) /\
  (forall self' c,
      obs_result o = Some (self', Returned c) ->
      c = Z.min count 0 /\
      pin_writes (obs_trace o) = led_levels (__led self) n /\
      sleeps (obs_trace o) = sleep_times on off n).
Proof.
  cbn zeta.
  destruct (led_worker_obs on off self (Z.to_nat count) count fuel w eq_refl)
    as (H1 & H2 & H3 & _).
  split; [exact H1|]. split; [exact H2|].
  intros self' c Hr. apply (H3 _ _ Hr).
Qed.
End LedWorker.

(** ** The constructor *)

Lemma getitem_raises (d : pyval) (k : string) (e : exn) :
  getitem d k = Raised e -> exn_cls e = KeyError \/ exn_cls e = TypeError.
Proof.
  unfold getitem. destruct d; try (intros H; inversion H; right; reflexivity).
  destruct (assoc k items); intros H; inversion H. left. reflexivity.
Qed.

Section Init.
Context {W : Type} (h : handler W).


(** X15: with a configuration that has no [LED] group, or no [GPIOn] in
    it, the constructor raises the lookup error ([KeyError] or [TypeError])
    before any call into the vendor module. *)
Theorem Demo_init_missing_led_key (w : W) (nm c : pyval) :
  truthy c = true ->
  config_has "LED" ["GPIOn"] c = false ->
  exists e,
    (exn_cls e = KeyError \/ exn_cls e = TypeError) /\
    execute h budget (Demo_init nm (Some c)) w = Obs [] w (Some (Raised e)).
Proof.
  intros Ht. unfold config_has, has_key. cbn [forallb].
  unfold budget, Demo_init. rewrite Ht.
  destruct (getitem c "LED") as [led|e] eqn:El.
  - destruct (getitem led "GPIOn") as [g|e] eqn:Eg; [discriminate|].
    intros _. exists e. split; [eapply getitem_raises; exact Eg | reflexivity].
  - intros _. exists e. split; [eapply getitem_raises; exact El | reflexivity].
Qed.
End Init.

(** ** Edges of the reader *)

Section ReaderEdges.
Context {W : Type} (h : handler W).

(** X16: without a stored socket the reader does not loop: loading
    [recv] from [None] raises [AttributeError], which is not a timeout, so
    the worker logs the critical message and returns, having made no
    [recv]. *)
Theorem reader_without_socket (w : W) (self : Demo) (fuel : nat) :
  __sock self = None ->
  (2 <= fuel)%nat ->
  let e := Exn AttributeError [VStr "recv"] in
  execute h fuel (__sock_recv_thread_worker self) w =
  Obs [Step (Log CRITICAL (recv_thread_broken e)) tt]
      (snd (h _ (Log CRITICAL (recv_thread_broken e)) w))
      (Some (self, Returned tt)).
Proof.
  intros Hs Hf. cbn zeta.
  destruct self as [nm cfg uo so led tid]; cbn in Hs; subst so.
  destruct fuel as [|[|fuel]]; try lia.
  unfold __sock_recv_thread_worker, while_true. rewrite execute_iter.
  unfold loop_step, sock_recv_iteration, recv_thread_broken. unfold_M.
  exec_all. reflexivity.
Qed.

(** X17: when [recv] raises an [OSError] whose [args] is empty, the test
    [e.args[0] == 110] itself raises [IndexError] inside the handler: the
    worker ends with that exception after the one [recv], without the
    critical message. *)
Theorem reader_oserror_without_args (w : W) (self : Demo) (s : handle) (fuel : nat) :
  __sock self = Some s ->
  fst (h _ (SockRecv s 1024) w) = Raised (Exn OSError []) ->
  (2 <= fuel)%nat ->
  execute h fuel (__sock_recv_thread_worker self) w =
  Obs [Step (SockRecv s 1024) (Raised (Exn OSError []))]
      (snd (h _ (SockRecv s 1024) w))
      (Some (self, Raised (Exn IndexError []))).
Proof.
  intros Hs Ha Hf.
  destruct self as [nm cfg uo so led tid]; cbn in Hs; subst so.
  destruct fuel as [|[|fuel]]; try lia.
  revert Ha.
  unfold __sock_recv_thread_worker, while_true. rewrite execute_iter.
  unfold loop_step, sock_recv_iteration. unfold_M.
  exec_all.
  all: intros Ha; try discriminate Ha; inversion Ha; subst.
  reflexivity.
Qed.

(** X18: a failure of the UART does not stop the reader.  When [recv]
    returned data, the pass asks for another round; if no UART is stored
    ([write] cannot be loaded) or [write] raised, the error is logged after
    the debug message and the data is dropped. *)
Theorem reader_pass_survives_uart_failure (w : W) (self : Demo) (s : handle)
    (b : bytes) (fuel : nat) :
  __sock self = Some s ->
  (6 <= fuel)%nat ->
  let o := execute h fuel (sock_recv_iteration self) w in
  sock_recv_answers (obs_trace o) = [Returned b] ->
  obs_result o = Some (self, Returned Continue) /\
  (__uart self = None ->
   uart_writes (obs_trace o) = [] /\
   logged (obs_trace o) =
     [(DEBUG, read_from_socket b);
      (ERROR, send_to_serial_failed (Exn AttributeError [VStr "write"]))]) /\
  (forall e, uart_write_answers (obs_trace o) = [Raised e] ->
   logged (obs_trace o) =
     [(DEBUG, read_from_socket b); (ERROR, send_to_serial_failed e)]).
Proof.
  intros Hs Hf. cbn zeta.
  destruct self as [nm cfg uo so led tid]; cbn in Hs; subst so.
  do 6 (destruct fuel as [|fuel]; [lia|]).
  remember (execute h _ _ w) as o eqn:E. symmetry in E. revert E.
  unfold sock_recv_iteration. unfold_M.
  exec_all.
  all: intros <-; cbn; intros Ha; try discriminate Ha; inversion Ha; subst.
  all: split; [reflexivity|].
  all: split; [intros Hu; try discriminate Hu; split; reflexivity|].
  all: intros e0 He; try discriminate He; inversion He; subst; reflexivity.
Qed.
End ReaderEdges.

Section ReaderCalls.
Context {W : Type} (h : handler W).

Lemma reader_pass_calls f (w : W) (self : Demo) :
  forallb reader_call
    (obs_trace (execute h f (loop_step sock_recv_iteration self) w)) = true.
Proof.
  destruct self as [nm cfg uo so led tid].
  remember (execute h f _ w) as o eqn:E. symmetry in E. revert E.
  unfold loop_step, sock_recv_iteration. unfold_M.
  exec_all.
  all: intros <-; reflexivity.
Qed.

Lemma reader_calls_obs (self : Demo) w tr w' r :
  iter_obs h (loop_step sock_recv_iteration) self w tr w' r ->
  forallb reader_call tr = true.
Proof.
  intros Hobs.
  induction Hobs as [i w f tr w' E | i w f tr w' r0 E
                    | i w f tr1 w1 i' tr2 w' r0 E Hrest IH].
  - pose proof (reader_pass_calls f w i) as Hp. rewrite E in Hp. exact Hp.
  - pose proof (reader_pass_calls f w i) as Hp. rewrite E in Hp. exact Hp.
  - pose proof (reader_pass_calls f w i) as Hp. rewrite E in Hp. cbn in Hp.
    rewrite forallb_app, Hp, IH. reflexivity.
Qed.

Lemma reader_call_excludes tr :
  forallb reader_call tr = true ->
  sock_sends tr = [] /\ thread_calls tr = [] /\ pin_writes tr = [] /\
  uart_reads tr = [].
Proof.
  induction tr as [|[T e a] tr IH]; [repeat split|].
  cbn [forallb]. intros Hall. apply andb_prop in Hall. destruct Hall as [Hc Hall].
  destruct (IH Hall) as (H1 & H2 & H3 & H4).
  destruct e; try discriminate Hc; cbn; repeat split; assumption.
Qed.

(** X19: however long it runs and whatever the environment answers, the
    reader calls only [recv], [write] and the logger: it never sends on the
    socket, never calls into [_thread], never writes the LED pin and never
    reads the UART. *)
Theorem reader_only_receives_writes_and_logs (w : W) (self : Demo) (fuel : nat) :
  let tr := obs_trace (execute h fuel (__sock_recv_thread_worker self) w) in
  forallb reader_call tr = true /\
  sock_sends tr = [] /\ thread_calls tr = [] /\ pin_writes tr = [] /\
  uart_reads tr = [].
Proof.
  cbn zeta.
  assert (Hall : forallb reader_call
            (obs_trace (execute h fuel (__sock_recv_thread_worker self) w)) = true).
  { unfold __sock_recv_thread_worker, while_true.
    eapply reader_calls_obs. apply execute_iter_obs. }
  split; [exact Hall | apply reader_call_excludes; exact Hall].
Qed.
End ReaderCalls.

(** ** More on the simulated module *)

Section UartCbBlink.
Context {W : Type} (h : handler W).

(** X20: when [start_new_thread] raises inside [blink], [__uart_cb]
    raises that exception to its caller: the data has been sent by then,
    and the debug message about the size sent is not logged. *)
Theorem uart_cb_blink_error_propagates (w : W) (args : pyval) (self : Demo) (e : exn) :
  let o := execute h budget (__uart_cb args self) w in
  let tr := obs_trace o in
  start_new_thread_answers tr = [Raised e] ->
  obs_result o = Some (self, Raised e) /\
  exists s b length,
    sock_sends tr = [(s, b)] /\
    sock_send_answers tr = [Returned length] /\
    logged tr = [(DEBUG, read_from_serial b)].
Proof.
  cbn zeta.
  destruct self as [nm cfg uo so led tid].
  remember (execute h budget _ w) as o eqn:E. symmetry in E. revert E.
  unfold budget, __uart_cb, blink. unfold_M.
  exec_all.
  all: intros <-; cbn; intros He; try discriminate He; inversion He; subst.
  all: split; [reflexivity|].
  all: eexists _, _, _; repeat split; reflexivity.
Qed.
End UartCbBlink.

Lemma uart_data_relays (s : system) (data : bytes) :
  relay_ready s ->
  relay_ready (sys_step (UartData data) s) /\
  sock_tx (sys_board (sys_step (UartData data) s)) = data :: sock_tx (sys_board s).
Proof.
  destruct s as [[nm cfg uo so led tid] [rx tx d up srx stx ths nt]].
  unfold relay_ready. cbn.
  intros ([u Hu] & [k Hk] & Hup & Hrx). subst uo so up rx.
  unfold sys_step, run_method. cbn [sys_demo sys_board uart_rx uart_tx dns link_up
    sock_rx sock_tx threads next_tid app].
  remember (execute board_handler budget _ _) as o eqn:E. symmetry in E. revert E.
  unfold budget, __uart_cb, blink. unfold_M.
  board_all.
  all: rewrite ?Nat2Z.id, ?firstn_all, ?skipn_all.
  all: board_all.
  all: intros <-; cbn.
  all: repeat split; eauto.
Qed.

(** X21: on the simulated module, once a UART and a socket are stored
    and the peer is reachable, the chunks arriving on the UART are sent to
    the peer one [send] each, in the order of arrival, whether or not a
    blink task is running. *)
Theorem serial_data_forwarded_in_order (s : system) (chunks : list bytes) :
  relay_ready s ->
  let s' := sys_run (List.map UartData chunks) s in
  sock_tx (sys_board s') = rev chunks ++ sock_tx (sys_board s) /\
  relay_ready s'.
Proof.
  cbn zeta. revert s.
  induction chunks as [|c chunks IH]; intros s Hr; [split; [reflexivity|exact Hr]|].
  destruct (uart_data_relays s c Hr) as [Hr' Htx].
  cbn [List.map sys_run fold_left].
  destruct (IH _ Hr') as [IH1 IH2].
  unfold sys_run in IH1, IH2.
  split; [|exact IH2].
  rewrite IH1, Htx. cbn [rev]. rewrite <- app_assoc. reflexivity.
Qed.

Lemma serial_data_forwarded_in_order_witness :
  let s := sys_run [Run] (mkSystem demo_fresh (board_on [] true [])) in
  let s' := sys_run (List.map UartData [hello; [Byte.x21]]) s in
  sock_tx (sys_board s') = rev [hello; [Byte.x21]] ++ sock_tx (sys_board s) /\
  relay_ready s'.
Proof.
  apply (serial_data_forwarded_in_order
           (sys_run [Run] (mkSystem demo_fresh (board_on [] true [])))).
  vm_compute. repeat split; eexists; reflexivity.
Defined.

(** X22: [run] has no guard like the one of [blink]: on the simulated
    module, with the server group configured, the name resolved and the
    peer reachable, every [run] starts one more reader thread and stores a
    socket, whatever was started before. *)
Theorem run_starts_a_reader_each_time (s : system) :
  config_has "SERVER" server_keys (config (sys_demo s)) = true ->
  dns (sys_board s) <> [] ->
  link_up (sys_board s) = true ->
  let s' := sys_step Run s in
  threads (sys_board s') =
    (next_tid (sys_board s), sock_recv_thread_entry) :: threads (sys_board s) /\
  __sock (sys_demo s') = Some 1%nat.
Proof.
  destruct s as [[nm cfg uo so led tid] [rx tx d up srx stx ths nt]].
  cbn [sys_demo sys_board config dns link_up threads next_tid].
  unfold config_has, server_keys, has_key. cbn [forallb].
  intros Hc Hd ->. revert Hc.
  unfold sys_step, run_method. cbn [sys_demo sys_board].
  remember (execute board_handler budget _ _) as o eqn:E. symmetry in E. revert E.
  unfold budget, run, open_serial, connect_cloud, config_get. unfold_M.
  board_all.
  all: intros <-; cbn.
  all: repeat match goal with H : getitem _ _ = _ |- _ => rewrite H end.
  all: cbn; intros Hc; try discriminate Hc; try congruence.
  all: split; reflexivity.
Qed.

Section Stored.
Variables (tid : option thread_id) (ts : list (thread_id * thread_entry)) (next : thread_id).
Hypothesis Hok : table_ok tid ts next.
Hypothesis Hst : stored_ok tid ts next.

Lemma stored_ok_start_reader :
  stored_ok tid ((next, sock_recv_thread_entry) :: ts) (next + 1).
Proof.
  intros t Ht. destruct (Hst t Ht) as [Hlt Hb]. split; [lia|].
  intros f [E|Hin]; [inversion E; lia | apply Hb; exact Hin].
Qed.

Lemma stored_ok_filter p : stored_ok tid (filter p ts) next.
Proof.
  intros t Ht. destruct (Hst t Ht) as [Hlt Hb]. split; [exact Hlt|].
  intros f Hin. apply filter_In in Hin. apply Hb, Hin.
Qed.

Lemma stored_ok_start_blink on off count :
  stored_ok (Some next) ((next, led_blink_thread_entry on off count) :: ts) (next + 1).
Proof.
  intros t Ht. inversion Ht; subst t. split; [lia|].
  intros f [E|Hin]; [inversion E; reflexivity|].
  destruct Hok as (_ & H1 & _). apply H1 in Hin. lia.
Qed.
End Stored.

Ltac stored_solve Hok Hst :=
  first
    [ exact Hst
    | apply stored_ok_start_reader; exact Hst
    | eapply stored_ok_start_blink; exact Hok ].

Ltac method_stored m_unfold :=
  let Hok := fresh "Hok" in
  let Hst := fresh "Hst" in
  intros [[nm cfg uo so led tid] b] [Hok Hst];
  unfold threads_ok, run_method in *; cbn [sys_demo sys_board] in *;
  remember (execute board_handler budget _ b) as o eqn:E; symmetry in E; revert E;
  unfold budget; m_unfold; unfold_M;
  board_all;
  intros <-; cbn;
  stored_solve Hok Hst.

Lemma blink_stored_ok on off count s :
  blink_id_ok s ->
  let s' := fst (run_method (blink on off count) s) in
  stored_ok (__led_blink_thread_id (sys_demo s')) (threads (sys_board s'))
            (next_tid (sys_board s')).
Proof. revert s. method_stored ltac:(unfold blink). Qed.

Lemma uart_cb_stored_ok args s :
  blink_id_ok s ->
  let s' := fst (run_method (__uart_cb args) s) in
  stored_ok (__led_blink_thread_id (sys_demo s')) (threads (sys_board s'))
            (next_tid (sys_board s')).
Proof. revert s. method_stored ltac:(unfold __uart_cb, blink). Qed.

Lemma reader_pass_stored_ok s :
  blink_id_ok s ->
  let s' := fst (run_method sock_recv_iteration s) in
  stored_ok (__led_blink_thread_id (sys_demo s')) (threads (sys_board s'))
            (next_tid (sys_board s')).
Proof. revert s. method_stored ltac:(unfold sock_recv_iteration). Qed.

Lemma run_stored_ok s :
  blink_id_ok s ->
  let s' := fst (run_method run s) in
  stored_ok (__led_blink_thread_id (sys_demo s')) (threads (sys_board s'))
            (next_tid (sys_board s')).
Proof. revert s. method_stored ltac:(unfold run, open_serial, connect_cloud, config_get). Qed.

Lemma sys_step_blink_id_ok ev s :
  blink_id_ok s -> blink_id_ok (sys_step ev s).
Proof.
  intros Hb. split; [apply sys_step_threads_ok, Hb|].
  destruct ev; cbn [sys_step].
  - apply run_stored_ok. exact Hb.
  - apply uart_cb_stored_ok. destruct Hb as [Hok Hst]. split; assumption.
  - apply blink_stored_ok. exact Hb.
  - destruct (existsb is_reader (threads (sys_board s))); [|apply Hb].
    pose proof (reader_pass_stored_ok s Hb) as H. cbn zeta in H.
    destruct (run_method sock_recv_iteration s) as [s' r]. cbn [fst] in H.
    assert (Hf : stored_ok (__led_blink_thread_id (sys_demo s'))
                   (filter (fun t => negb (is_reader t)) (threads (sys_board s')))
                   (next_tid (sys_board s'))).
    { apply stored_ok_filter. exact H. }
    destruct r as [[[|]|e]|]; assumption.
  - cbn. apply stored_ok_filter. apply Hb.
  - apply Hb.
  - apply Hb.
Qed.

Lemma sys_run_blink_id_ok evs s :
  blink_id_ok s -> blink_id_ok (sys_run evs s).
Proof.
  revert s. induction evs as [|ev evs IH]; intros s Hok; cbn.
  - exact Hok.
  - apply IH. apply sys_step_blink_id_ok. exact Hok.
Qed.

Lemma powered_on_blink_id_ok s : powered_on s -> blink_id_ok s.
Proof.
  intros Hon. split; [apply powered_on_threads_ok; exact Hon|].
  destruct Hon as (Htid & _). intros t Ht. congruence.
Qed.

(** With no blink task in the table, the stored identifier names no running
    thread. *)
Lemma blink_idle s :
  blink_id_ok s ->
  blink_tasks s = [] ->
  match __led_blink_thread_id (sys_demo s) with
  | None => True
  | Some t => thread_is_running t (sys_board s) = false
  end.
Proof.
  intros [Hok Hst] Hnone.
  destruct (__led_blink_thread_id (sys_demo s)) as [t|] eqn:Et; [|exact I].
  destruct (thread_is_running t (sys_board s)) eqn:Er; [|reflexivity].
  exfalso. unfold thread_is_running in Er. apply existsb_exists in Er.
  destruct Er as [[t' f] [Hin Heq]]. cbn in Heq. apply Z.eqb_eq in Heq. subst t'.
  destruct (Hst t eq_refl) as [_ Hb].
  assert (Hf : In (t, f) (blink_tasks s)).
  { unfold blink_tasks. apply filter_In. split; [exact Hin | apply Hb; exact Hin]. }
  rewrite Hnone in Hf. contradiction.
Qed.

(** X23: on the simulated module, in every state reached from power-on
    in which no blink task is running, a blink request starts one task with
    the requested parameters and stores its identifier; the reader threads
    are untouched. *)
Theorem blink_restarts_when_idle (s0 : system) (evs : list sys_event)
    (on off count : Z) :
  powered_on s0 ->
  let s := sys_run evs s0 in
  blink_tasks s = [] ->
  let s' := sys_step (BlinkRequest on off count) s in
  blink_tasks s' = [(next_tid (sys_board s), led_blink_thread_entry on off count)] /\
  __led_blink_thread_id (sys_demo s') = Some (next_tid (sys_board s)) /\
  readers s' = readers s.
Proof.
  intros Hon. cbn zeta.
  pose proof (sys_run_blink_id_ok evs s0 (powered_on_blink_id_ok s0 Hon)) as Hb.
  generalize dependent (sys_run evs s0). intros s Hb Hnone.
  pose proof (blink_idle s Hb Hnone) as Hidle.
  unfold blink_tasks, readers in *.
  destruct s as [[nm cfg uo so led tid] b]. cbn [sys_demo sys_board] in *.
  cbn [__led_blink_thread_id] in Hidle.
  cbn [sys_step]. unfold run_method. cbn [sys_demo sys_board].
  remember (execute board_handler budget _ b) as o eqn:E. symmetry in E. revert E.
  unfold budget, blink. unfold_M.
  board_all.
  all: intros <-; cbn.
  all: try congruence.
  all: rewrite Hnone; repeat split; reflexivity.
Qed.

Lemma uart_cb_drains_buffer_witness :
  let o := execute board_handler budget (__uart_cb VNone demo_wired)
                   (board_on hello true []) in
  uart_reads (obs_trace o) = [(0%nat, 5)] /\
  sock_sends (obs_trace o) = [(1%nat, hello)] /\
  uart_rx (obs_world o) = [] /\
  sock_tx (obs_world o) = [hello].
Proof.
  apply (uart_cb_drains_buffer (board_on hello true []) VNone demo_wired 0%nat 1%nat);
    reflexivity.
Defined.

Lemma connect_cloud_uses_resolved_address_witness :
  let tr := obs_trace (execute board_handler budget (connect_cloud demo_fresh)
                               (board_on [] true [])) in
  getaddrinfos tr = [(VStr "220.180.239.212", VStr "8305")] /\
  (forall rv_0 rest s,
      getaddrinfo_answers tr = [Returned (rv_0 :: rest)] ->
      socket_new_answers tr = [Returned s] ->
      sock_connects tr = [(s, ai_sockaddr rv_0)] /\
      (sock_connect_answers tr = [Returned tt] ->
       sock_settimeouts tr = [(s, VInt 5)]) /\
      (sock_settimeout_answers tr = [Returned tt] ->
       sock_setkeepalives tr = [(s, VInt 5)])).
Proof.
  apply (connect_cloud_uses_resolved_address board_handler (board_on [] true []) demo_fresh
           (VDict [("host", VStr "220.180.239.212"); ("port", VStr "8305");
                   ("timeout", VInt 5); ("keep_alive", VInt 5)]));
    reflexivity.
Defined.

Lemma connect_cloud_missing_key_witness :
  let self := mkDemo (VStr "Quectel")
                     (VDict [("SERVER", VDict [("host", VStr "220.180.239.212")])])
                     None None 2%nat None in
  let o := execute board_handler budget (connect_cloud self) (board_on [] true []) in
  obs_result o = Some (self, Returned tt) /\
  exists e, obs_trace o = [Step (Log ERROR (connect_cloud_failed e)) tt].
Proof.
  apply (connect_cloud_missing_key board_handler). reflexivity.
Defined.

Lemma blink_starts_without_asking_witness :
  execute board_handler budget (blink 50 50 20 demo_fresh) (board_on [] true []) =
  Obs [Step (StartNewThread (led_blink_thread_entry 50 50 20)) (Returned 1)]
      (snd (board_handler _ (StartNewThread (led_blink_thread_entry 50 50 20))
                          (board_on [] true [])))
      (Some (blink_started demo_fresh (Returned 1))).
Proof.
  apply (blink_starts_without_asking board_handler (board_on [] true []) demo_fresh 50 50 20).
  left. reflexivity.
Defined.

Lemma blink_asks_then_starts_witness :
  let self := with_blink_thread demo_fresh (Some 7) in
  let b := board_on [] true [] in
  execute board_handler budget (blink 50 50 20 self) b =
  Obs [Step (ThreadIsRunning 7) (Returned false);
       Step (StartNewThread (led_blink_thread_entry 50 50 20)) (Returned 1)]
      (snd (board_handler _ (StartNewThread (led_blink_thread_entry 50 50 20)) b))
      (Some (blink_started self (Returned 1))).
Proof.
  apply (blink_asks_then_starts board_handler (board_on [] true [])
           (with_blink_thread demo_fresh (Some 7)) 7 50 50 20).
  - reflexivity.
  - lia.
Defined.


Lemma Demo_init_missing_led_key_witness :
  exists e,
    (exn_cls e = KeyError \/ exn_cls e = TypeError) /\
    execute board_handler budget
            (Demo_init (VStr "Quectel") (Some (VDict [("LED", VDict [])])))
            (board_on [] true []) =
    Obs [] (board_on [] true []) (Some (Raised e)).
Proof.
  apply (Demo_init_missing_led_key board_handler); reflexivity.
Defined.

Lemma reader_without_socket_witness :
  let e := Exn AttributeError [VStr "recv"] in
  execute board_handler 2 (__sock_recv_thread_worker demo_fresh) (board_on [] true []) =
  Obs [Step (Log CRITICAL (recv_thread_broken e)) tt]
      (snd (board_handler _ (Log CRITICAL (recv_thread_broken e)) (board_on [] true [])))
      (Some (demo_fresh, Returned tt)).
Proof.
  apply (reader_without_socket board_handler (board_on [] true []) demo_fresh 2).
  - reflexivity.
  - lia.
Defined.

Lemma reader_oserror_without_args_witness :
  let b := board_on [] true [Raised (Exn OSError [])] in
  execute board_handler 2 (__sock_recv_thread_worker demo_wired) b =
  Obs [Step (SockRecv 1%nat 1024) (Raised (Exn OSError []))]
      (snd (board_handler _ (SockRecv 1%nat 1024) b))
      (Some (demo_wired, Raised (Exn IndexError []))).
Proof.
  apply (reader_oserror_without_args board_handler
           (board_on [] true [Raised (Exn OSError [])]) demo_wired 1%nat 2).
  - reflexivity.
  - reflexivity.
  - lia.
Defined.

Lemma reader_pass_survives_uart_failure_witness :
  let self := mkDemo (VStr "Quectel") DEMO_CONFIG None (Some 1%nat) 2%nat None in
  let o := execute board_handler 6 (sock_recv_iteration self)
                   (board_on [] true [Returned hello]) in
  obs_result o = Some (self, Returned Continue) /\
  (__uart self = None ->
   uart_writes (obs_trace o) = [] /\
   logged (obs_trace o) =
     [(DEBUG, read_from_socket hello);
      (ERROR, send_to_serial_failed (Exn AttributeError [VStr "write"]))]) /\
  (forall e, uart_write_answers (obs_trace o) = [Raised e] ->
   logged (obs_trace o) =
     [(DEBUG, read_from_socket hello); (ERROR, send_to_serial_failed e)]).
Proof.
  apply (reader_pass_survives_uart_failure board_handler (board_on [] true [Returned hello])
           (mkDemo (VStr "Quectel") DEMO_CONFIG None (Some 1%nat) 2%nat None) 1%nat hello 6).
  - reflexivity.
  - lia.
  - reflexivity.
Defined.

Lemma uart_cb_blink_error_propagates_witness :
  let o := execute board_without_threads budget (__uart_cb VNone demo_wired)
                   (board_on hello true []) in
  let tr := obs_trace o in
  obs_result o = Some (demo_wired, Raised (Exn OSError [VInt 12])) /\
  exists s b length,
    sock_sends tr = [(s, b)] /\
    sock_send_answers tr = [Returned length] /\
    logged tr = [(DEBUG, read_from_serial b)].
Proof.
  apply (uart_cb_blink_error_propagates board_without_threads (board_on hello true [])
           VNone demo_wired (Exn OSError [VInt 12])).
  reflexivity.
Defined.

Lemma run_starts_a_reader_each_time_witness :
  let s := sys_run [Run] (mkSystem demo_fresh (board_on [] true [])) in
  let s' := sys_step Run s in
  threads (sys_board s') =
    (next_tid (sys_board s), sock_recv_thread_entry) :: threads (sys_board s) /\
  __sock (sys_demo s') = Some 1%nat.
Proof.
  apply (run_starts_a_reader_each_time
           (sys_run [Run] (mkSystem demo_fresh (board_on [] true [])))).
  - reflexivity.
  - vm_compute. discriminate.
  - reflexivity.
Defined.

Lemma blink_restarts_when_idle_witness :
  let s := sys_run [Run; UartData hello; ThreadExit 2]
                   (mkSystem demo_fresh (board_on [] true [])) in
  let s' := sys_step (BlinkRequest 50 50 20) s in
  blink_tasks s' = [(next_tid (sys_board s), led_blink_thread_entry 50 50 20)] /\
  __led_blink_thread_id (sys_demo s') = Some (next_tid (sys_board s)) /\
  readers s' = readers s.
Proof.
  apply (blink_restarts_when_idle (mkSystem demo_fresh (board_on [] true []))
           [Run; UartData hello; ThreadExit 2] 50 50 20).
  - repeat split; reflexivity.
  - reflexivity.
Defined.

(** ** The script's top level *)

Section Main.
Context {W : Type} (h : main_handler W).

Lemma execute_main_S {R} f (t : itree mainE R) w :
  execute_main h (S f) t w =
  match observe t with
  | RetF r => MObs [] w (Some r)
  | TauF t' => execute_main h f t' w
  | VisF e k =>
      let '(a, w') := h _ e w in
      mobs_cons (MStep e a) (execute_main h f (k a) w')
  end.
Proof. reflexivity. Qed.

Lemma execute_main_0 {R} (t : itree mainE R) w :
  execute_main h 0 t w = MObs [] w None.
Proof. reflexivity. Qed.

Lemma execute_main_Ret {R} f (r : R) w :
  execute_main h (S f) (Ret r) w = MObs [] w (Some r).
Proof. reflexivity. Qed.

Lemma execute_main_bind_Ret {A B} f (a : A) (k : A -> itree mainE B) w :
  execute_main h f (ITree.bind (Ret a) k) w = execute_main h f (k a) w.
Proof. destruct f; reflexivity. Qed.

Lemma execute_main_bind_Tau {A B} f (t : itree mainE A) (k : A -> itree mainE B) w :
  execute_main h (S f) (ITree.bind (Tau t) k) w = execute_main h f (ITree.bind t k) w.
Proof. reflexivity. Qed.

Lemma execute_main_bind_trigger {T B} f (e : mainE T) (k : T -> itree mainE B) w :
  execute_main h (S f) (ITree.bind (ITree.trigger e) k) w =
  mobs_cons (MStep e (fst (h _ e w)))
            (execute_main h f (k (fst (h _ e w))) (snd (h _ e w))).
Proof.
  rewrite execute_main_S. cbn. destruct (h T e w) as [a w']. cbn.
  destruct f; reflexivity.
Qed.

Lemma execute_main_bind_bind {A B C} f (m : itree mainE A) (k1 : A -> itree mainE B)
      (k2 : B -> itree mainE C) w :
  execute_main h f (ITree.bind (ITree.bind m k1) k2) w =
  execute_main h f (ITree.bind m (fun a => ITree.bind (k1 a) k2)) w.
Proof.
  revert m w. induction f as [|f IH]; intros m w; [reflexivity|].
  rewrite !execute_main_S, !observe_bind.
  destruct (observe m) as [a|m'|T e k]; cbn.
  - rewrite observe_bind. reflexivity.
  - apply IH.
  - destruct (h T e w) as [a w']. rewrite IH. reflexivity.
Qed.

Lemma execute_main_bind_iter {I R B} f (body : I -> itree mainE (I + R)) (i : I)
      (k : R -> itree mainE B) w :
  execute_main h f (ITree.bind (ITree.iter body i) k) w =
  execute_main h f
    (ITree.bind (body i) (fun lr =>
       ITree.bind match lr with
                  | inl l => Tau (ITree.iter body l)
                  | inr r => Ret r
                  end k)) w.
Proof.
  rewrite <- execute_main_bind_bind. destruct f; reflexivity.
Qed.

Lemma execute_main_Tau {R} f (t : itree mainE R) w :
  execute_main h (S f) (Tau t) w = execute_main h f t w.
Proof. reflexivity. Qed.

(** Continuations that run alike give runs that are alike. *)
Lemma execute_main_bind_ext {A B} f (m : itree mainE A) (k1 k2 : A -> itree mainE B) w :
  (forall a f w, execute_main h f (k1 a) w = execute_main h f (k2 a) w) ->
  execute_main h f (ITree.bind m k1) w = execute_main h f (ITree.bind m k2) w.
Proof.
  intros Hk. revert m w. induction f as [|f IH]; intros m w; [reflexivity|].
  rewrite !execute_main_S, !observe_bind.
  destruct (observe m) as [a|m'|T e k]; cbn.
  - rewrite <- !execute_main_S. apply Hk.
  - apply IH.
  - destruct (h T e w) as [a w']. rewrite IH. reflexivity.
Qed.

(** One pass of [while True] at the top level, then the loop again or what
    follows it. *)
Lemma execute_main_wait_loop {B} f (k : outcome unit -> itree mainE B) w :
  execute_main h f (ITree.bind (ITree.iter wait_network_step tt) k) w =
  execute_main h f
    (ITree.bind (wait_network_step tt) (fun lr =>
       match lr with
       | inl _ => Tau (ITree.bind (ITree.iter wait_network_step tt) k)
       | inr r => k r
       end)) w.
Proof.
  rewrite execute_main_bind_iter. apply execute_main_bind_ext.
  intros [[]|r] f0 w0.
  - destruct f0; reflexivity.
  - apply execute_main_bind_Ret.
Qed.

Lemma observe_translate {E F R} (g : forall T, E T -> F T) (t : itree E R) :
  observe (translate g t) =
  match observe t with
  | RetF r => RetF r
  | TauF t' => TauF (translate g t')
  | VisF e k => VisF (g _ e) (fun x => translate g (k x))
  end.
Proof.
  rewrite (observing_observe (unfold_translate_ g t)).
  destruct (observe t); reflexivity.
Qed.

Lemma mobs_app_nil {R} (o : main_observation W R) : mobs_app [] o = o.
Proof. destruct o; reflexivity. Qed.

(** A method of [Demo] called from the top level makes the calls it makes
    on its own, and the top level goes on with its result. *)
Lemma execute_main_bind_translate {A B} f (t : itree ioE A) (k : A -> itree mainE B) w :
  let o := execute (io_part h) f t w in
  match obs_result o with
  | None =>
      execute_main h f (ITree.bind (translate (@inl1 ioE netE) t) k) w =
      MObs (List.map lift_step (obs_trace o)) (obs_world o) None
  | Some a =>
      exists f2, (1 <= f2 <= f)%nat /\
        execute_main h f (ITree.bind (translate (@inl1 ioE netE) t) k) w =
        mobs_app (List.map lift_step (obs_trace o)) (execute_main h f2 (k a) (obs_world o))
  end.
Proof.
  revert t w. induction f as [|f IH]; intros t w; cbn zeta; [reflexivity|].
  rewrite execute_S, execute_main_S, observe_bind, observe_translate.
  destruct (observe t) as [a|t'|T e k'] eqn:Et; cbn.
  - exists (S f). split; [lia|]. rewrite mobs_app_nil, execute_main_S. reflexivity.
  - specialize (IH t' w). cbn zeta in IH.
    destruct (obs_result (execute (io_part h) f t' w)); [|exact IH].
    destruct IH as [f2 [Hle E]]. exists f2. split; [lia | exact E].
  - change (h T (@inl1 ioE netE T e) w) with (io_part h T e w).
    destruct (io_part h T e w) as [a w1].
    specialize (IH (k' a) w1). cbn zeta in IH. revert IH.
    destruct (execute (io_part h) f (k' a) w1) as [tr w2 [r|]];
      unfold obs_cons; cbn; intros IH.
    + destruct IH as [f2 [Hle E]]. exists f2. split; [lia|].
      exact (f_equal (mobs_cons (MStep (inl1 e) a)) E).
    + exact (f_equal (mobs_cons (MStep (inl1 e) a)) IH).
Qed.
End Main.

Ltac main_call :=
  match goal with
  | |- context [execute_main ?h (S ?f) (ITree.bind (ITree.trigger ?e) ?k) ?w] =>
      rewrite (execute_main_bind_trigger h f e k w);
      let a := fresh "a" in
      let w' := fresh "w" in
      destruct (h _ e w) as [a w'] eqn:?; destruct a; cbn [fst snd]
  end.

Ltac main_fuel :=
  match goal with
  | |- context [execute_main _ ?f ?t _] =>
      is_var f;
      tryif is_var t then fail else
        (destruct f; [rewrite execute_main_0; cbn | ])
  end.

Ltac main_all :=
  cbn;
  repeat first [ rewrite execute_main_bind_bind | rewrite execute_main_bind_Ret
               | rewrite execute_main_bind_Tau | rewrite execute_main_Tau
               | rewrite execute_main_Ret
               | main_call | progress cbn
               | match goal with
                 | |- context [if network_ready ?c then _ else _] =>
                     destruct (network_ready c) eqn:?; cbn
                 end
               | main_fuel ].

Section MainLoop.
Context {W : Type} (h : main_handler W).

Lemma wait_answers_lift tr : wait_answers (List.map lift_step tr) = [].
Proof. induction tr as [|st tr IH]; [reflexivity | exact IH]. Qed.

Lemma printed_codes_lift tr : printed_codes (List.map lift_step tr) = [].
Proof. induction tr as [|st tr IH]; [reflexivity | exact IH]. Qed.

(** [demo.run()] at the end of the top level is [run] on [demo]. *)
Lemma main_run_is_run f w demo :
  execute_main h f (main_run demo (Returned tt)) w =
  lift_obs snd (execute (io_part h) f (run demo) w).
Proof.
  pose proof (execute_main_bind_translate h f (run demo) (fun x => Ret (snd x)) w) as H.
  cbn zeta in H. unfold lift_obs.
  set (o := execute_main h f (main_run demo (Returned tt)) w).
  destruct (execute (io_part h) f (run demo) w) as [tr w' [a|]]; cbn in *.
  - destruct H as [f2 [Hle E]].
    assert (Eo : o = mobs_app (List.map lift_step tr)
                          (execute_main h f2 (Ret (snd a)) w')) by exact E.
    rewrite Eo. destruct f2 as [|f2]; [lia|].
    rewrite execute_main_Ret. unfold mobs_app. cbn. rewrite app_nil_r. reflexivity.
  - exact H.
Qed.

Lemma main_run_obs f w demo :
  let o := execute_main h f (main_run demo (Returned tt)) w in
  wait_answers (mobs_trace o) = [] /\ printed_codes (mobs_trace o) = [].
Proof.
  cbn zeta. rewrite main_run_is_run. unfold lift_obs. cbn.
  rewrite wait_answers_lift, printed_codes_lift. split; reflexivity.
Qed.

Lemma main_run_raised e f w demo :
  (1 <= f)%nat ->
  execute_main h f (main_run demo (Raised e)) w = MObs [] w (Some (Raised e)).
Proof. intros Hf. destruct f; [lia | reflexivity]. Qed.

Lemma main_wait_obs (K : outcome unit -> itree mainE (outcome unit)) f :
  (forall f w,
      let o := execute_main h f (K (Returned tt)) w in
      wait_answers (mobs_trace o) = [] /\ printed_codes (mobs_trace o) = []) ->
  (forall e f w,
      (1 <= f)%nat -> execute_main h f (K (Raised e)) w = MObs [] w (Some (Raised e))) ->
  forall w,
    let o := execute_main h f (ITree.bind (ITree.iter wait_network_step tt) K) w in
    let tr := mobs_trace o in
    (existsb ready_answer (wait_answers tr) = false ->
     forallb before_run_call tr = true /\ mobs_result o <> Some (Returned tt)) /\
    only_last_ends_wait (wait_answers tr) /\
    (exists rest,
        printed_codes tr ++ rest = not_ready_codes (wait_answers tr) /\
        (List.length rest <= 1)%nat /\
        (mobs_result o <> None -> rest = [])) /\
    (existsb ready_answer (wait_answers tr) = true ->
     exists pre f' w',
       forallb wait_call pre = true /\
       o = mobs_app pre (execute_main h f' (K (Returned tt)) w')).
Proof.
  intros HK HKe.
  remember (ITree.bind (ITree.iter wait_network_step tt) K) as loop eqn:El.
  assert (Hunf : forall f w,
             execute_main h f loop w =
             execute_main h f
               (ITree.bind (wait_network_step tt) (fun lr =>
                  match lr with
                  | inl _ => Tau loop
                  | inr r => K r
                  end)) w).
  { intros f0 w0. rewrite El. apply execute_main_wait_loop. }
  clear El.
  induction f as [f IH] using lt_wf_ind. intros w. cbn zeta.
  remember (execute_main h f _ w) as o eqn:E. symmetry in E. revert E.
  rewrite Hunf. unfold wait_network_step at 1.
  main_all.
  all: intros <-.
  all: try match goal with
       | |- context [execute_main h ?f0 (?k (Returned tt)) ?w'] =>
           destruct (HK f0 w') as [Hw Hp];
           remember (execute_main h f0 (k (Returned tt)) w') as o' eqn:Eo
       | |- context [execute_main h ?f0 (?k (Raised ?e)) ?w'] =>
           rewrite (HKe e f0 w') by lia
       | |- context [execute_main h ?f0 ?t ?w'] =>
           is_var t;
           destruct (IH f0 ltac:(lia) w') as (H1 & H2 & [rest (H3 & H3' & H4)] & H5);
           remember (execute_main h f0 t w') as o' eqn:Eo
       end.
  all: cbn [mobs_cons mobs_trace mobs_result mobs_world].
  all: unfold wait_answers, printed_codes, not_ready_codes in *;
       cbn [flat_map wait_answer mstep_ev app existsb ready_answer forallb
            before_run_call] in *.
  all: repeat match goal with H : network_ready _ = _ |- _ => rewrite H end.
  all: cbn [orb andb app].
  all: split;
    [ intros Hn; try discriminate Hn;
      first [ destruct (H1 Hn) as [Ha Hb]; split; assumption
            | split; [reflexivity | discriminate] ]
    | split;
      [ first [ exact I
              | rewrite Hw; exact I
              | destruct (flat_map wait_answer _);
                [ exact I
                | split; [cbn; match goal with H : network_ready _ = _ |- _ => rewrite H end;
                          reflexivity | exact H2] ] ]
      | split;
        [ first [ rewrite Hp, Hw; exists []; repeat split; cbn; lia
                | exists rest; rewrite <- H3; split; [reflexivity | split; [exact H3' | exact H4]]
                | eexists; split;
                  [ reflexivity
                  | split;
                    [ cbn; lia
                    | intros Hx; first [reflexivity | exfalso; apply Hx; reflexivity] ] ] ]
        | intros Hn; try discriminate Hn;
          first
            [ destruct (H5 Hn) as (pre & f' & w' & Hpre & Eo');
              match goal with
              | |- exists _ _ _, _ /\ mobs_cons ?a (mobs_cons ?b _) = _ =>
                  exists (a :: b :: pre), f', w';
                  split; [exact Hpre | rewrite Eo'; reflexivity]
              end
            | match goal with
              | Eo : ?o = execute_main h ?f0 (_ (Returned tt)) ?w'
                |- exists _ _ _, _ /\ mobs_cons ?a (mobs_cons ?b ?o) = _ =>
                  exists [a; b], f0, w';
                  split; [reflexivity | rewrite <- Eo; reflexivity]
              | |- exists _ _ _, _ /\ mobs_cons ?a (mobs_cons ?b (MObs [] ?w0 None)) = _ =>
                  exists [a; b], 0%nat, w0; split; reflexivity
              | |- exists _ _ _, _ /\ mobs_cons ?a (MObs [] ?w0 None) = _ =>
                  exists [a], 0%nat, w0; split; reflexivity
              end ] ] ] ].
Qed.
End MainLoop.

(** Perform a call whose answer is already known. *)
Ltac main_known :=
  match goal with
  | H : ?hh ?T ?e ?w = (_, _)
    |- context [execute_main ?hh (S ?f) (ITree.bind (ITree.trigger ?e) ?k) ?w] =>
      rewrite (execute_main_bind_trigger hh f e k w), H; cbn [fst snd]
  end.

Ltac main_both :=
  cbn;
  repeat first [ rewrite execute_main_bind_bind | rewrite execute_main_bind_Ret
               | rewrite execute_main_bind_Tau | rewrite execute_main_Tau
               | rewrite execute_main_Ret
               | main_known | main_call | progress cbn
               | match goal with
                 | H : network_ready ?c = _ |- context [network_ready ?c] =>
                     rewrite H; cbn
                 | |- context [if network_ready ?c then _ else _] =>
                     destruct (network_ready c) eqn:?; cbn
                 end
               | main_fuel ].

Section MainProgress.
Context {W : Type} (h : main_handler W).

(** The loop begins with a call of [waitNetworkReady]. *)
Lemma main_wait_asks (K : outcome unit -> itree mainE (outcome unit)) f w :
  (1 <= f)%nat ->
  wait_answers
    (mobs_trace (execute_main h f (ITree.bind (ITree.iter wait_network_step tt) K) w)) <> [].
Proof.
  intros Hf. destruct f as [|f]; [lia|].
  rewrite execute_main_wait_loop. unfold wait_network_step.
  rewrite execute_main_bind_bind, execute_main_bind_trigger.
  cbn. discriminate.
Qed.

(** After an answer that is not [(3, 1)] the loop has not ended, and three
    more nodes of the run (the [print], the jump back, the call) bring the
    next [waitNetworkReady]. *)
Lemma main_wait_progress (K : outcome unit -> itree mainE (outcome unit)) f :
  forall w,
    let loop := ITree.bind (ITree.iter wait_network_step tt) K in
    let o := execute_main h f loop w in
    let answers := wait_answers (mobs_trace o) in
    forallb keeps_waiting answers = true ->
    mobs_result o = None /\
    (answers <> [] ->
     (List.length answers <
      List.length (wait_answers (mobs_trace (execute_main h (3 + f) loop w))))%nat).
Proof.
  pose proof (main_wait_asks K) as Hasks.
  remember (ITree.bind (ITree.iter wait_network_step tt) K) as loop eqn:El.
  assert (Hunf : forall f w,
             execute_main h f loop w =
             execute_main h f
               (ITree.bind (wait_network_step tt) (fun lr =>
                  match lr with
                  | inl _ => Tau loop
                  | inr r => K r
                  end)) w).
  { intros f0 w0. rewrite El. apply execute_main_wait_loop. }
  clear El.
  assert (Hpos : forall f w, (1 <= f)%nat ->
             (0 < List.length (wait_answers (mobs_trace (execute_main h f loop w))))%nat).
  { intros f0 w0 Hf. specialize (Hasks f0 w0 Hf).
    destruct (wait_answers (mobs_trace (execute_main h f0 loop w0)));
      [contradiction | cbn; lia]. }
  clear Hasks.
  induction f as [f IH] using lt_wf_ind. intros w. cbn zeta.
  cbn [Nat.add].
  rewrite !Hunf. unfold wait_network_step.
  main_both.
  all: intros Hk; try discriminate Hk.
  all: unfold wait_answers in *.
  all: first
    [ split; [reflexivity | intros Hne; exfalso; apply Hne; reflexivity]
    | split; [reflexivity|]; intros _;
      match goal with
      | |- context [execute_main h ?f0 ?t ?w0] =>
          pose proof (Hpos f0 w0 ltac:(lia)); lia
      end
    | match goal with
      | |- context [mobs_result (execute_main h ?f0 ?t ?w0)] =>
          destruct (IH f0 ltac:(lia) w0 Hk) as [Hr Hl];
          cbn [Nat.add] in Hl;
          split; [exact Hr|]; intros _;
          pose proof (Hpos (S (S (S f0))) w0 ltac:(lia));
          destruct (flat_map wait_answer (mobs_trace (execute_main h f0 t w0)));
          [ cbn [List.length]; lia
          | specialize (Hl ltac:(discriminate)); cbn [List.length] in *; lia ]
      end ].
Qed.

(** A call of the constructor, seen from the top level. *)
Lemma execute_main_bind_translate_trigger {T A B} f (e : ioE T) (k : T -> itree ioE A)
      (k2 : A -> itree mainE B) w :
  execute_main h (S f)
    (ITree.bind (translate (@inl1 ioE netE) (ITree.bind (ITree.trigger e) k)) k2) w =
  mobs_cons (MStep (inl1 e) (fst (h _ (inl1 e) w)))
    (execute_main h f
       (ITree.bind (translate (@inl1 ioE netE) (k (fst (h _ (inl1 e) w)))) k2)
       (snd (h _ (inl1 e) w))).
Proof.
  rewrite execute_main_S, observe_bind, observe_translate. cbn.
  destruct (h T (inl1 e) w) as [a w']. cbn.
  destruct f; reflexivity.
Qed.

Lemma execute_main_bind_translate_Ret {A B} f (r : A) (k2 : A -> itree mainE B) w :
  execute_main h f (ITree.bind (translate (@inl1 ioE netE) (Ret r)) k2) w =
  execute_main h f (k2 r) w.
Proof. destruct f; reflexivity. Qed.

Lemma main_after_init_progress f w led :
  let t := main_after_init (Returned (demo_with_led led)) in
  let o := execute_main h f t w in
  let answers := wait_answers (mobs_trace o) in
  forallb keeps_waiting answers = true ->
  answers <> [] ->
  mobs_result o = None /\
  (List.length answers <
   List.length (wait_answers (mobs_trace (execute_main h (3 + f) t w))))%nat.
Proof.
  cbn zeta. cbn [Nat.add].
  unfold main_after_init. cbn [config demo_with_led].
  change (getitem DEMO_CONFIG "PROJECT_NAME") with (Returned (VStr "QuecPython_DEMO")).
  cbn match.
  change (getitem DEMO_CONFIG "PROJECT_VERSION") with (Returned (VStr "1.0.0")).
  cbn match.
  pose proof (main_wait_progress (main_run (demo_with_led led))) as Hloop.
  cbn zeta in Hloop.
  change (mkDemo (VStr "Quectel") DEMO_CONFIG None None led None)
    with (demo_with_led led).
  remember (ITree.bind (ITree.iter wait_network_step tt)
              (main_run (demo_with_led led)))
    as rest eqn:Er.
  main_both.
  all: intros Hk Hne; try (exfalso; apply Hne; reflexivity).
  all: unfold wait_answers in *; cbn [flat_map wait_answer app List.length] in *.
  all: match goal with
       | |- context [mobs_result (execute_main h ?f0 ?t ?w0)] =>
           destruct (Hloop f0 w0 Hk) as [Hr Hl]; cbn [Nat.add] in Hl;
           split; [exact Hr | apply Hl; exact Hne]
       end.
Qed.

Lemma main_progress f w :
  let o := execute_main h f main w in
  let answers := wait_answers (mobs_trace o) in
  forallb keeps_waiting answers = true ->
  answers <> [] ->
  mobs_result o = None /\
  (List.length answers <
   List.length (wait_answers (mobs_trace (execute_main h (3 + f) main w))))%nat.
Proof.
  cbn zeta. cbn [Nat.add].
  unfold main, Demo_init.
  change (getitem DEMO_CONFIG "LED") with (Returned (VDict [("GPIOn", VInt 16)])).
  cbn match.
  change (getitem (VDict [("GPIOn", VInt 16)]) "GPIOn") with (Returned (VInt 16)).
  cbn match.
  pose proof main_after_init_progress as Hrest. cbn zeta in Hrest.
  remember main_after_init as K0 eqn:EK.
  repeat first
    [ rewrite execute_main_bind_translate_Ret
    | match goal with
      | H : ?hh ?T (inl1 ?e) ?w0 = (_, _)
        |- context [execute_main ?hh (S ?f0)
                      (ITree.bind (translate _ (ITree.bind (ITree.trigger ?e) ?k)) ?k2) ?w0] =>
          rewrite (execute_main_bind_translate_trigger f0 e k k2 w0), H; cbn [fst snd]
      | |- context [execute_main ?hh (S ?f0)
                      (ITree.bind (translate _ (ITree.bind (ITree.trigger ?e) ?k)) ?k2) ?w0] =>
          rewrite (execute_main_bind_translate_trigger f0 e k k2 w0);
          let a := fresh "a" in
          let w' := fresh "w" in
          destruct (hh _ (inl1 e) w0) as [a w'] eqn:?; destruct a; cbn [fst snd]
      end
    | main_fuel ].
  all: subst K0.
  all: try (unfold main_after_init at 1 2; rewrite !execute_main_Ret).
  all: cbn [mobs_cons mobs_trace mobs_result].
  all: unfold wait_answers; cbn [flat_map wait_answer app].
  all: intros Hk Hne.
  all: first [ exfalso; apply Hne; reflexivity
             | exact (Hrest _ _ _ Hk Hne) ].
Qed.
End MainProgress.

Section MainScript.
Context {W : Type} (h : main_handler W).

Lemma wait_answers_app tr1 tr2 :
  wait_answers (tr1 ++ tr2) = wait_answers tr1 ++ wait_answers tr2.
Proof. unfold wait_answers. apply flat_map_app. Qed.

Lemma printed_codes_app tr1 tr2 :
  printed_codes (tr1 ++ tr2) = printed_codes tr1 ++ printed_codes tr2.
Proof. unfold printed_codes. apply flat_map_app. Qed.

Lemma wait_call_top_level tr :
  forallb wait_call tr = true -> forallb top_level_call tr = true.
Proof.
  induction tr as [|st tr IH]; [reflexivity|]. cbn [forallb].
  intros H. apply andb_prop in H. destruct H as [H1 H2].
  unfold top_level_call at 1. rewrite H1, (IH H2), orb_true_r. reflexivity.
Qed.

(** The constructor, as the top level calls it. *)
Lemma Demo_init_obs (h0 : handler W) f w :
  let o := execute h0 f (Demo_init (VStr "Quectel") None) w in
  forallb before_run_call (List.map lift_step (obs_trace o)) = true /\
  forall d, obs_result o = Some (Returned d) -> exists led, d = demo_with_led led.
Proof.
  cbn zeta.
  remember (execute h0 f _ w) as o eqn:E. symmetry in E. revert E.
  unfold Demo_init.
  change (getitem DEMO_CONFIG "LED") with (Returned (VDict [("GPIOn", VInt 16)])).
  cbn match.
  change (getitem (VDict [("GPIOn", VInt 16)]) "GPIOn") with (Returned (VInt 16)).
  exec_all.
  all: intros <-; cbn; split; [reflexivity|].
  all: intros d Hd; try discriminate Hd; inversion Hd; subst.
  eexists. reflexivity.
Qed.

(** The top level once the object is built. *)
Lemma main_after_init_obs f w led :
  let o := execute_main h f (main_after_init (Returned (demo_with_led led))) w in
  let tr := mobs_trace o in
  (existsb ready_answer (wait_answers tr) = false ->
   forallb before_run_call tr = true /\ mobs_result o <> Some (Returned tt)) /\
  only_last_ends_wait (wait_answers tr) /\
  (exists rest,
      printed_codes tr ++ rest = not_ready_codes (wait_answers tr) /\
      (List.length rest <= 1)%nat /\
      (mobs_result o <> None -> rest = [])) /\
  (existsb ready_answer (wait_answers tr) = true ->
   exists pre f' w',
     forallb top_level_call pre = true /\
     o = mobs_app pre (lift_obs snd (execute (io_part h) f' (run (demo_with_led led)) w'))).
Proof.
  cbn zeta.
  remember (execute_main h f _ w) as o eqn:E. symmetry in E. revert E.
  unfold main_after_init. cbn [config demo_with_led].
  change (getitem DEMO_CONFIG "PROJECT_NAME") with (Returned (VStr "QuecPython_DEMO")).
  cbn match.
  change (getitem DEMO_CONFIG "PROJECT_VERSION") with (Returned (VStr "1.0.0")).
  cbn match.
  remember (ITree.bind (ITree.iter wait_network_step tt)
              (main_run (demo_with_led led)))
    as rest eqn:Er.
  main_all.
  all: intros <-.
  all: try match goal with
       | |- context [execute_main h ?f0 ?t ?w'] =>
           is_var t;
           destruct (main_wait_obs h (main_run (demo_with_led led)) f0
                       (fun f w => main_run_obs h f w (demo_with_led led))
                       (fun e f w => main_run_raised h e f w (demo_with_led led)) w')
             as (H1 & H2 & [rest' (H3 & H3' & H4)] & H5);
           rewrite <- Er in H1, H2, H3, H4, H5;
           remember (execute_main h f0 t w') as o' eqn:Eo
       end.
  all: cbn [mobs_cons mobs_trace mobs_result mobs_world].
  all: unfold wait_answers, printed_codes, not_ready_codes in *;
       cbn [flat_map wait_answer mstep_ev app existsb ready_answer forallb
            before_run_call andb] in *.
  all: split;
    [ first [ exact H1 | intros _; split; [reflexivity | discriminate] ]
    | split;
      [ first [ exact H2 | exact I ]
      | split;
        [ first [ exists rest'; repeat split; assumption
                | exists []; repeat split; cbn; lia ]
        | intros Hn; try discriminate Hn;
          destruct (H5 Hn) as (pre & f' & w' & Hpre & Eo');
          match goal with
          | |- exists _ _ _, _ /\ mobs_cons ?a (mobs_cons ?b _) = _ =>
              exists (a :: b :: pre), f', w';
              split;
              [ exact (wait_call_top_level pre Hpre)
              | rewrite Eo', main_run_is_run; reflexivity ]
          end ] ] ].
Qed.

Lemma before_run_call_top_level tr :
  forallb before_run_call tr = true -> forallb top_level_call tr = true.
Proof.
  induction tr as [|st tr IH]; [reflexivity|]. cbn [forallb].
  intros H. apply andb_prop in H. destruct H as [H1 H2].
  unfold top_level_call at 1. rewrite H1, (IH H2). reflexivity.
Qed.

Lemma main_obs f w :
  let o := execute_main h f main w in
  let tr := mobs_trace o in
  (existsb ready_answer (wait_answers tr) = false ->
   forallb before_run_call tr = true /\ mobs_result o <> Some (Returned tt)) /\
  only_last_ends_wait (wait_answers tr) /\
  (exists rest,
      printed_codes tr ++ rest = not_ready_codes (wait_answers tr) /\
      (List.length rest <= 1)%nat /\
      (mobs_result o <> None -> rest = [])) /\
  (existsb ready_answer (wait_answers tr) = true ->
   exists pre led f' w',
     forallb top_level_call pre = true /\
     o = mobs_app pre (lift_obs snd (execute (io_part h) f' (run (demo_with_led led)) w'))).
Proof.
  cbn zeta.
  pose proof (execute_main_bind_translate h f (Demo_init (VStr "Quectel") None)
                main_after_init w) as H.
  destruct (Demo_init_obs (io_part h) f w) as [Hc Hr]. cbn zeta in H, Hc, Hr.
  set (o := execute_main h f main w).
  destruct (execute (io_part h) f (Demo_init (VStr "Quectel") None) w) as [tr0 w0 [r|]];
    cbn [obs_result obs_trace obs_world] in *.
  - destruct H as [f2 [Hle E]].
    assert (Eo : o = mobs_app (List.map lift_step tr0)
                          (execute_main h f2 (main_after_init r) w0)) by exact E.
    rewrite Eo. clear E Eo o.
    destruct r as [d|e].
    + destruct (Hr d eq_refl) as [led ->].
      destruct (main_after_init_obs f2 w0 led) as (H1 & H2 & [rest (H3 & H3' & H4)] & H5).
      remember (execute_main h f2 (main_after_init (Returned (demo_with_led led))) w0)
        as o' eqn:Eo.
      cbn [mobs_app mobs_trace mobs_result].
      rewrite wait_answers_app, wait_answers_lift, printed_codes_app, printed_codes_lift.
      cbn [app].
      split; [|split; [exact H2|split; [exists rest; repeat split; assumption|]]].
      * intros Hn. destruct (H1 Hn) as [Ha Hb].
        split; [rewrite forallb_app, Hc, Ha; reflexivity | exact Hb].
      * intros Hn. destruct (H5 Hn) as (pre & f' & w' & Hpre & Eo').
        exists (List.map lift_step tr0 ++ pre), led, f', w'.
        split.
        -- rewrite forallb_app, (before_run_call_top_level _ Hc), Hpre. reflexivity.
        -- rewrite Eo'. unfold mobs_app. cbn. rewrite app_assoc. reflexivity.
    + destruct f2 as [|f2]; [lia|].
      unfold main_after_init. rewrite execute_main_Ret.
      cbn [mobs_app mobs_trace mobs_result].
      rewrite app_nil_r, wait_answers_lift, printed_codes_lift.
      split; [intros _; split; [exact Hc | discriminate]|].
      split; [exact I|].
      split; [exists []; repeat split; cbn; lia|].
      intros Hn; discriminate Hn.
  - assert (Eo : o = MObs (List.map lift_step tr0) w0 None) by exact H.
    rewrite Eo. cbn [mobs_trace mobs_result].
    rewrite wait_answers_lift, printed_codes_lift.
    split; [intros _; split; [exact Hc | discriminate]|].
    split; [exact I|].
    split; [exists []; split;
            [reflexivity | split; [cbn; lia | intros Hx; exfalso; apply Hx; reflexivity]]|].
    intros Hn; discriminate Hn.
Qed.

(** X24: the top level does not start [demo.run()] before the network is
    ready.  As long as no [waitNetworkReady] has answered [(3, 1)], the
    only calls made are those of the constructor ([getattr(Pin, ...)],
    [Pin(...)]), of [checkNet] and of [print] (no UART, socket, thread or
    logger call), and the script has not ended normally. *)
Theorem main_runs_only_after_network_ready (fuel : nat) (w : W) :
  let o := execute_main h fuel main w in
  existsb ready_answer (wait_answers (mobs_trace o)) = false ->
  forallb before_run_call (mobs_trace o) = true /\
  mobs_result o <> Some (Returned tt).
Proof. apply main_obs. Qed.

(** X25: the wait loop of the top level goes round again after every
    answer of [waitNetworkReady] that returned codes other than [(3, 1)],
    and only then: an answer [(3, 1)] or an exception is the last one;
    after a not-ready answer the script has not ended, and three more
    nodes of the run (the [print], the jump back, the call) bring the next
    [waitNetworkReady].  The codes printed are those not-ready codes, in
    order, each once; while the script is running at most the latest one is
    still unprinted. *)
Theorem main_waits_until_ready (fuel : nat) (w : W) :
  let o := execute_main h fuel main w in
  let answers := wait_answers (mobs_trace o) in
  only_last_ends_wait answers /\
  (exists rest,
      printed_codes (mobs_trace o) ++ rest = not_ready_codes answers /\
      (List.length rest <= 1)%nat /\
      (mobs_result o <> None -> rest = [])) /\
  (forallb keeps_waiting answers = true ->
   answers <> [] ->
   mobs_result o = None /\
   (List.length answers <
    List.length (wait_answers (mobs_trace (execute_main h (3 + fuel) main w))))%nat).
Proof.
  cbn zeta. destruct (main_obs fuel w) as (_ & H2 & H3 & _).
  split; [exact H2|]. split; [exact H3|].
  apply main_progress.
Qed.

End MainScript.

Lemma main_runs_only_after_network_ready_witness :
  let o := execute_main station_handler 7 main
             (board_on [] true [], [(1, 0); (2, 0); (2, 1)]) in
  forallb before_run_call (mobs_trace o) = true /\
  mobs_result o <> Some (Returned tt).
Proof.
  apply (main_runs_only_after_network_ready station_handler 7
           (board_on [] true [], [(1, 0); (2, 0); (2, 1)])).
  vm_compute. reflexivity.
Defined.

(** On the simulated module with the network not ready at first: five
    nodes into the script the first answer, [(1, 0)], is in; the script has
    not ended, and three nodes later the second call has been made. *)
Lemma main_waits_until_ready_witness :
  let w := (board_on [] true [], [(1, 0); (2, 0)]) in
  let o := execute_main station_handler 5 main w in
  wait_answers (mobs_trace o) = [Returned (1, 0)] /\
  mobs_result o = None /\
  (List.length (wait_answers (mobs_trace o)) <
   List.length (wait_answers (mobs_trace (execute_main station_handler (3 + 5) main w))))%nat.
Proof.
  split; [reflexivity|].
  destruct (main_waits_until_ready station_handler 5
              (board_on [] true [], [(1, 0); (2, 0)])) as (_ & _ & H).
  apply H; [reflexivity | vm_compute; discriminate].
Defined.


(** The script from power-on on the simulated module, with the network
    ready at the second answer: the object is built, the not-ready codes
    are printed, and [run] opens the UART, connects and starts the reader. *)
Example main_end_to_end :
  let o := execute_main station_handler 30 main (board_on [] true [], [(1, 0)]) in
  printed_codes (mobs_trace o) = [(1, 0)] /\
  wait_answers (mobs_trace o) = [Returned (1, 0); Returned (3, 1)] /\
  threads (fst (mobs_world o)) = [(1, sock_recv_thread_entry)] /\
  mobs_result o = Some (Returned tt).
Proof. vm_compute. repeat split. Qed.
